(** * Forefront Toolkit: the DataCollection record store and its query engine

    A shallow embedding of [core/data_collection.js] (class [DataCollection])
    and of the two date converters of [utilities/date_utilities.js] it calls,
    followed by the properties of sorting, filtering, normalisation and of
    the mutating operations.

    Scope of the model.
    - Cell values are the primitive values of the host language: undefined,
      null, booleans, numbers and strings.  Numbers are the integers together
      with NaN and the two infinities; numerals with a decimal point or an
      exponent are outside the model (a string holding one is read as not
      numeric).
    - Strings are sequences of 8-bit characters; case mapping and the
      character classes of regular expressions are the ASCII ones.
    - [Date.parse] is left as a parameter [Date_parse]: what it returns for
      the strings [convertEuDateInIsoDate] builds (for instance "2023-5-7")
      depends on the engine and on the time zone.
    - [Array.prototype.sort] is a stable sort; it is modelled by the stable
      insertion sort [Array_sort].  When the comparator is transitive on
      the elements every stable sort returns the same list (lemma
      [stable_sorted_unique]); when it is not, the order the host language
      gives depends on the engine. *)

From Stdlib Require Import ZArith List String Ascii Bool Lia.
From Stdlib Require Import Permutation Sorted DecimalString.
From Stdlib Require DecimalPos DecimalNat OrderedTypeEx.
Import ListNotations.

Local Open Scope string_scope.
Local Open Scope Z_scope.

(** ** The fragment of the host language used by the code *)

Module JS.

(** Numbers: NaN, a finite integer, or an infinity ([Inf true] is
    [-Infinity]). *)
Inductive number : Type :=
| NaN
| Fin (z : Z)
| Inf (negative : bool).

Inductive value : Type :=
| VUndefined
| VNull
| VBool (b : bool)
| VNum (n : number)
| VStr (s : string).

(** What a [throw] carries: a built-in [TypeError], a thrown string, or
    [new Error(msg)]. *)
Inductive exn : Type :=
| TypeError (msg : string)
| ThrownString (msg : string)
| ErrorObject (msg : string).

Inductive result (A : Type) : Type :=
| Ret (a : A)
| Throw (e : exn).
Arguments Ret {A} a.
Arguments Throw {A} e.

Definition bind {A B} (m : result A) (f : A -> result B) : result B :=
  match m with
  | Ret a => f a
  | Throw e => Throw e
  end.

(** *** Numbers *)

Definition num_sub (a b : number) : number :=
  match a, b with
  | NaN, _ | _, NaN => NaN
  | Fin x, Fin y => Fin (x - y)
  | Fin _, Inf s => Inf (negb s)
  | Inf s, Fin _ => Inf s
  | Inf s, Inf t => if Bool.eqb s t then NaN else Inf s
  end.

Definition num_mul (a b : number) : number :=
  match a, b with
  | NaN, _ | _, NaN => NaN
  | Fin x, Fin y => Fin (x * y)
  | Fin x, Inf s | Inf s, Fin x =>
      if x =? 0 then NaN else Inf (xorb s (x <? 0))
  | Inf s, Inf t => Inf (xorb s t)
  end.

(** [a < b] on numbers; false as soon as an operand is NaN. *)
Definition num_ltb (a b : number) : bool :=
  match a, b with
  | NaN, _ | _, NaN => false
  | Fin x, Fin y => x <? y
  | Fin _, Inf s => negb s
  | Inf s, Fin _ => s
  | Inf s, Inf t => s && negb t
  end.

Definition num_isNaN (a : number) : bool :=
  match a with NaN => true | _ => false end.

Definition num_isFinite (a : number) : bool :=
  match a with Fin _ => true | _ => false end.

(** *** Characters and strings *)

Definition code (c : ascii) : N := N_of_ascii c.

(** The class [\d]. *)
Definition isDigit (c : ascii) : bool :=
  (48 <=? code c)%N && (code c <=? 57)%N.

(** The class [\s], and the white space trimmed by the numeric
    conversions: tab, line feed, vertical tab, form feed, carriage return
    and space. *)
Definition isSpace (c : ascii) : bool :=
  ((9 <=? code c)%N && (code c <=? 13)%N) || (code c =? 32)%N.

Definition toLowerCase_char (c : ascii) : ascii :=
  if (65 <=? code c)%N && (code c <=? 90)%N
  then ascii_of_N (code c + 32)
  else c.

Fixpoint toLowerCase (s : string) : string :=
  match s with
  | EmptyString => EmptyString
  | String c s' => String (toLowerCase_char c) (toLowerCase s')
  end.

(** [s.includes(t)]: [t] occurs in [s] as a substring. *)
Fixpoint includes (s t : string) : bool :=
  String.prefix t s ||
  match s with
  | EmptyString => false
  | String _ s' => includes s' t
  end.

(** [s.split(c)] for a one-character separator. *)
Fixpoint split_char (sep : ascii) (s : string) : list string :=
  match s with
  | EmptyString => [EmptyString]
  | String c s' =>
      if Ascii.eqb c sep then EmptyString :: split_char sep s'
      else match split_char sep s' with
           | [] => [String c EmptyString]
           | w :: ws => String c w :: ws
           end
  end.

Fixpoint trimStart (s : string) : string :=
  match s with
  | String c s' => if isSpace c then trimStart s' else s
  | EmptyString => EmptyString
  end.

Fixpoint rev_string (acc s : string) : string :=
  match s with
  | EmptyString => acc
  | String c s' => rev_string (String c acc) s'
  end.

Definition trimEnd (s : string) : string :=
  rev_string EmptyString (trimStart (rev_string EmptyString s)).

Definition trim (s : string) : string := trimEnd (trimStart s).

(** *** Numerals *)

Definition digit_value (c : ascii) : option Z :=
  let n := code c in
  if (48 <=? n)%N && (n <=? 57)%N then Some (Z.of_N n - 48)
  else if (97 <=? n)%N && (n <=? 102)%N then Some (Z.of_N n - 87)
  else if (65 <=? n)%N && (n <=? 70)%N then Some (Z.of_N n - 55)
  else None.

(** Reads the longest run of digits of the given base at the head of [s],
    starting from the accumulated value [acc]; returns the value read, the
    number of digits and the rest of the string. *)
Fixpoint read_digits (base : Z) (acc : Z) (count : nat) (s : string)
  : Z * nat * string :=
  match s with
  | EmptyString => (acc, count, s)
  | String c s' =>
      match digit_value c with
      | Some d =>
          if d <? base then read_digits base (base * acc + d) (S count) s'
          else (acc, count, s)
      | None => (acc, count, s)
      end
  end.

(** An optional sign at the head of a numeral. *)
Definition read_sign (s : string) : bool * string :=
  match s with
  | String "-" s' => (true, s')
  | String "+" s' => (false, s')
  | _ => (false, s)
  end.

(** [parseFloat] on a string: leading white space is skipped and the
    longest prefix that is a decimal numeral is read; what follows is
    ignored. *)
Definition parseFloat_string (s : string) : number :=
  let '(neg, t) := read_sign (trimStart s) in
  if String.prefix "Infinity" t then Inf neg
  else
    let '(v, n, _) := read_digits 10 0 O t in
    match n with
    | O => NaN
    | S _ => Fin (if neg then - v else v)
    end.

(** The whole of [t] is a numeral of the given base. *)
Definition whole_numeral (base : Z) (t : string) : number :=
  let '(v, n, rest) := read_digits base 0 O t in
  match n, rest with
  | S _, EmptyString => Fin v
  | _, _ => NaN
  end.

(** [Number(s)] on a string: white space is trimmed at both ends, the
    empty string is 0, and the whole of what remains must be a numeral:
    signed decimal, signed [Infinity], or unsigned [0x], [0o], [0b]. *)
Definition Number_string (s : string) : number :=
  let t := trim s in
  match t with
  | EmptyString => Fin 0
  | String "0" (String "x" u) | String "0" (String "X" u) => whole_numeral 16 u
  | String "0" (String "o" u) | String "0" (String "O" u) => whole_numeral 8 u
  | String "0" (String "b" u) | String "0" (String "B" u) => whole_numeral 2 u
  | _ =>
      let '(neg, u) := read_sign t in
      if String.eqb u "Infinity" then Inf neg
      else match whole_numeral 10 u with
           | Fin v => Fin (if neg then - v else v)
           | n => n
           end
  end.

(** The value of a decimal numeral of the standard library read from the
    left, given what was read so far. *)
Fixpoint uint_value (acc : Z) (d : Decimal.uint) : Z :=
  match d with
  | Decimal.Nil => acc
  | Decimal.D0 d => uint_value (10 * acc + 0) d
  | Decimal.D1 d => uint_value (10 * acc + 1) d
  | Decimal.D2 d => uint_value (10 * acc + 2) d
  | Decimal.D3 d => uint_value (10 * acc + 3) d
  | Decimal.D4 d => uint_value (10 * acc + 4) d
  | Decimal.D5 d => uint_value (10 * acc + 5) d
  | Decimal.D6 d => uint_value (10 * acc + 6) d
  | Decimal.D7 d => uint_value (10 * acc + 7) d
  | Decimal.D8 d => uint_value (10 * acc + 8) d
  | Decimal.D9 d => uint_value (10 * acc + 9) d
  end.

(** *** Conversions between values *)

Definition Z_to_string (z : Z) : string :=
  NilZero.string_of_int (Z.to_int z).

Definition nat_to_string (n : nat) : string :=
  NilZero.string_of_uint (Nat.to_uint n).

Definition Number_toString (n : number) : string :=
  match n with
  | NaN => "NaN"
  | Fin z => Z_to_string z
  | Inf false => "Infinity"
  | Inf true => "-Infinity"
  end.

(** [String(v)]. *)
Definition ToString (v : value) : string :=
  match v with
  | VUndefined => "undefined"
  | VNull => "null"
  | VBool true => "true"
  | VBool false => "false"
  | VNum n => Number_toString n
  | VStr s => s
  end.

(** [v.toString()]: a [TypeError] on undefined and null. *)
Definition toString_method (v : value) : result string :=
  match v with
  | VUndefined => Throw (TypeError "Cannot read properties of undefined (reading 'toString')")
  | VNull => Throw (TypeError "Cannot read properties of null (reading 'toString')")
  | _ => Ret (ToString v)
  end.

(** [Number(v)]. *)
Definition ToNumber (v : value) : number :=
  match v with
  | VUndefined => NaN
  | VNull => Fin 0
  | VBool true => Fin 1
  | VBool false => Fin 0
  | VNum n => n
  | VStr s => Number_string s
  end.

(** Truthiness, as tested by [if (v)] and [v ? a : b]. *)
Definition truthy (v : value) : bool :=
  match v with
  | VUndefined | VNull => false
  | VBool b => b
  | VNum NaN => false
  | VNum (Fin z) => negb (z =? 0)
  | VNum (Inf _) => true
  | VStr s => negb (String.eqb s "")
  end.

Definition truthy_string (s : string) : bool := negb (String.eqb s "").

Definition parseFloat (v : value) : number := parseFloat_string (ToString v).

Definition isFinite (v : value) : bool := num_isFinite (ToNumber v).

(** [a < b]: two strings are compared by their characters' codes; in every
    other case both operands are converted to numbers. *)
Definition lt (a b : value) : bool :=
  match a, b with
  | VStr s, VStr t => String.ltb s t
  | _, _ => num_ltb (ToNumber a) (ToNumber b)
  end.

(** [a > b] is [b < a]. *)
Definition gt (a b : value) : bool := lt b a.

(** *** Arrays *)

(** [a[i]] on an array: undefined out of range. *)
Definition Array_get (a : list value) (i : nat) : value :=
  nth i a VUndefined.

(** What [a.splice(start, deleteCount)] leaves in [a]. *)
Definition splice {A} (a : list A) (start deleteCount : Z) : list A :=
  let len := Z.of_nat (List.length a) in
  let actualStart :=
    if start <? 0 then Z.max (len + start) 0 else Z.min start len in
  let actualDeleteCount := Z.min (Z.max deleteCount 0) (len - actualStart) in
  firstn (Z.to_nat actualStart) a
    ++ skipn (Z.to_nat (actualStart + actualDeleteCount)) a.

Section Sort.
Context {A : Type}.
(** The comparator, as a function to numbers. *)
Variable comparefn : A -> A -> number.

(** The comparator says that [x] must come after [y]: its result is
    positive (a NaN result counts as 0). *)
Definition after (x y : A) : bool := num_ltb (Fin 0) (comparefn x y).

Fixpoint sort_insert (x : A) (l : list A) : list A :=
  match l with
  | [] => [x]
  | y :: l' => if after x y then y :: sort_insert x l' else x :: l
  end.

(** [x] may stand before [y]. *)
Definition before (x y : A) : Prop := after x y = false.

(** Neither has to come after the other. *)
Definition tied (x y : A) : bool := negb (after x y) && negb (after y x).


(** [a.sort(comparefn)]: the sorted contents of [a]. *)
Fixpoint Array_sort (l : list A) : list A :=
  match l with
  | [] => []
  | x :: l' => sort_insert x (Array_sort l')
  end.
End Sort.

(** *** Maps

    A [Map] keeps its entries in insertion order; [set] on a key already
    present replaces the value where the entry stands. *)
Section Map.
Context {K V : Type}.
Variable eqb : K -> K -> bool.

Fixpoint Map_get (m : list (K * V)) (k : K) : option V :=
  match m with
  | [] => None
  | (k', v) :: m' => if eqb k' k then Some v else Map_get m' k
  end.

Fixpoint Map_set (m : list (K * V)) (k : K) (v : V) : list (K * V) :=
  match m with
  | [] => [(k, v)]
  | (k', v') :: m' =>
      if eqb k' k then (k', v) :: m' else (k', v') :: Map_set m' k v
  end.
End Map.

(** *** More arithmetic, for the workloads *)

Definition num_add (a b : number) : number :=
  match a, b with
  | NaN, _ | _, NaN => NaN
  | Fin x, Fin y => Fin (x + y)
  | Fin _, Inf s | Inf s, Fin _ => Inf s
  | Inf s, Inf t => if Bool.eqb s t then Inf s else NaN
  end.

(** [a % b]: the remainder has the sign of the dividend; it is NaN when
    the divisor is 0 or the dividend is not finite. *)
Definition num_rem (a b : number) : number :=
  match a, b with
  | Fin x, Fin y => if y =? 0 then NaN else Fin (Z.rem x y)
  | Fin x, Inf _ => Fin x
  | _, _ => NaN
  end.

(** [a / b] where the quotient is an integer or is not finite: the code
    below divides by [b] a multiple of [b] (lemma [rem_multiple]), so that
    no fraction arises. *)
Definition quotient (a b : number) : number :=
  match a, b with
  | NaN, _ | _, NaN => NaN
  | Fin x, Fin y =>
      if y =? 0 then (if x =? 0 then NaN else Inf (x <? 0))
      else Fin (Z.quot x y)
  | Fin x, Inf _ => Fin 0
  | Inf s, Fin y => Inf (xorb s (y <? 0))
  | Inf _, Inf _ => NaN
  end.

End JS.

(** ** Regular expressions

    The patterns of the code are sequences of quantified one-character
    atoms.  Matching is the backtracking, greedy matching of the host
    language: a quantified atom first tries one more repetition and falls
    back on what follows it in the pattern. *)

Module RegExp.
Import JS.

Inductive atom : Type :=
| Chr (c : ascii)      (* the character itself *)
| Digit                (* \d *)
| Space.               (* \s *)

(** [a{min,max}]; [max = None] is [a{min,}]. *)
Record piece : Type := Piece { p_atom : atom; p_min : nat; p_max : option nat }.

Definition regex := list piece.

(** Shorthands: [a], [a{n}], [a{m,n}], [a{m,}]. *)
Definition one (a : atom) : piece := Piece a 1 (Some 1%nat).
Definition exactly (n : nat) (a : atom) : piece := Piece a n (Some n).
Definition between (m n : nat) (a : atom) : piece := Piece a m (Some n).
Definition at_least (m : nat) (a : atom) : piece := Piece a m None.

Definition atom_matches (a : atom) (c : ascii) : bool :=
  match a with
  | Chr c' => Ascii.eqb c c'
  | Digit => isDigit c
  | Space => isSpace c
  end.

(** [repeat_atom k a fuel lo s]: the atom [a] is matched at the head of [s]
    at most [fuel] times and at least [lo] times, as many times as what
    follows the atom in the pattern, [k], allows; the result is what is
    left of [s] after the whole match. *)
Fixpoint repeat_atom (k : string -> option string) (a : atom)
  (fuel lo : nat) (s : string) : option string :=
  let stop := match lo with O => k s | S _ => None end in
  match fuel with
  | O => stop
  | S fuel' =>
      match s with
      | String c s' =>
          if atom_matches a c then
            match repeat_atom k a fuel' (Nat.pred lo) s' with
            | Some rest => Some rest
            | None => stop
            end
          else stop
      | EmptyString => stop
      end
  end.

(** [matchHere r s]: the pattern matches a prefix of [s]; the result is
    what is left of [s] after the match the engine finds first. *)
Fixpoint matchHere (r : regex) (s : string) : option string :=
  match r with
  | [] => Some s
  | p :: r' =>
      repeat_atom (matchHere r') (p_atom p)
        (match p_max p with Some h => h | None => String.length s end)
        (p_min p) s
  end.

(** The first [n] characters of [s]. *)
Definition take (n : nat) (s : string) : string := String.substring 0 n s.

(** [s.match(r)[0]] for a pattern without the global flag: the text of the
    leftmost match, or [None] when [match] returns null. *)
Fixpoint exec (r : regex) (s : string) : option string :=
  match matchHere r s with
  | Some rest => Some (take (String.length s - String.length rest) s)
  | None =>
      match s with
      | String _ s' => exec r s'
      | EmptyString => None
      end
  end.

(** [r.test(s)], and the truth value of [s.match(r)]. *)
Definition test (r : regex) (s : string) : bool :=
  match exec r s with Some _ => true | None => false end.

(** The loop of [s.split(r)]: [chunk] holds, reversed, the characters
    read since the last separator. *)
Fixpoint split_loop (fuel : nat) (r : regex) (chunk : string) (s : string)
  : list string :=
  match fuel with
  | O => [rev_string s chunk]
  | S fuel' =>
      match s with
      | EmptyString => [rev_string EmptyString chunk]
      | String c s' =>
          match matchHere r s with
          | Some rest =>
              if (String.length rest =? String.length s)%nat
                 && String.eqb chunk EmptyString
              then split_loop fuel' r (String c chunk) s'
              else rev_string EmptyString chunk
                     :: split_loop fuel' r EmptyString rest
          | None => split_loop fuel' r (String c chunk) s'
          end
      end
  end.

(** [s.split(r)]. *)
Definition split (r : regex) (s : string) : list string :=
  match s with
  | EmptyString =>
      match matchHere r s with Some _ => [] | None => [EmptyString] end
  | _ => split_loop (2 * String.length s + 1) r EmptyString s
  end.

(** The number of times the character [c] occurs in [s]. *)
Fixpoint count_char (c : ascii) (s : string) : nat :=
  match s with
  | EmptyString => O
  | String c' s' => (if Ascii.eqb c' c then 1 else 0) + count_char c s'
  end.

(** The number of times a match of [r] has to read the character [c]. *)
Fixpoint mandatory (c : ascii) (r : regex) : nat :=
  match r with
  | [] => O
  | p :: r' =>
      (match p_atom p with
       | Chr c' => if Ascii.eqb c' c then p_min p else O
       | _ => O
       end + mandatory c r')%nat
  end.

(** The loop of [s.replace(r, by)] for a pattern with the global flag and
    a replacement without [$]: every match, from the left, gives way to
    [by]; after an empty match the next character is kept. *)
Fixpoint replace_loop (fuel : nat) (r : regex) (by_ : string) (s : string)
  : string :=
  match fuel with
  | O => s
  | S fuel' =>
      let keep :=
        match s with
        | String c s' => String c (replace_loop fuel' r by_ s')
        | EmptyString => EmptyString
        end in
      match matchHere r s with
      | Some rest =>
          if (String.length rest =? String.length s)%nat
          then by_ ++ keep
          else by_ ++ replace_loop fuel' r by_ rest
      | None => keep
      end
  end.

(** [s.replace(r, by)], [r] with the global flag. *)
Definition replace (r : regex) (by_ : string) (s : string) : string :=
  replace_loop (S (String.length s)) r by_ s.

End RegExp.

(** ** utilities/date_utilities.js

    The two converters receive a value.  Their pattern tests read its
    string form, and the methods [match] and [split] are only reached
    after a test succeeded, which it does on the string form of no value
    but a string (lemma [non_string_no_date]).  The converters are
    therefore modelled on strings, and their callers hand them the string
    form of the value. *)

Module date_utilities.
Import JS RegExp.

(** [a[i]] inside a string concatenation: a missing element reads
    "undefined". *)
Definition part (a : list string) (i : nat) : string := nth i a "undefined".

(** [\d{4}-\d{1,2}-\d{1,2}T\d{1,2}:\d{1,2}:\d{1,2}] *)
Definition isoDateTimeFormatRegex : regex :=
  [exactly 4 Digit; one (Chr "-"); between 1 2 Digit; one (Chr "-");
   between 1 2 Digit; one (Chr "T"); between 1 2 Digit; one (Chr ":");
   between 1 2 Digit; one (Chr ":"); between 1 2 Digit].

(** [\d{4}-\d{1,2}-\d{1,2}] *)
Definition isoDateFormatRegex : regex :=
  [exactly 4 Digit; one (Chr "-"); between 1 2 Digit; one (Chr "-");
   between 1 2 Digit].

(** [\d{1,2}:\d{1,2}:\d{1,2}] *)
Definition timeRegex : regex :=
  [between 1 2 Digit; one (Chr ":"); between 1 2 Digit; one (Chr ":");
   between 1 2 Digit].

(** [convertIsoDateInEuDate(isoDateString, spaced, lineBreak)], on the
    string form of its first argument. *)
Definition convertIsoDateInEuDate
  (isoDateString : string) (spaced : string) (lineBreak : bool) : string :=
  let euDateConvertedString := "" in
  let euDateConvertedString :=
    if test isoDateFormatRegex isoDateString then
      let isoDate := exec isoDateFormatRegex isoDateString in
      let arrayIsoDate :=
        match isoDate with
        | Some m => if truthy_string m then split_char "-" m else ["-"; "-"; "-"]
        | None => ["-"; "-"; "-"]
        end in
      if String.eqb spaced "spaced" then
        euDateConvertedString ++ part arrayIsoDate 2 ++ " / "
          ++ part arrayIsoDate 1 ++ " / " ++ part arrayIsoDate 0
      else
        euDateConvertedString ++ part arrayIsoDate 2 ++ "/"
          ++ part arrayIsoDate 1 ++ "/" ++ part arrayIsoDate 0
    else euDateConvertedString in
  if test isoDateTimeFormatRegex isoDateString then
    let isoTime := exec timeRegex isoDateString in
    euDateConvertedString ++
      match isoTime with
      | Some m =>
          if truthy_string m
          then (if lineBreak then "<br />" else " ") ++ m
          else " -:-:-"
      | None => " -:-:-"
      end
  else euDateConvertedString.

(** [\d{1,2}\s{0,1}/\s{0,1}\d{1,2}\s{0,1}/\s{0,1}\d{4}s\d{1,2}:\d{1,2}:\d{1,2}]:
    the pattern is built from a string in which [\\d{4}s] holds a plain
    letter s. *)
Definition euDateTimeFormatRegex : regex :=
  [between 1 2 Digit; between 0 1 Space; one (Chr "/"); between 0 1 Space;
   between 1 2 Digit; between 0 1 Space; one (Chr "/"); between 0 1 Space;
   exactly 4 Digit; one (Chr "s"); between 1 2 Digit; one (Chr ":");
   between 1 2 Digit; one (Chr ":"); between 1 2 Digit].

(** [\d{1,2}\s{0,1}/\s{0,1}\d{1,2}\s{0,1}/\s{0,1}\d{4}] *)
Definition euDateFormatRegex : regex :=
  [between 1 2 Digit; between 0 1 Space; one (Chr "/"); between 0 1 Space;
   between 1 2 Digit; between 0 1 Space; one (Chr "/"); between 0 1 Space;
   exactly 4 Digit].

(** [/ {0,}\/ {0,}/] *)
Definition slashRegex : regex :=
  [at_least 0 (Chr " "); one (Chr "/"); at_least 0 (Chr " ")].

(** [convertEuDateInIsoDate(euDateString)]. *)
Definition convertEuDateInIsoDate (euDateString : string) : string :=
  let isoDateConvertedString := "" in
  let isoDateConvertedString :=
    if test euDateFormatRegex euDateString then
      match exec euDateFormatRegex euDateString with
      | Some extractedDate =>
          let arrayDate := split slashRegex extractedDate in
          part arrayDate 2 ++ "-" ++ part arrayDate 1 ++ "-" ++ part arrayDate 0
      | None => isoDateConvertedString
      end
    else isoDateConvertedString in
  if test euDateTimeFormatRegex euDateString then
    let extractedTime := exec timeRegex euDateString in
    isoDateConvertedString ++
      match extractedTime with
      | Some m => "T" ++ m
      | None => ""
      end
  else isoDateConvertedString.

(** [/0{1,}/gi] *)
Definition zerosRegex : regex := [at_least 1 (Chr "0")].

(** [/\//gi] *)
Definition everySlashRegex : regex := [one (Chr "/")].

(** The truth value of an argument that is an integer or is left
    undefined. *)
Definition truthy_number (x : option Z) : bool :=
  match x with
  | Some z => negb (z =? 0)
  | None => false
  end.

(** [x < 10 ? '0' + x.toString().replace(/0{1,}/gi, '') : x], where the
    result joins a string. *)
Definition zero_before (x : Z) : string :=
  if x <? 10 then "0" ++ replace zerosRegex "" (Z_to_string x)
  else Z_to_string x.

(** [getDateTimeInEuFormat(year, month, day, hours, minutes, seconds,
    spaced, lineBreak, showDate, showTime)], each number an integer or
    left undefined. *)
Definition getDateTimeInEuFormat
  (year month day hours minutes seconds : option Z)
  (spaced lineBreak showDate showTime : bool) : string :=
  let showDate := if showDate then showDate else true in
  let showTime := if showTime then showTime else false in
  let date := "" in
  let time := "" in
  let date :=
    if showDate then
      (match day with
       | Some d => if truthy_number day then zero_before d ++ "/" else ""
       | None => ""
       end)
      ++ (match month with
          | Some m => if truthy_number month then zero_before m ++ "/" else ""
          | None => ""
          end)
      ++ (match year with
          | Some y => if truthy_number year then Z_to_string y else ""
          | None => ""
          end)
    else date in
  let time :=
    if showTime then
      (match hours with
       | Some h => if h <? 10 then "0" ++ Z_to_string h else " " ++ Z_to_string h
       | None => ""
       end)
      ++ (match minutes with
          | Some m => if m <? 10 then ":0" ++ Z_to_string m else ":" ++ Z_to_string m
          | None => ""
          end)
      ++ (match seconds with
          | Some s => if s <? 10 then ":0" ++ Z_to_string s else ":" ++ Z_to_string s
          | None => ""
          end)
    else time in
  let dateTime :=
    date ++ (if lineBreak then "<br />" else "")
    ++ (if truthy_string date && truthy_string time then " " else "") ++ time in
  if spaced then replace everySlashRegex " / " dateTime else dateTime.

End date_utilities.

(** ** workload/workload.js: class Workload

    The methods that spread a workload over the business days of a month
    and over the months of a year, in the call with [unitary] omitted or
    true and a workload that is an integer; the other branch divides the
    workload into fractions, which the numbers of this model do not hold.
    The object is taken as the constructor leaves it: its two maps. *)

Module Workload.
Import JS.

Record t : Type := Workload_ {
  year : Z;
  businessDays : list Z;
  (* month -> [[week, length], ...] *)
  maps_months : list (Z * list (Z * Z));
  (* month -> [day, ...] *)
  maps_businessDaysPerMonth : list (Z * list Z)
}.

(** What a call gives: a result or an exception, or nothing when the
    loop has not ended within the turns allowed. *)
Definition outcome (A : Type) : Type := option (result A).

(** [getWeeks(month)]. *)
Definition getWeeks (this : t) (month : Z) : result (list Z) :=
  match Map_get Z.eqb (maps_months this) month with
  | Some weeks => Ret (map fst weeks)
  | None => Throw (TypeError "Cannot read properties of undefined (reading 'length')")
  end.

Section Spreading.
Context {K : Type}.

(** [workloads.forEach(w => { if (remainder > 0) { w[last] = w[last] + 1;
    remainder--; } })]: the entries with their new loads, and what is
    left of the remainder. *)
Fixpoint forEach_increment (workloads : list (K * number)) (remainder : number)
  : list (K * number) * number :=
  match workloads with
  | [] => ([], remainder)
  | (key, w) :: rest =>
      if num_ltb (Fin 0) remainder then
        let '(rest', remainder') :=
          forEach_increment rest (num_sub remainder (Fin 1)) in
        ((key, num_add w (Fin 1)) :: rest', remainder')
      else
        let '(rest', remainder') := forEach_increment rest remainder in
        ((key, w) :: rest', remainder')
  end.

(** [while (remainder > 0) { workloads.forEach(...) }], for at most
    [fuel] tests of the condition. *)
Fixpoint while_remainder (fuel : nat) (workloads : list (K * number))
  (remainder : number) : option (list (K * number)) :=
  match fuel with
  | O => None
  | S fuel' =>
      if num_ltb (Fin 0) remainder then
        let '(workloads', remainder') := forEach_increment workloads remainder in
        while_remainder fuel' workloads' remainder'
      else Some workloads
  end.
End Spreading.

(** [getDailyWorkload(month, workload)]: the pairs [[day, load]]. *)
Definition getDailyWorkload (fuel : nat) (this : t) (month : Z) (workload : Z)
  : outcome (list (Z * number)) :=
  match Map_get Z.eqb (maps_businessDaysPerMonth this) month with
  | None =>
      Some (Throw (TypeError "Cannot read properties of undefined (reading 'length')"))
  | Some businessDays =>
      let length_ := Fin (Z.of_nat (List.length businessDays)) in
      let remainder := num_rem (Fin workload) length_ in
      let dailyWorkload := quotient (num_sub (Fin workload) remainder) length_ in
      let dailyWorkloads := map (fun day => (day, dailyWorkload)) businessDays in
      option_map Ret (while_remainder fuel dailyWorkloads remainder)
  end.

(** The business days of the year, summed over the months of the map. *)
Definition yearlyBusinessDays (this : t) : Z :=
  fold_left (fun businessDaysAccumulator currentMonth =>
               businessDaysAccumulator + Z.of_nat (List.length (snd currentMonth)))
            (maps_businessDaysPerMonth this) 0.

(** [getMonthlyWorkload(workload)]: the triples [[month, business days,
    load]], the first two paired as the key.  The helper of the code also
    lowers its copies of the yearly workload and of the yearly business
    days at each month; nothing reads them afterwards, and the remainder
    and the workload per business day are computed before it runs. *)
Definition getMonthlyWorkload (fuel : nat) (this : t) (workload : Z)
  : outcome (list ((Z * Z) * number)) :=
  let yearlyBusinessDays := yearlyBusinessDays this in
  let remainder := num_rem (Fin workload) (Fin yearlyBusinessDays) in
  let workloadPerBusinessDay :=
    quotient (num_sub (Fin workload) remainder) (Fin yearlyBusinessDays) in
  let monthlyWorkloads :=
    map (fun month =>
           let monthlyBusinessDays := Z.of_nat (List.length (snd month)) in
           let monthlyWorkload :=
             num_mul (Fin monthlyBusinessDays) workloadPerBusinessDay in
           ((fst month, monthlyBusinessDays), monthlyWorkload))
        (maps_businessDaysPerMonth this) in
  option_map Ret (while_remainder fuel monthlyWorkloads remainder).

(** The sum of the loads that are numbers of the model. *)
Fixpoint total {K} (workloads : list (K * number)) : number :=
  match workloads with
  | [] => Fin 0
  | (_, w) :: rest => num_add w (total rest)
  end.

End Workload.

(** ** core/data_collection.js: class DataCollection *)

Module DataCollection.
Import JS RegExp.

(** One entry of the data model handed to the constructor; a property the
    object does not carry is [None]. *)
Record variable : Type := Variable_ {
  uid : option string;
  sourceField : option string;
  dataType : option string;
  defaultOrder : option string
}.

(** A record of the data set: its data points, by position. *)
Definition record := list value.

(** A raw record: the object whose properties are read by source field. *)
Definition rawRecord := list (string * value).

Definition StrMap (V : Type) := list (string * V).
Definition get {V} (m : StrMap V) (k : string) : option V := Map_get String.eqb m k.
Definition set {V} (m : StrMap V) (k : string) (v : V) : StrMap V :=
  Map_set String.eqb m k v.

(** [this.variables.maps]. *)
Record Maps : Type := Maps_ {
  maps_uids : StrMap string;
  maps_reverseUids : StrMap string;
  maps_index : StrMap nat;
  maps_reverseIndex : list (nat * string);
  maps_types : StrMap string;
  maps_sorting : StrMap string;
  maps_filtering : StrMap string;
  maps_defaultOrder : StrMap string
}.

(** [this.variables]: an object with the three properties [list], [size]
    and [maps]. *)
Record Variables : Type := Variables_ {
  variables_list : list variable;
  variables_size : nat;
  variables_maps : Maps
}.

Record t : Type := DataCollection_ {
  variables : Variables;
  dataSet : list record;
  temporaryDataSet : list record
}.

(** The names of the properties of [this.variables] and of the members of
    the class. *)
Definition Variables_members : list string := ["list"; "size"; "maps"].

Definition DataCollection_members : list string :=
  ["variables"; "dataSet"; "temporaryDataSet"; "euDateTimeRegExp";
   "_parseDataPoint"; "_parseRecords"; "_createDataSet";
   "_createVariablesMaps"; "buildDataCollection"; "getDataPoints";
   "loadDataSet"; "addRecords"; "addVariable"; "editDataPoints";
   "removeAllData"; "removeDataPoints"; "removeVariable"; "sortRecords";
   "filterRecords"].

(** Methods run on the object and may throw: a computation returns its
    outcome together with the object as it stands then. *)
Definition M (A : Type) : Type := t -> result A * t.

Definition ret {A} (a : A) : M A := fun this => (Ret a, this).
Definition throw {A} (e : exn) : M A := fun this => (Throw e, this).
Definition mbind {A B} (m : M A) (f : A -> M B) : M B :=
  fun this =>
    match m this with
    | (Ret a, this') => f a this'
    | (Throw e, this') => (Throw e, this')
    end.
Definition read {A} (f : t -> A) : M A := fun this => (Ret (f this), this).
Definition update (f : t -> t) : M unit := fun this => (Ret tt, f this).

Notation "x <- m ;; k" := (mbind m (fun x => k))
  (at level 61, m at next level, right associativity).
Notation "m ;; k" := (mbind m (fun _ => k))
  (at level 61, right associativity).

(** Calling [receiver.name(...)] where [name] has to be found among the
    members of the receiver: a [TypeError] when there is no such member.
    It is used below only for the two names the code calls without
    defining them. *)
Definition call_member (members : list string) (name : string) : M unit :=
  if existsb (String.eqb name) members then ret tt
  else throw (TypeError (name ++ " is not a function")).

Definition with_maps (f : Maps -> Maps) (this : t) : t :=
  DataCollection_
    (Variables_ (variables_list (variables this))
                (variables_size (variables this))
                (f (variables_maps (variables this))))
    (dataSet this) (temporaryDataSet this).

Definition with_dataSet (d : list record) (this : t) : t :=
  DataCollection_ (variables this) d (temporaryDataSet this).

Definition with_temporaryDataSet (d : list record) (this : t) : t :=
  DataCollection_ (variables this) (dataSet this) d.

Definition maps (this : t) : Maps := variables_maps (variables this).

Definition empty_maps : Maps := Maps_ [] [] [] [] [] [] [] [].

(** [constructor(dataModel)]; [None] is a missing (or null) data model. *)
Definition constructor (dataModel : option (list variable)) : result t :=
  match dataModel with
  | Some dataModel =>
      Ret (DataCollection_
             (Variables_ dataModel (List.length dataModel) empty_maps) [] [])
  | None => Throw (ThrownString "Data Collection Error: data model NOT found or invalid.")
  end.

(** [/\d{1,2}\/\d{1,2}\/\d{4}\s{0,1}:{0,1}\d{0,2}:{0,1}\d{0,2}:{0,1}\d{0,2}/] *)
Definition euDateTimeRegExp : regex :=
  [between 1 2 Digit; one (Chr "/"); between 1 2 Digit; one (Chr "/");
   exactly 4 Digit; between 0 1 Space;
   between 0 1 (Chr ":"); between 0 2 Digit;
   between 0 1 (Chr ":"); between 0 2 Digit;
   between 0 1 (Chr ":"); between 0 2 Digit].

(** *** Processing *)

(** [_parseDataPoint(dataPoint = '', variableType = 'text')]; an omitted
    type is [None]. *)
Definition _parseDataPoint (dataPoint : value) (variableType : option string)
  : value :=
  let dataPoint := match dataPoint with VUndefined => VStr "" | _ => dataPoint end in
  let variableType := match variableType with Some ty => ty | None => "text" end in
  let dataPoint :=
    match dataPoint with
    | VBool _ => VStr (ToString dataPoint)
    | _ => dataPoint
    end in
  if truthy dataPoint then
    if String.eqb variableType "eu_date" then
      if test euDateTimeRegExp (ToString dataPoint) then dataPoint
      else VStr (date_utilities.convertIsoDateInEuDate
                   (ToString dataPoint) "no-space" true)
    else dataPoint
  else
    if String.eqb variableType "number" then VNum (Fin 0)
    else if String.eqb variableType "boolean" then VStr "false"
    else VStr "-".

(** [dataPoint[variable]] on a raw record. *)
Definition property (dataPoint : rawRecord) (name : string) : value :=
  match Map_get String.eqb dataPoint name with
  | Some v => v
  | None => VUndefined
  end.

(** [_parseRecords(rawData)], reading [this]. *)
Definition _parseRecords (this : t) (rawData : option (list rawRecord))
  : list record :=
  match rawData with
  | Some ((_ :: _) as rawData) =>
      map (fun dataPoint =>
             map (fun '(variableUID, variable) =>
                    let variableType := get (maps_types (maps this)) variableUID in
                    _parseDataPoint (property dataPoint variable) variableType)
                 (maps_uids (maps this)))
          rawData
  | _ => []
  end.

(** [_createDataSet(rawData)]. *)
Definition _createDataSet (rawData : option (list rawRecord)) : M unit :=
  fun this =>
    let dataPoints :=
      match rawData with
      | Some (_ :: _) => _parseRecords this rawData
      | _ => []
      end in
    (Ret tt, with_temporaryDataSet dataPoints (with_dataSet dataPoints this)).

Definition truthy_property (p : option string) : bool :=
  match p with Some s => truthy_string s | None => false end.

(** [this.variables.list.includes(variableUID)]: the list holds the
    declarations, which are objects, and an object is never the same
    value as a string. *)
Definition sameValueZero_object_string (v : variable) (s : string) : bool := false.

Definition list_includes (l : list variable) (s : string) : bool :=
  existsb (fun v => sameValueZero_object_string v s) l.

(** The UID the loop of [_createVariablesMaps] gives the declaration at
    position [index]. *)
Definition variableUID_of (index : nat) (variable : variable) : string :=
  match uid variable with
  | Some u => if truthy_string u then u else "var_uid_" ++ nat_to_string index
  | None => "var_uid_" ++ nat_to_string index
  end.

Definition normalise_order (rawDefaultOrder : string) : string :=
  if truthy_string rawDefaultOrder
     && existsb (String.eqb rawDefaultOrder) ["asc"; "ascending"]
  then "asc"
  else if truthy_string rawDefaultOrder
          && existsb (String.eqb rawDefaultOrder) ["desc"; "descending"]
  then "desc"
  else "none".

(** The [set] calls of one turn of the loop of [_createVariablesMaps],
    for the declaration [variable] at position [index], once its UID and
    its source field are known. *)
Definition set_maps (index : nat) (variable : variable)
  (variableUID source : string) (m : Maps) : Maps :=
  let rawDefaultOrder :=
    if truthy_property (defaultOrder variable)
    then match defaultOrder variable with Some o => o | None => "none" end
    else "none" in
  Maps_
    (set (maps_uids m) variableUID source)
    (set (maps_reverseUids m) source variableUID)
    (set (maps_index m) variableUID index)
    (Map_set Nat.eqb (maps_reverseIndex m) index variableUID)
    (set (maps_types m) variableUID
       (if truthy_property (dataType variable)
        then match dataType variable with Some ty => ty | None => "text" end
        else "text"))
    (set (maps_sorting m) variableUID "none")
    (set (maps_filtering m) variableUID "")
    (set (maps_defaultOrder m) variableUID (normalise_order rawDefaultOrder)).

(** One turn of the loop of [_createVariablesMaps], for [i = index]. *)
Definition createVariablesMaps_body (index : nat) : M unit :=
  fun this =>
    match nth_error (variables_list (variables this)) index with
    | None => (Throw (TypeError "Cannot read properties of undefined (reading 'uid')"), this)
    | Some variable =>
        let variableUID := variableUID_of index variable in
        if list_includes (variables_list (variables this)) variableUID then
          (Throw (ThrownString ("Data Collection Error: " ++ variableUID
                    ++ " already exists. Please, provide another unique UID.")),
           this)
        else
          if truthy_property (sourceField variable) then
            match sourceField variable with
            | Some source =>
                (Ret tt, with_maps (set_maps index variable variableUID source) this)
            | None => (Ret tt, this)
            end
          else
            (Throw (ThrownString "Data Collection Error: one or more variable names and/or source fields are missing."),
             this)
    end.

(** [for (let i = start; i < start + count; i++) body(i)]. *)
Fixpoint for_loop (body : nat -> M unit) (start count : nat) : M unit :=
  match count with
  | O => ret tt
  | S count' => body start ;; for_loop body (S start) count'
  end.

(** [_createVariablesMaps()]. *)
Definition _createVariablesMaps : M unit :=
  fun this =>
    for_loop createVariablesMaps_body 0 (variables_size (variables this)) this.

(** *** Data manipulation methods *)

(** [buildDataCollection(rawData)]. *)
Definition buildDataCollection (rawData : option (list rawRecord)) : M unit :=
  _createVariablesMaps ;;
  _createDataSet rawData.

Definition nonempty {A} (a : option (list A)) : bool :=
  match a with Some (_ :: _) => true | _ => false end.

(** [loadDataSet(rawData)]. *)
Definition loadDataSet (rawData : option (list rawRecord)) : M unit :=
  call_member DataCollection_members "_resetData" ;;
  if nonempty rawData then buildDataCollection rawData else ret tt.

(** *** Sorting and filtering *)

(** [a[i]] where [i] is what [variableIndex] holds: an index, -1, or
    undefined ([None]). *)
Definition element (a : record) (i : option Z) : value :=
  match i with
  | Some i => if i <? 0 then VUndefined else Array_get a (Z.to_nat i)
  | None => VUndefined
  end.

(** [variableUID ? this.variables.maps.index.get(variableUID) : -1]. *)
Definition variableIndex_of (this : t) (variableUID : string) : option Z :=
  if truthy_string variableUID
  then option_map Z.of_nat (get (maps_index (maps this)) variableUID)
  else Some (-1).

(** [m.forEach((value, key) => ...)] where the callback updates a local
    variable of the enclosing method and may throw. *)
Fixpoint forEach {V S} (f : V -> string -> S -> result S)
  (m : StrMap V) (s : S) : result S :=
  match m with
  | [] => Ret s
  | (key, v) :: m' => bind (f v key s) (forEach f m')
  end.

(** [a.filter(callback)] with a callback that may throw. *)
Fixpoint Array_filter {A} (callback : A -> result bool) (a : list A)
  : result (list A) :=
  match a with
  | [] => Ret []
  | x :: a' =>
      bind (callback x) (fun keep =>
      bind (Array_filter callback a') (fun rest =>
      Ret (if keep then x :: rest else rest)))
  end.

(** The callback of [filterRecords], for one entry of the filtering map,
    on the contents of [filteredRecords]. *)
Definition filter_pass (this : t) (value_ : string) (variableUID : string)
  (filteredRecords : list record) : result (list record) :=
  let variableIndex := variableIndex_of this variableUID in
  let value_ := toLowerCase value_ in
  Array_filter
    (fun record =>
       bind (toString_method (element record variableIndex)) (fun s =>
       let dataPoint := toLowerCase s in
       Ret (includes dataPoint value_)))
    filteredRecords.

(** [filterRecords(records)], on the contents of the arrays. *)
Definition filterRecords (this : t) (records : list record)
  : result (list record) :=
  forEach (filter_pass this) (maps_filtering (maps this)) records.

Section Sorting.
(** [Date.parse]. *)
Variable Date_parse : string -> number.

(** The comparator given to [sort] for the column at [variableIndex]. *)
Definition compare (order : number) (variableIndex : option Z)
  (a b : record) : number :=
  let dataPointA := element a variableIndex in
  let dataPointB := element b variableIndex in
  let dataPointA :=
    match dataPointA with VUndefined | VNull => VStr "" | _ => dataPointA end in
  let dataPointB :=
    match dataPointB with VUndefined | VNull => VStr "" | _ => dataPointB end in
  let '(dataPointA, dataPointB) :=
    if test euDateTimeRegExp (ToString dataPointA)
       && test euDateTimeRegExp (ToString dataPointB)
    then
      (VNum (Date_parse (date_utilities.convertEuDateInIsoDate (ToString dataPointA))),
       VNum (Date_parse (date_utilities.convertEuDateInIsoDate (ToString dataPointB))))
    else (dataPointA, dataPointB) in
  if negb (num_isNaN (parseFloat dataPointA)) && isFinite dataPointA
     && negb (num_isNaN (parseFloat dataPointB)) && isFinite dataPointB
  then
    let dataPointA := parseFloat dataPointA in
    let dataPointB := parseFloat dataPointB in
    num_mul order (num_sub dataPointA dataPointB)
  else
    match dataPointA, dataPointB with
    | VUndefined, _ | _, VUndefined => Fin 0
    | _, _ =>
        if lt dataPointA dataPointB then num_mul order (Fin (-1))
        else if gt dataPointA dataPointB then num_mul order (Fin 1)
        else Fin 0
    end.

(** [ordering === 'desc' || ordering === 'descending' ? -1 : 1]. *)
Definition order_of (ordering : string) : number :=
  if String.eqb ordering "desc" || String.eqb ordering "descending"
  then Fin (-1) else Fin 1.

(** The callback of [sortRecords], for one entry of the sorting map, on
    the contents of [sortedRecords]. *)
Definition sort_pass (this : t) (ordering : string) (variableUID : string)
  (sortedRecords : list record) : result (list record) :=
  if negb (String.eqb ordering "none") then
    let variableIndex := variableIndex_of this variableUID in
    let order := order_of ordering in
    if truthy_string variableUID
       && match variableIndex with Some i => -1 <? i | None => false end
    then Ret (Array_sort (compare order variableIndex) sortedRecords)
    else Throw (ErrorObject "Error: variable NOT found.")
  else Ret sortedRecords.

(** [sortRecords(records)], on the contents of the arrays. *)
Definition sortRecords (this : t) (records : list record)
  : result (list record) :=
  forEach (sort_pass this) (maps_sorting (maps this)) records.

(** [removeDataPoints(firstRecordIndex, lastRecordIndex)]: the call
    without the third argument, [variableUIDs], so that the loop the
    code guards by [variableUIDs && variableUIDs.length > 0] is not
    entered.  [None] is an omitted [lastRecordIndex]. *)
Definition removeDataPoints (firstRecordIndex : Z) (lastRecordIndex : option Z)
  : M unit :=
  length_ <- read (fun this => Z.of_nat (List.length (dataSet this))) ;;
  let lastRecordIndex :=
    match lastRecordIndex with
    | Some l => if truthy (VNum (Fin l)) then l else length_ - 1
    | None => length_ - 1
    end in
  let deleteCount := lastRecordIndex - firstRecordIndex in
  update (fun this =>
            with_dataSet (splice (dataSet this) firstRecordIndex deleteCount) this) ;;
  sorted <- (fun this => (sortRecords this (dataSet this), this)) ;;
  update (with_temporaryDataSet sorted) ;;
  filtered <- (fun this => (filterRecords this (temporaryDataSet this), this)) ;;
  update (with_temporaryDataSet filtered).
End Sorting.

(** [for (let i = 0; i < a.length; i++) { a.splice(index, 1); }], from
    [i] on; the loop ends within [length a] turns. *)
Fixpoint splice_loop {A} (fuel : nat) (i : nat) (index : Z) (a : list A)
  : list A :=
  match fuel with
  | O => a
  | S fuel' =>
      if (i <? List.length a)%nat
      then splice_loop fuel' (S i) index (splice a index 1)
      else a
  end.

(** [removeVariable(variableUID)].  An index that is undefined is read as
    0 by [splice]. *)
Definition removeVariable (variableUID : string) : M unit :=
  index <- read (fun this => get (maps_index (maps this)) variableUID) ;;
  let index := match index with Some i => Z.of_nat i | None => 0 end in
  call_member Variables_members "splice" ;;
  update (fun this =>
            with_dataSet
              (splice_loop (List.length (dataSet this)) 0 index (dataSet this))
              this) ;;
  update (fun this =>
            with_temporaryDataSet
              (splice_loop (List.length (temporaryDataSet this)) 0 index
                 (temporaryDataSet this))
              this).

(** *** Reading, adding and clearing records *)

(** The argument [variableUIDs] of [getDataPoints]: a string or an array
    of strings. *)
Inductive uids : Type :=
| One (variableUID : string)
| Many (variableUIDs : list string).

(** [if (variableUIDs)]: an omitted argument and the empty string are
    falsy, an array is truthy also when it is empty. *)
Definition truthy_uids (variableUIDs : option uids) : bool :=
  match variableUIDs with
  | Some (One s) => truthy_string s
  | Some (Many _) => true
  | None => false
  end.

(** [typeof variableUIDs === 'string' ? [variableUIDs] : variableUIDs]. *)
Definition as_array (variableUIDs : uids) : list string :=
  match variableUIDs with
  | One s => [s]
  | Many l => l
  end.

(** [targetData[a]]: undefined, here [None], out of range. *)
Definition row_at (targetData : list record) (a : Z) : option record :=
  if a <? 0 then None else nth_error targetData (Z.to_nat a).

(** The loop [for (const variableUID of variableUIDs)] of
    [getDataPoints], on the row [targetData[a]]: reading a cell of a row
    that is undefined is a [TypeError]. *)
Fixpoint variablesData_of (this : t) (row : option record)
  (variableUIDs : list string) : result record :=
  match variableUIDs with
  | [] => Ret []
  | variableUID :: rest =>
      let index := get (maps_index (maps this)) variableUID in
      match row with
      | None => Throw (TypeError "Cannot read properties of undefined")
      | Some r =>
          bind (variablesData_of this row rest) (fun variablesData =>
          Ret (element r (option_map Z.of_nat index) :: variablesData))
      end
  end.

(** What one turn of the loop of [getDataPoints] pushes to [records]. *)
Definition pushed_at (this : t) (targetData : list record)
  (variableUIDs : option uids) (a : Z) : result (option record) :=
  match variableUIDs with
  | Some u =>
      if truthy_uids variableUIDs
      then bind (variablesData_of this (row_at targetData a) (as_array u))
                (fun variablesData => Ret (Some variablesData))
      else Ret (row_at targetData a)
  | None => Ret (row_at targetData a)
  end.

(** [for (let a = ...; a <= lastRecordIndex; a++)], from [a] on. *)
Fixpoint getDataPoints_loop (this : t) (targetData : list record)
  (variableUIDs : option uids) (lastRecordIndex : Z) (fuel : nat) (a : Z)
  : result (list (option record)) :=
  match fuel with
  | O => Ret []
  | S fuel' =>
      if a <=? lastRecordIndex then
        bind (pushed_at this targetData variableUIDs a) (fun r =>
        bind (getDataPoints_loop this targetData variableUIDs lastRecordIndex
                fuel' (a + 1)) (fun records =>
        Ret (r :: records)))
      else Ret []
  end.

(** [getDataPoints(type, firstRecordIndex, lastRecordIndex, variableUIDs)];
    an argument that is omitted (or, for the indices, null) is [None].  An
    element of the result is a record, or [None] where the code pushes
    undefined. *)
Definition getDataPoints (this : t) (type : option string)
  (firstRecordIndex lastRecordIndex : option Z) (variableUIDs : option uids)
  : result (list (option record)) :=
  let type :=
    match type with
    | Some ty => if truthy_string ty then ty else "initial"
    | None => "initial"
    end in
  let targetData :=
    if String.eqb type "initial" then dataSet this
    else if String.eqb type "temporary" then temporaryDataSet this
    else [] in
  let firstRecordIndex :=
    match firstRecordIndex with Some f => f | None => 0 end in
  let lastRecordIndex :=
    match lastRecordIndex with
    | Some l => l
    | None => Z.of_nat (List.length targetData) - 1
    end in
  getDataPoints_loop this targetData variableUIDs lastRecordIndex
    (Z.to_nat (lastRecordIndex - firstRecordIndex + 1)) firstRecordIndex.

(** [addRecords(rawData)]: [push] adds to the array [this.dataSet] refers
    to; [this.temporaryDataSet] is another array. *)
Definition addRecords (rawData : option (list rawRecord)) : M unit :=
  if nonempty rawData then
    data <- read (fun this => _parseRecords this rawData) ;;
    update (fun this => with_dataSet (dataSet this ++ data) this)
  else ret tt.

(** [removeAllData(dataSet = true, variables = true)]: an omitted argument
    is [VUndefined], which the default replaces. *)
Definition removeAllData (dataSet_ variables_ : value) : M unit :=
  let dataSet_ := match dataSet_ with VUndefined => VBool true | _ => dataSet_ end in
  let variables_ := match variables_ with VUndefined => VBool true | _ => variables_ end in
  (if truthy dataSet_
   then update (fun this => with_temporaryDataSet [] (with_dataSet [] this))
   else ret tt) ;;
  (if truthy variables_
   then update (with_maps (fun _ => empty_maps))
   else ret tt).

End DataCollection.

(** ** Arrays as references

    [sortRecords] and [filterRecords] receive an array and return an array.
    Here the arrays of records live in a store and are passed by address,
    so that copying, sorting in place and building a new array are told
    apart. *)

Module Refs.
Import JS DataCollection.

(** The arrays allocated so far; an address is a position in the list. *)
Definition heap := list (list record).
Definition addr := nat.

Definition H (A : Type) : Type := heap -> result A * heap.

(** A new array with the given contents. *)
Definition alloc (a : list record) (h : heap) : addr * heap :=
  (List.length h, (h ++ [a])%list).

Definition deref (h : heap) (p : addr) : list record := nth p h [].

(** The array at [p] gets new contents, in place. *)
Definition assign (p : addr) (a : list record) (h : heap) : heap :=
  if (p <? List.length h)%nat
  then (firstn p h ++ a :: skipn (S p) h)%list
  else h.

(** [m.forEach((value, key) => ...)], the callback acting on the store and
    on a local variable of the enclosing method. *)
Fixpoint forEach {V S} (f : V -> string -> S -> H S) (m : StrMap V) (s : S)
  : H S :=
  fun h =>
    match m with
    | [] => (Ret s, h)
    | (key, v) :: m' =>
        match f v key s h with
        | (Ret s', h') => forEach f m' s' h'
        | (Throw e, h') => (Throw e, h')
        end
    end.

Section Sorting.
Variable Date_parse : string -> number.

(** [sortRecords(records)]: [Object.assign([], records)] is a new array
    with the records of [records]; [sort] rearranges it in place. *)
Definition sortRecords (this : t) (records : addr) : H addr :=
  fun h =>
    let '(sortedRecords, h) := alloc (deref h records) h in
    forEach
      (fun ordering variableUID sortedRecords h =>
         match sort_pass Date_parse this ordering variableUID
                 (deref h sortedRecords) with
         | Ret sorted => (Ret sortedRecords, assign sortedRecords sorted h)
         | Throw e => (Throw e, h)
         end)
      (maps_sorting (maps this)) sortedRecords h.
End Sorting.

(** [filterRecords(records)]: [filter] builds a new array at each turn,
    and [filteredRecords] is made to refer to it. *)
Definition filterRecords (this : t) (records : addr) : H addr :=
  fun h =>
    let '(filteredRecords, h) := alloc (deref h records) h in
    forEach
      (fun value_ variableUID filteredRecords h =>
         match filter_pass this value_ variableUID
                 (deref h filteredRecords) with
         | Ret kept => let '(p, h') := alloc kept h in (Ret p, h')
         | Throw e => (Throw e, h)
         end)
      (maps_filtering (maps this)) filteredRecords h.

End Refs.

(** ** The state of the columns, as the table sets it

    [this.data.variables.maps.sorting.set(column, order)] and
    [this.data.variables.maps.filtering.set(column, value)] in
    [widgets/table.js]. *)

Module Table.
Import JS DataCollection.

Definition sorting_set (variableUID order : string) (data : t) : t :=
  with_maps (fun m =>
    Maps_ (maps_uids m) (maps_reverseUids m) (maps_index m)
          (maps_reverseIndex m) (maps_types m)
          (set (maps_sorting m) variableUID order)
          (maps_filtering m) (maps_defaultOrder m)) data.


Section Refreshing.
Variable Date_parse : string -> number.

(** [this.data.variables.maps.defaultOrder.forEach((defaultOrder,
    columnUID) => this.data.variables.maps.sorting.set(columnUID,
    defaultOrder))]. *)
Definition sorting_by_default (data : t) : t :=
  fold_left (fun data '(columnUID, defaultOrder) =>
               sorting_set columnUID defaultOrder data)
            (maps_defaultOrder (maps data)) data.

(** What [_createTableStructure(data)] does to the collection
    [this.data]: the sort states are set to the default orders, and the
    sorted records become the temporary data set.  The elements of the
    page it builds in between are not modelled. *)
Definition _createTableStructure (data : list record) : M unit :=
  update sorting_by_default ;;
  data <- (fun this => (sortRecords Date_parse this data, this)) ;;
  update (with_temporaryDataSet data).


Definition clear_filtering_and_sorting (m : Maps) : Maps :=
  Maps_ (maps_uids m) (maps_reverseUids m) (maps_index m) (maps_reverseIndex m)
        (maps_types m) [] [] (maps_defaultOrder m).

(** [resetTable()], on the collection. *)
Definition resetTable : M unit :=
  update (with_temporaryDataSet []) ;;
  update (with_maps clear_filtering_and_sorting) ;;
  dataSet_ <- read dataSet ;;
  _createTableStructure dataSet_.

(** [refreshTable()], on the collection. *)
Definition refreshTable : M unit :=
  refreshedData <- read dataSet ;;
  refreshedData <- (fun this => (sortRecords Date_parse this refreshedData, this)) ;;
  refreshedData <- (fun this => (filterRecords this refreshedData, this)) ;;
  update (with_temporaryDataSet refreshedData).
End Refreshing.


End Table.

(** ** An instance of [Date.parse]

    Reads "YYYY-MM-DD" as midnight UTC of that day, in milliseconds since
    the epoch, and gives NaN on every other string.  It is the part of
    [Date.parse] every engine agrees on, and serves to run the code on
    dates. *)

Module Dates.
Import JS.

Definition days_from_civil (y m d : Z) : Z :=
  let y := if m <=? 2 then y - 1 else y in
  let era := y / 400 in
  let yoe := y - era * 400 in
  let doy := (153 * (if 2 <? m then m - 3 else m + 9) + 2) / 5 + d - 1 in
  let doe := yoe * 365 + yoe / 4 - yoe / 100 + doy in
  era * 146097 + doe - 719468.

Definition two (a b : ascii) : option Z :=
  if isDigit a && isDigit b
  then Some (10 * (Z.of_N (code a) - 48) + (Z.of_N (code b) - 48))
  else None.

Definition Date_parse_utc (s : string) : number :=
  match s with
  | String y1 (String y2 (String y3 (String y4 (String "-"
      (String m1 (String m2 (String "-" (String d1 (String d2 EmptyString))))))))) =>
      match two y1 y2, two y3 y4, two m1 m2, two d1 d2 with
      | Some yh, Some yl, Some m, Some d =>
          if (1 <=? m) && (m <=? 12) && (1 <=? d) && (d <=? 31)
          then Fin (days_from_civil (100 * yh + yl) m d * 86400000)
          else NaN
      | _, _, _, _ => NaN
      end
  | _ => NaN
  end.

End Dates.

(** ** The [Date] object of the language

    The time value of a date and the fields read from it, as the
    language's standard defines them, in days and milliseconds since the
    epoch.  Local time is taken with a fixed offset, at zero: the fields
    the code reads ([getDate], [getMonth], [getDay], [getFullYear]) are
    those of the local time the date was built from, whatever the offset,
    as long as no change of offset falls on the instants involved. *)

Module DateObject.
Import JS.

Definition msPerDay : Z := 86400000.

Definition Day (t : Z) : Z := t / msPerDay.

Definition DaysInYear (y : Z) : Z :=
  if negb (y mod 4 =? 0) then 365
  else if negb (y mod 100 =? 0) then 366
  else if negb (y mod 400 =? 0) then 365
  else 366.

Definition DayFromYear (y : Z) : Z :=
  365 * (y - 1970) + (y - 1969) / 4 - (y - 1901) / 100 + (y - 1601) / 400.

(** The largest year that starts on the day or before it: the mean length
    of a year places it within one year. *)
Definition YearFromDay (day : Z) : Z :=
  let y := 1970 + (400 * day) / 146097 in
  if day <? DayFromYear y then y - 1
  else if DayFromYear (y + 1) <=? day then y + 1
  else y.

Definition YearFromTime (t : Z) : Z := YearFromDay (Day t).

Definition InLeapYear (t : Z) : Z :=
  if DaysInYear (YearFromTime t) =? 365 then 0 else 1.

Definition DayWithinYear (t : Z) : Z := Day t - DayFromYear (YearFromTime t).

Definition MonthFromTime (t : Z) : Z :=
  let d := DayWithinYear t in
  let l := InLeapYear t in
  if d <? 31 then 0
  else if d <? 59 + l then 1
  else if d <? 90 + l then 2
  else if d <? 120 + l then 3
  else if d <? 151 + l then 4
  else if d <? 181 + l then 5
  else if d <? 212 + l then 6
  else if d <? 243 + l then 7
  else if d <? 273 + l then 8
  else if d <? 304 + l then 9
  else if d <? 334 + l then 10
  else 11.

Definition DateFromTime (t : Z) : Z :=
  let d := DayWithinYear t in
  let l := InLeapYear t in
  match MonthFromTime t with
  | 0 => d + 1
  | 1 => d - 30
  | 2 => d - 58 - l
  | 3 => d - 89 - l
  | 4 => d - 119 - l
  | 5 => d - 150 - l
  | 6 => d - 180 - l
  | 7 => d - 211 - l
  | 8 => d - 242 - l
  | 9 => d - 272 - l
  | 10 => d - 303 - l
  | _ => d - 333 - l
  end.

Definition WeekDay (t : Z) : Z := (Day t + 4) mod 7.

Definition MakeTime (hour min sec ms : Z) : Z :=
  hour * 3600000 + min * 60000 + sec * 1000 + ms.

(** The day number of the first day of month [mn] of year [ym], plus
    [date - 1]; a month outside 0..11 moves the year. *)
Definition MakeDay (year month date : Z) : Z :=
  let ym := year + month / 12 in
  let mn := month mod 12 in
  let l := if DaysInYear ym =? 365 then 0 else 1 in
  let first :=
    DayFromYear ym
    + match mn with
      | 0 => 0
      | 1 => 31
      | 2 => 59 + l
      | 3 => 90 + l
      | 4 => 120 + l
      | 5 => 151 + l
      | 6 => 181 + l
      | 7 => 212 + l
      | 8 => 243 + l
      | 9 => 273 + l
      | 10 => 304 + l
      | _ => 334 + l
      end in
  first + date - 1.

Definition MakeDate (day time : Z) : Z := day * msPerDay + time.

Definition TimeClip (time : Z) : option Z :=
  if Z.abs time <=? 8640000000000000 then Some time else None.

(** A date: its time value, or none for an invalid date. *)
Definition t : Type := option Z.

(** [new Date(year, month, date, hours, minutes, seconds)] on integers; a
    year from 0 to 99 stands for 1900 to 1999. *)
Definition new_Date (year month date hours minutes seconds : Z) : t :=
  let yr := if (0 <=? year) && (year <=? 99) then 1900 + year else year in
  TimeClip (MakeDate (MakeDay yr month date) (MakeTime hours minutes seconds 0)).

Definition getDate (d : t) : number :=
  match d with Some tv => Fin (DateFromTime tv) | None => NaN end.

Definition getMonth (d : t) : number :=
  match d with Some tv => Fin (MonthFromTime tv) | None => NaN end.

Definition getDay (d : t) : number :=
  match d with Some tv => Fin (WeekDay tv) | None => NaN end.

Definition getFullYear (d : t) : number :=
  match d with Some tv => Fin (YearFromTime tv) | None => NaN end.

End DateObject.

(** ** utilities/date_utilities.js: months and business days *)

Module Calendar.
Import JS DateObject.

(** [array.includes(n)] on an array of integers. *)
Definition includes (array : list Z) (n : number) : bool :=
  match n with
  | Fin z => existsb (Z.eqb z) array
  | _ => false
  end.

(** [n == month] for a number and an integer. *)
Definition num_eqb (n : number) (z : Z) : bool :=
  match n with
  | Fin x => x =? z
  | _ => false
  end.

(** [getEndOfMonth(year, month)]: the loop over [i] from 28 to 31. *)
Definition getEndOfMonth (year month : Z) : Z :=
  fold_left (fun lastDay i =>
               if num_eqb (getMonth (new_Date year month i 0 0 0)) month
               then i else lastDay)
            [28; 29; 30; 31] 0.

(** [getDaysInMonth(year, month)]. *)
Definition getDaysInMonth (year month : Z) : number :=
  num_sub (Fin 32) (getDate (new_Date year month 32 0 0 0)).

(** [isBusinessDay(year, month, day, businessDays, holydays)]; an argument
    left undefined takes its default. *)
Definition isBusinessDay (year month day : Z)
  (businessDays holydays : option (list Z)) : bool :=
  let businessDays :=
    match businessDays with Some l => l | None => [1; 2; 3; 4; 5] end in
  let holydays := match holydays with Some l => l | None => [] end in
  let date := new_Date year month day 0 0 0 in
  if (0 <? List.length holydays)%nat && includes holydays (getDate date)
  then false
  else if (0 <? List.length businessDays)%nat
          && includes businessDays (getDay date)
  then true
  else false.

(** The values of [day] in [for (let day = 1; day <= days; day++)]: none
    when [days] is NaN. *)
Definition days_up_to (days : number) : list Z :=
  match days with
  | Fin n => map Z.of_nat (seq 1 (Z.to_nat n))
  | _ => []
  end.

(** [getBusinessDays(year, month, businessDays, holidays)]. *)
Definition getBusinessDays (year month : Z)
  (businessDays holidays : option (list Z)) : list Z :=
  let days := getDaysInMonth year month in
  filter (fun day => isBusinessDay year month day businessDays holidays)
         (days_up_to days).

(** *** class DateRange *)

Record DateRange : Type := DateRange_ {
  day : option Z;
  month : option Z;
  year : option Z;
  hours : option Z;
  minutes : option Z;
  seconds : option Z
}.

(** [x ? x : undefined] on an argument that is an integer or is left
    undefined. *)
Definition truthy_or_undefined (x : option Z) : option Z :=
  match x with
  | Some z => if z =? 0 then None else Some z
  | None => None
  end.

Definition constructor (year month day hours minutes seconds : option Z)
  : DateRange :=
  {| day := truthy_or_undefined day;
     month := truthy_or_undefined month;
     year := truthy_or_undefined year;
     hours := truthy_or_undefined hours;
     minutes := truthy_or_undefined minutes;
     seconds := truthy_or_undefined seconds |}.

(** [x ? x : d] on a field. *)
Definition truthy_or (x : option Z) (d : Z) : Z :=
  match x with
  | Some z => if z =? 0 then d else z
  | None => d
  end.

(** [x || x === 0 ? x : d] on a field. *)
Definition present_or (x : option Z) (d : Z) : Z :=
  match x with
  | Some z => z
  | None => d
  end.

Definition truthy_field (x : option Z) : bool :=
  match x with
  | Some z => negb (z =? 0)
  | None => false
  end.

(** What [calcStartEndDates] returns at each of the two places: a date, or
    the empty string when the range has no year. *)
Inductive date_or_empty : Type :=
| Empty
| ADate (d : DateObject.t).

(** [calcStartEndDates()]; [today_year] is [new Date().getFullYear()]. *)
Definition calcStartEndDates (today_year : Z) (this : DateRange)
  : date_or_empty * date_or_empty :=
  let startYear := truthy_or (year this) today_year in
  let startMonth := truthy_or (month this) 0 in
  let startDay := truthy_or (day this) 1 in
  let startHours := present_or (hours this) 0 in
  let startMinutes := present_or (minutes this) 0 in
  let startSeconds := present_or (seconds this) 0 in
  let startDate :=
    if truthy_field (year this)
    then ADate (new_Date startYear startMonth startDay
                         startHours startMinutes startSeconds)
    else Empty in
  let endYear := truthy_or (year this) today_year in
  let endMonth := truthy_or (month this) 11 in
  let endDay := truthy_or (day this) (getEndOfMonth endYear endMonth) in
  let endHours := present_or (hours this) 23 in
  let endMinutes := present_or (minutes this) 59 in
  let endSeconds := present_or (seconds this) 59 in
  let endDate :=
    if truthy_field (year this)
    then ADate (new_Date endYear endMonth endDay endHours endMinutes endSeconds)
    else Empty in
  (startDate, endDate).

Definition getStartDate (today_year : Z) (this : DateRange) : date_or_empty :=
  fst (calcStartEndDates today_year this).

Definition getEndDate (today_year : Z) (this : DateRange) : date_or_empty :=
  snd (calcStartEndDates today_year this).

End Calendar.

(** ** Notions used to state the properties *)

Module Query.
Import JS RegExp DataCollection.


(** The registry lists its columns by ordinal: every key of the sorting
    map is a usable UID, and the key at position [i] has index [i]. *)
Definition registered (this : t) : Prop :=
  Forall (fun e => truthy_string (fst e) = true) (maps_sorting (maps this))
  /\ map (fun e => get (maps_index (maps this)) (fst e)) (maps_sorting (maps this))
     = map Some (seq 0 (List.length (maps_sorting (maps this)))).

Definition nullish (v : value) : bool :=
  match v with VUndefined | VNull => true | _ => false end.

(** Every record holds a data point (neither undefined nor null) in each
    column of the filtering map. *)
Definition defined_at (this : t) (records : list record) : Prop :=
  forall record variableUID value_,
    In record records ->
    In (variableUID, value_) (maps_filtering (maps this)) ->
    nullish (element record (variableIndex_of this variableUID)) = false.

(** The data point of [record] in the column [variableUID], stringified
    and lower-cased. *)
Definition cell_text (this : t) (variableUID : string) (record : record) : string :=
  toLowerCase (ToString (element record (variableIndex_of this variableUID))).

(** [record] passes the filter of every column. *)
Definition passes (this : t) (record : record) : bool :=
  forallb (fun '(variableUID, value_) =>
             includes (cell_text this variableUID record) (toLowerCase value_))
          (maps_filtering (maps this)).

(** [t] occurs in [s]. *)
Definition substring_of (t s : string) : Prop :=
  exists before_ after_, s = before_ ++ t ++ after_.

(** Every column of the filtering map is a column of the records the
    registry parses: its UID is usable and its index is below the number
    of columns. *)
Definition filterable (this : t) : Prop :=
  forall variableUID value_,
    In (variableUID, value_) (maps_filtering (maps this)) ->
    truthy_string variableUID = true
    /\ exists k, get (maps_index (maps this)) variableUID = Some k
                 /\ (k < List.length (maps_uids (maps this)))%nat.

(** An entry of the sorting map the code can sort by. *)
Definition usable (this : t) (e : string * string) : Prop :=
  truthy_string (fst e) = true
  /\ exists k, get (maps_index (maps this)) (fst e) = Some k.

(** *** The comparator, as the specification words it *)


Definition matches_euDate (v : value) : bool :=
  test euDateTimeRegExp (ToString v).

Definition parses_as_finite_number (v : value) : bool :=
  negb (num_isNaN (parseFloat v)) && isFinite v.


Section Comparator.
Variable Date_parse : string -> number.



End Comparator.

(** *** The default of [_parseDataPoint] for a type *)

Definition stringified (raw : value) : value :=
  match raw with
  | VBool true => VStr "true"
  | VBool false => VStr "false"
  | _ => raw
  end.

Definition default_of (variableType : option string) : value :=
  match variableType with
  | Some ty =>
      if String.eqb ty "number" then VNum (Fin 0)
      else if String.eqb ty "boolean" then VStr "false"
      else VStr "-"
  | None => VStr "-"
  end.

(** *** Dates as strings *)

Fixpoint all_digits (s : string) : bool :=
  match s with
  | EmptyString => true
  | String c s' => isDigit c && all_digits s'
  end.

(** [s] is made of [n] digits. *)
Definition digits (n : nat) (s : string) : bool :=
  (String.length s =? n)%nat && all_digits s.

(** [s] is made of one or two digits. *)
Definition digits_1_2 (s : string) : bool := digits 1 s || digits 2 s.

(** *** Registries *)

(** The UIDs the registry gives the declarations of a data model. *)
Fixpoint uids_from (index : nat) (dataModel : list variable) : list string :=
  match dataModel with
  | [] => []
  | variable :: rest => variableUID_of index variable :: uids_from (S index) rest
  end.

Definition source_of (variable : variable) : string :=
  match sourceField variable with Some s => s | None => "" end.

(** The maps after the turns of the loop of [_createVariablesMaps] for the
    declarations [dataModel], which stand at the positions from [index]
    on. *)
Fixpoint register (index : nat) (dataModel : list variable) (m : Maps) : Maps :=
  match dataModel with
  | [] => m
  | variable :: rest =>
      register (S index) rest
        (set_maps index variable (variableUID_of index variable)
           (source_of variable) m)
  end.

(** Two declarations of the data model, at different positions, give the
    same source field. *)
Definition duplicate_sourceField (dataModel : list variable) : Prop :=
  exists i j v w,
    i <> j /\ nth_error dataModel i = Some v /\ nth_error dataModel j = Some w
    /\ sourceField v = sourceField w.

(** A new collection over a data model. *)
Definition new (dataModel : list variable) : t :=
  DataCollection_ (Variables_ dataModel (List.length dataModel) empty_maps) [] [].

(** A declaration that gives only its source field. *)
Definition field (source : string) : variable :=
  Variable_ None (Some source) None None.

Definition typed_field (source ty : string) : variable :=
  Variable_ None (Some source) (Some ty) None.

Definition num (z : Z) : value := VNum (Fin z).

(** *** Rebuilding a registry *)

(** The entries of a list set one after the other in a map. *)
Definition set_all {K V} (eqb : K -> K -> bool) (entries : list (K * V))
  (m : list (K * V)) : list (K * V) :=
  fold_left (fun m e => Map_set eqb m (fst e) (snd e)) entries m.

(** The type and the default order the registry records for a
    declaration. *)
Definition declared_type (variable : variable) : string :=
  if truthy_property (dataType variable)
  then match dataType variable with Some ty => ty | None => "text" end
  else "text".

Definition declared_order (variable : variable) : string :=
  normalise_order
    (if truthy_property (defaultOrder variable)
     then match defaultOrder variable with Some o => o | None => "none" end
     else "none").

Definition keys {K V} (m : list (K * V)) : list K := map fst m.

(** [s] is a collection over the data model of [this] whose maps list the
    keys of the maps of [this], in the same order: the sort states, the
    filter texts and the other values the maps hold may differ, and so
    may the data sets. *)
Definition same_columns (this s : t) : Prop :=
  variables_list (variables s) = variables_list (variables this)
  /\ variables_size (variables s) = variables_size (variables this)
  /\ keys (maps_uids (maps s)) = keys (maps_uids (maps this))
  /\ keys (maps_reverseUids (maps s)) = keys (maps_reverseUids (maps this))
  /\ keys (maps_index (maps s)) = keys (maps_index (maps this))
  /\ keys (maps_reverseIndex (maps s)) = keys (maps_reverseIndex (maps this))
  /\ keys (maps_types (maps s)) = keys (maps_types (maps this))
  /\ keys (maps_sorting (maps s)) = keys (maps_sorting (maps this))
  /\ keys (maps_filtering (maps s)) = keys (maps_filtering (maps this))
  /\ keys (maps_defaultOrder (maps s)) = keys (maps_defaultOrder (maps this)).

(** *** Collections the table acts on *)



(** *** Reading records *)

(** The data set [getDataPoints] reads for a type: the main one for
    'initial' and when the type is omitted or empty, the temporary one for
    'temporary'. *)
Definition reads (this : t) (type : option string) (targetData : list record)
  : Prop :=
  (type = None \/ type = Some "" \/ type = Some "initial")
  /\ targetData = dataSet this
  \/ type = Some "temporary" /\ targetData = temporaryDataSet this.

(** The indices [first], [first + 1], ..., [count] of them. *)
Definition indices (first : Z) (count : nat) : list Z :=
  map (fun k => first + Z.of_nat k) (seq 0 count).

(** The records at the positions [first] to [last], both included. *)
Definition rows_between (first last : Z) (data : list record) : list record :=
  firstn (Z.to_nat (last - first + 1)) (skipn (Z.to_nat first) data).

(** The cells of a record in the given columns. *)
Definition cells (this : t) (variableUIDs : list string) (r : record) : record :=
  map (fun variableUID =>
         element r (option_map Z.of_nat (get (maps_index (maps this)) variableUID)))
      variableUIDs.

(** *** Templates of dates

    The patterns of the code tell digits from the other characters, and
    no digit from another.  A template is a string such as "01/23/4567";
    its instances are the strings that hold a digit where it holds a
    digit and its own character elsewhere. *)

(** [s] holds, position by position, a character related to that of
    [s0]. *)
Fixpoint related (rho : ascii -> ascii -> Prop) (s0 s : string) : Prop :=
  match s0, s with
  | EmptyString, EmptyString => True
  | String c0 s0', String c s' => rho c0 c /\ related rho s0' s'
  | _, _ => False
  end.

(** The same on the result of a match. *)
Definition related_option (rho : ascii -> ascii -> Prop)
  (o0 o : option string) : Prop :=
  match o0, o with
  | Some x0, Some x => related rho x0 x
  | None, None => True
  | _, _ => False
  end.

(** No atom of the pattern is a digit taken literally. *)
Definition blind_atom (a : atom) : bool :=
  match a with
  | Chr c => negb (isDigit c)
  | _ => true
  end.

Definition blind (r : regex) : bool := forallb (fun p => blind_atom (p_atom p)) r.

(** The digit that stands for the digit [c0] of a template: the digits
    0 to 8 of a template stand for the members of a list, in its
    order. *)
Definition digit_for (digits_ : list ascii) (c0 : ascii) : ascii :=
  nth (N.to_nat (code c0 - 48)) digits_ c0.

(** [c] may stand for the character [c0] of a template: a digit of the
    template is replaced by the digit that stands for it, the digit 9 by
    any digit, and any other character stays. *)
Definition instance_char (digits_ : list ascii) (c0 c : ascii) : Prop :=
  if isDigit c0
  then isDigit c = true /\ (Ascii.eqb c0 "9" = false -> c = digit_for digits_ c0)
  else c = c0.

Definition instance (digits_ : list ascii) (s0 s : string) : Prop :=
  related (instance_char digits_) s0 s.

(** The instance of a template that holds no 9. *)
Fixpoint fill (digits_ : list ascii) (s0 : string) : string :=
  match s0 with
  | EmptyString => EmptyString
  | String c0 s0' =>
      String (if isDigit c0 then digit_for digits_ c0 else c0) (fill digits_ s0')
  end.

(** What may follow a date in a cell: nothing, or a time of day hh:mm:ss
    after a blank or after the mark "<br />" that [_parseDataPoint] puts
    between a date and a time. *)
Definition time_of_day (t : string) : Prop :=
  t = ""
  \/ exists sep hh mm ss,
       (sep = " " \/ sep = "<br />")
       /\ digits 2 hh = true /\ digits 2 mm = true /\ digits 2 ss = true
       /\ t = sep ++ hh ++ ":" ++ mm ++ ":" ++ ss.

(** The year a date built from [year] falls in: a year from 0 to 99
    stands for 1900 to 1999. *)
Definition full_year (year : Z) : Z :=
  if (0 <=? year) && (year <=? 99) then 1900 + year else year.

(** The leap years of the Gregorian calendar. *)
Definition leap_year (y : Z) : bool :=
  (y mod 4 =? 0) && (negb (y mod 100 =? 0) || (y mod 400 =? 0)).

(** The days of month [month] (0 for January to 11 for December) of year
    [y]. *)
Definition month_length (y month : Z) : Z :=
  match month with
  | 1 => if leap_year y then 29 else 28
  | 3 | 5 | 8 | 10 => 30
  | _ => 31
  end.

(** An integer from 0 to 99 written with two digits. *)
Definition two_digits (z : Z) : string :=
  (if z <? 10 then "0" else "") ++ Z_to_string z.

End Query.

(** ** Collections to run the code on *)

Module Examples.
Import JS DataCollection Query.

(** The collection [buildDataCollection] leaves, from a new one. *)
Definition built (dataModel : list variable) (rawData : list rawRecord) : t :=
  snd (buildDataCollection (Some rawData) (new dataModel)).

(** Two columns A and B and the rows (1,2), (1,1), (2,1); both columns are
    then set to ascending. *)
Definition AB_raw : list rawRecord :=
  [[("A", num 1); ("B", num 2)];
   [("A", num 1); ("B", num 1)];
   [("A", num 2); ("B", num 1)]].

Definition AB : t :=
  Table.sorting_set "var_uid_1" "ascending"
    (Table.sorting_set "var_uid_0" "ascending" (built [field "A"; field "B"] AB_raw)).


(** Ten rows numbered 0 to 9, unsorted and unfiltered. *)
Definition ten_raw : list rawRecord :=
  map (fun k => [("n", num k); ("label", VStr "row")]) [0; 1; 2; 3; 4; 5; 6; 7; 8; 9].

Definition ten : t := built [typed_field "n" "number"; field "label"] ten_raw.

(** Two declarations with the same source field. *)
Definition email_twice : list variable := [field "email"; field "email"].


End Examples.

(** * Properties *)

(** ** The stable sort *)

Section SortFacts.
Import JS.
Context {A : Type}.
Variable comparefn : A -> A -> number.


Lemma sort_insert_perm (x : A) (l : list A) :
  Permutation (x :: l) (sort_insert comparefn x l).
Proof.
  induction l as [|y l IH]; simpl.
  - apply Permutation_refl.
  - destruct (after comparefn x y).
    + eapply perm_trans; [apply perm_swap|].
      now apply perm_skip.
    + apply Permutation_refl.
Qed.

Lemma Array_sort_perm (l : list A) : Permutation l (Array_sort comparefn l).
Proof.
  induction l as [|x l IH]; simpl.
  - constructor.
  - eapply perm_trans; [apply perm_skip, IH|apply sort_insert_perm].
Qed.


Lemma Array_sort_length (l : list A) :
  List.length (Array_sort comparefn l) = List.length l.
Proof. symmetry. apply Permutation_length, Array_sort_perm. Qed.

(** The elements the comparator is consistent on. *)
Variable P : A -> Prop.

Hypothesis asymmetric : forall x y, after comparefn x y = true -> after comparefn y x = false.
Hypothesis transitive :
  forall x y z, P x -> P y -> P z -> before comparefn x y -> before comparefn y z -> before comparefn x z.










End SortFacts.

(** ** Numerals: printing a number and reading it back *)

Section Numerals.
Import JS.

Lemma read_digits_string_of_uint (d : Decimal.uint) (acc : Z) (n : nat) :
  read_digits 10 acc n (NilEmpty.string_of_uint d)
  = (uint_value acc d, (n + Decimal.nb_digits d)%nat, "").
Proof.
  revert acc n.
  induction d; intros acc n; simpl;
    try (rewrite IHd; f_equal; f_equal; lia).
  now rewrite Nat.add_0_r.
Qed.

Lemma of_uint_acc_value (d : Decimal.uint) (acc : positive) :
  Z.pos (Pos.of_uint_acc d acc) = uint_value (Z.pos acc) d.
Proof.
  revert acc.
  induction d; intro acc; cbn [Pos.of_uint_acc uint_value];
    try rewrite IHd; try reflexivity; f_equal; lia.
Qed.

Lemma of_uint_value (d : Decimal.uint) : Z.of_uint d = uint_value 0 d.
Proof.
  unfold Z.of_uint.
  induction d; cbn [Pos.of_uint uint_value Z.of_N]; try reflexivity;
    try exact IHd; now rewrite of_uint_acc_value.
Qed.

Lemma parseFloat_string_of_uint (d : Decimal.uint) :
  d <> Decimal.Nil ->
  parseFloat_string (NilEmpty.string_of_uint d) = Fin (uint_value 0 d)
  /\ parseFloat_string (String "-" (NilEmpty.string_of_uint d))
     = Fin (- uint_value 0 d).
Proof.
  intro Hd. unfold parseFloat_string.
  destruct d; [contradiction|..]; simpl;
    rewrite read_digits_string_of_uint; simpl; split; reflexivity.
Qed.

Lemma parseFloat_Z_to_string (z : Z) : parseFloat_string (Z_to_string z) = Fin z.
Proof.
  unfold Z_to_string.
  destruct z as [|p|p]; [reflexivity|..]; simpl;
    pose proof (DecimalPos.Unsigned.to_uint_nonnil p) as Hn;
    pose proof (DecimalPos.Unsigned.of_to p) as E;
    assert (Ev : uint_value 0 (Pos.to_uint p) = Z.pos p)
      by (rewrite <- of_uint_value; unfold Z.of_uint; now rewrite E);
    destruct (parseFloat_string_of_uint (Pos.to_uint p) Hn) as [H1 H2];
    unfold NilZero.string_of_uint;
    destruct (Pos.to_uint p) eqn:Ed; try contradiction;
      rewrite <- Ed in *; rewrite ?H1, ?H2, Ev; reflexivity.
Qed.

(** [parseFloat] of a number is the number. *)
Lemma parseFloat_number (n : number) : parseFloat (VNum n) = n.
Proof.
  destruct n as [|z|[|]]; try reflexivity.
  apply parseFloat_Z_to_string.
Qed.
End Numerals.

(** ** The comparator of [sortRecords] *)

Section ComparatorFacts.
Import JS RegExp DataCollection Query.
Variable Date_parse : string -> number.

Lemma order_of_cases (ordering : string) :
  order_of ordering = Fin 1 \/ order_of ordering = Fin (-1).
Proof. unfold order_of. destruct (_ || _); auto. Qed.



End ComparatorFacts.

Section ComparatorOrder.
Import JS RegExp DataCollection Query.
Variable Date_parse : string -> number.



Lemma String_ltb_asym (s u : string) : String.ltb s u = true -> String.ltb u s = false.
Proof.
  unfold String.ltb. rewrite (String.compare_antisym s u).
  destruct (String.compare u s); simpl; congruence.
Qed.




End ComparatorOrder.

(** ** [sortRecords] as a sequence of passes *)

Section SortRecordsFacts.
Import JS RegExp DataCollection Query.
Variable Date_parse : string -> number.


Lemma sort_pass_none (this : t) (variableUID : string) (records : list record) :
  sort_pass Date_parse this "none" variableUID records = Ret records.
Proof. reflexivity. Qed.

Lemma forEach_sort_none (this : t) (m : StrMap string) (records : list record) :
  Forall (fun e => snd e = "none") m ->
  forEach (sort_pass Date_parse this) m records = Ret records.
Proof.
  induction 1 as [|[key v] m Hv _ IH]; simpl.
  - reflexivity.
  - simpl in Hv. subst v. exact IH.
Qed.

Lemma sort_pass_sorts (this : t) (ordering variableUID : string) (k : nat)
  (records : list record) :
  String.eqb ordering "none" = false ->
  truthy_string variableUID = true ->
  get (maps_index (maps this)) variableUID = Some k ->
  sort_pass Date_parse this ordering variableUID records
  = Ret (Array_sort (compare Date_parse (order_of ordering) (Some (Z.of_nat k))) records).
Proof.
  intros Ho Hu Hk. unfold sort_pass, variableIndex_of.
  rewrite Ho, Hu, Hk. simpl.
  replace (-1 <? Z.of_nat k) with true by (symmetry; apply Z.ltb_lt; lia).
  reflexivity.
Qed.



End SortRecordsFacts.

(** ** Sort priority *)

Section SortPriority.
Import JS RegExp DataCollection Query.


End SortPriority.

(** ** What the date patterns cannot match *)

Section PatternFacts.
Import JS RegExp date_utilities DataCollection Query.

Lemma repeat_atom_count (c : ascii) (k : string -> option string) (a : atom)
  (n : nat) :
  (forall s rest, k s = Some rest -> (n <= count_char c s)%nat) ->
  forall (fuel lo : nat) (s rest : string),
    repeat_atom k a fuel lo s = Some rest ->
    ((match a with Chr c' => if Ascii.eqb c' c then lo else O | _ => O end) + n
     <= count_char c s)%nat.
Proof.
  intro K.
  assert (Stop : forall lo s rest,
             match lo with O => k s | S _ => None end = Some rest ->
             ((match a with Chr c' => if Ascii.eqb c' c then lo else O | _ => O end) + n
              <= count_char c s)%nat).
  { intros [|lo] s rest H; [|discriminate].
    apply K in H. destruct a as [c'| |]; [destruct (Ascii.eqb c' c)|..]; simpl; lia. }
  induction fuel as [|fuel IH]; intros lo s rest H; simpl in H.
  - now apply Stop in H.
  - destruct s as [|ch s]; [now apply Stop in H|].
    destruct (atom_matches a ch) eqn:M; [|now apply Stop in H].
    destruct (repeat_atom k a fuel (Nat.pred lo) s) as [rest'|] eqn:R.
    + apply IH in R. simpl.
      destruct a as [c'| |]; simpl in *; try lia.
      apply Ascii.eqb_eq in M. subst ch.
      destruct (Ascii.eqb c' c); lia.
    + now apply Stop in H.
Qed.

Lemma matchHere_count (c : ascii) (r : regex) :
  forall s rest, matchHere r s = Some rest -> (mandatory c r <= count_char c s)%nat.
Proof.
  induction r as [|p r IH]; intros s rest H; simpl in *.
  - lia.
  - apply (repeat_atom_count c _ _ (mandatory c r) IH) in H. exact H.
Qed.

(** A string with fewer [c] than the pattern has to read is not matched. *)
Lemma test_count (c : ascii) (r : regex) (s : string) :
  (count_char c s < mandatory c r)%nat -> test r s = false.
Proof.
  unfold test. induction s as [|ch s IH]; intro L; simpl.
  - destruct (matchHere r "") eqn:M; [|reflexivity].
    apply (matchHere_count c) in M. simpl in *. lia.
  - destruct (matchHere r (String ch s)) eqn:M.
    + apply (matchHere_count c) in M. lia.
    + apply IH. simpl in L. lia.
Qed.

Lemma count_digits (c : ascii) (d : Decimal.uint) :
  isDigit c = false -> count_char c (NilEmpty.string_of_uint d) = 0%nat.
Proof.
  intro N.
  assert (D : forall ch, isDigit ch = true -> Ascii.eqb ch c = false).
  { intros ch Hd. apply Ascii.eqb_neq. intros ->. congruence. }
  induction d; cbn [NilEmpty.string_of_uint count_char];
    try rewrite IHd;
    try match goal with
        | |- context [Ascii.eqb ?ch c] => rewrite (D ch eq_refl)
        end;
    reflexivity.
Qed.

Lemma count_Z_to_string (c : ascii) (z : Z) :
  isDigit c = false ->
  (count_char c (Z_to_string z) <= if Ascii.eqb "-" c then 1 else 0)%nat.
Proof.
  intro N. unfold Z_to_string.
  assert (D : forall ch, isDigit ch = true -> Ascii.eqb ch c = false).
  { intros ch Hd. apply Ascii.eqb_neq. intros ->. congruence. }
  destruct z as [|p|p];
    cbn [Z.to_int NilZero.string_of_int NilZero.string_of_uint
           NilEmpty.string_of_uint count_char].
  - rewrite (D "0"%char eq_refl). destruct (Ascii.eqb "-" c); lia.
  - unfold NilZero.string_of_uint.
    destruct (Pos.to_uint p) eqn:Ed;
      rewrite <- ?Ed, ?count_digits by exact N; try lia.
    exfalso. now apply (DecimalPos.Unsigned.to_uint_nonnil p).
  - unfold NilZero.string_of_uint.
    destruct (Pos.to_uint p) eqn:Ed;
      rewrite <- ?Ed, ?count_digits by exact N;
      try (destruct (Ascii.eqb "-" c); lia).
    exfalso. now apply (DecimalPos.Unsigned.to_uint_nonnil p).
Qed.

Lemma count_non_string (v : value) :
  (forall s, v <> VStr s) ->
  count_char "/" (ToString v) = 0%nat /\ (count_char "-" (ToString v) <= 1)%nat.
Proof.
  intro N. destruct v as [| |[|]|[|z|[|]]|s]; simpl; try (split; lia).
  - pose proof (count_Z_to_string "/" z eq_refl) as H1.
    pose proof (count_Z_to_string "-" z eq_refl) as H2.
    simpl in H1, H2. split; lia.
  - now destruct (N s).
Qed.

(** The date patterns match the string form of no value but a string: the
    methods [match] and [split] of the two converters are only reached on
    strings. *)
Lemma non_string_no_date (v : value) :
  (forall s, v <> VStr s) ->
  test euDateTimeRegExp (ToString v) = false
  /\ test euDateFormatRegex (ToString v) = false
  /\ test euDateTimeFormatRegex (ToString v) = false
  /\ test isoDateFormatRegex (ToString v) = false
  /\ test isoDateTimeFormatRegex (ToString v) = false.
Proof.
  intro N. destruct (count_non_string v N) as [H1 H2].
  repeat split.
  - apply (test_count "/"). rewrite H1. simpl. lia.
  - apply (test_count "/"). rewrite H1. simpl. lia.
  - apply (test_count "/"). rewrite H1. simpl. lia.
  - apply (test_count "-"). simpl. lia.
  - apply (test_count "-"). simpl. lia.
Qed.
End PatternFacts.

(** ** Columns of numbers *)

Section NumberColumns.
Import JS RegExp date_utilities DataCollection Query.
Variable Date_parse : string -> number.



Lemma String_ltb_trans (s u w : string) :
  String.ltb u s = false -> String.ltb w u = false -> String.ltb w s = false.
Proof.
  unfold String.ltb. intros H1 H2.
  destruct (String.compare w s) eqn:E; try reflexivity.
  apply OrderedTypeEx.String_as_OT.cmp_lt in E.
  destruct (String.compare u s) eqn:E1; try discriminate.
  - apply OrderedTypeEx.String_as_OT.cmp_eq in E1. subst u.
    apply OrderedTypeEx.String_as_OT.cmp_lt in E.
    unfold OrderedTypeEx.String_as_OT.cmp in E. rewrite E in H2. discriminate.
  - rewrite String.compare_antisym in E1.
    destruct (String.compare s u) eqn:E2; try discriminate.
    apply OrderedTypeEx.String_as_OT.cmp_lt in E2.
    pose proof (OrderedTypeEx.String_as_OT.lt_trans _ _ _ E E2) as T.
    apply OrderedTypeEx.String_as_OT.cmp_lt in T.
    unfold OrderedTypeEx.String_as_OT.cmp in T. rewrite T in H2. discriminate.
Qed.

(** On two strings that are neither dates nor numbers the comparator is
    the comparison of strings. *)
Lemma compare_text (order : number) (i : option Z) (a b : record) (s u : string) :
  element a i = VStr s -> element b i = VStr u ->
  matches_euDate (VStr s) = false -> parses_as_finite_number (VStr s) = false ->
  compare Date_parse order i a b
  = if String.ltb s u then num_mul order (Fin (-1))
    else if String.ltb u s then num_mul order (Fin 1)
    else Fin 0.
Proof.
  intros Ha Hb Hm Hp. unfold compare. rewrite Ha, Hb.
  unfold matches_euDate in Hm. cbn [ToString] in *. rewrite Hm. cbn [andb].
  unfold parses_as_finite_number in Hp. rewrite Hp. cbn [andb].
  reflexivity.
Qed.

(** The comparator of a column that holds such strings in every record is
    transitive on the records. *)
Lemma text_column_transitive (ordering : string) (i : option Z)
  (records : list record) :
  (forall r, In r records ->
     exists s, element r i = VStr s
               /\ matches_euDate (VStr s) = false
               /\ parses_as_finite_number (VStr s) = false) ->
  forall x y z, In x records -> In y records -> In z records ->
    before (compare Date_parse (order_of ordering) i) x y ->
    before (compare Date_parse (order_of ordering) i) y z ->
    before (compare Date_parse (order_of ordering) i) x z.
Proof.
  intros H x y z Hx Hy Hz.
  destruct (H x Hx) as [a [Ea [Ma Pa]]], (H y Hy) as [b [Eb [Mb Pb]]],
           (H z Hz) as [c [Ec [Mc Pc]]].
  unfold before, after.
  rewrite (compare_text _ i x y a b Ea Eb Ma Pa),
          (compare_text _ i y z b c Eb Ec Mb Pb),
          (compare_text _ i x z a c Ea Ec Ma Pa).
  assert (After : forall order s u,
             num_ltb (Fin 0)
               (if String.ltb s u then num_mul (Fin order) (Fin (-1))
                else if String.ltb u s then num_mul (Fin order) (Fin 1)
                else Fin 0)
             = if String.ltb s u then 0 <? order * -1
               else if String.ltb u s then 0 <? order * 1 else false).
  { intros order s u. destruct (String.ltb s u), (String.ltb u s); reflexivity. }
  destruct (order_of_cases ordering) as [-> | ->]; rewrite !After; simpl;
    destruct (String.ltb a b) eqn:Lab, (String.ltb b a) eqn:Lba,
             (String.ltb b c) eqn:Lbc, (String.ltb c b) eqn:Lcb;
    intros H1 H2; try discriminate;
    try (apply String_ltb_asym in Lab; congruence);
    try (apply String_ltb_asym in Lbc; congruence);
    try (rewrite (String_ltb_trans a b c Lba Lcb));
    try (rewrite (String_ltb_trans c b a Lbc Lab));
    destruct (String.ltb a c), (String.ltb c a); reflexivity.
Qed.
End NumberColumns.

Section SortPriorityMain.
Import JS RegExp DataCollection Query.



End SortPriorityMain.

(** ** Filtering *)

Section FilterFacts.
Import JS RegExp DataCollection Query.

Lemma prefix_spec (t s : string) :
  String.prefix t s = true <-> exists rest, s = t ++ rest.
Proof.
  revert s. induction t as [|c t IH]; intro s.
  - split; [intros _; now exists s|intros _; now destruct s].
  - destruct s as [|d s]; simpl.
    + split; [discriminate|intros [rest H]; discriminate].
    + destruct (ascii_dec c d) as [->|N].
      * rewrite IH. split; intros [rest H]; exists rest.
        -- now rewrite H.
        -- now injection H.
      * split; [discriminate|].
        intros [rest H]. injection H as H _. congruence.
Qed.

Lemma includes_spec (s t : string) :
  includes s t = true <-> substring_of t s.
Proof.
  unfold substring_of. induction s as [|c s IH].
  - cbn [includes]. rewrite orb_false_r, prefix_spec. split.
    + intros [rest H]. now exists "", rest.
    + intros [b [a H]]. destruct b; [now exists a|discriminate].
  - cbn [includes]. rewrite orb_true_iff, IH, prefix_spec. split.
    + intros [[rest H] | [b [a H]]].
      * now exists "", rest.
      * exists (String c b), a. simpl. now rewrite H.
    + intros [[|d b] [a H]].
      * left. now exists a.
      * right. exists b, a. simpl in H. now injection H.
Qed.

Lemma includes_empty (s : string) : includes s "" = true.
Proof. destruct s; reflexivity. Qed.

Lemma Array_filter_total {A} (callback : A -> result bool) (p : A -> bool)
  (a : list A) :
  (forall x, In x a -> callback x = Ret (p x)) ->
  Array_filter callback a = Ret (filter p a).
Proof.
  induction a as [|x a IH]; intro H; simpl.
  - reflexivity.
  - rewrite (H x) by now left. simpl.
    rewrite IH by (intros; apply H; now right). simpl.
    reflexivity.
Qed.

Lemma toString_method_defined (v : value) :
  nullish v = false -> toString_method v = Ret (ToString v).
Proof. destruct v; simpl; congruence. Qed.

Lemma filter_pass_total (this : t) (value_ variableUID : string)
  (records : list record) :
  (forall record, In record records ->
     nullish (element record (variableIndex_of this variableUID)) = false) ->
  filter_pass this value_ variableUID records
  = Ret (filter (fun record =>
                   includes (cell_text this variableUID record) (toLowerCase value_))
                records).
Proof.
  intro H. unfold filter_pass. apply Array_filter_total.
  intros record Hr. rewrite toString_method_defined by now apply H.
  reflexivity.
Qed.

Lemma filter_filter {A} (p q : A -> bool) (l : list A) :
  filter q (filter p l) = filter (fun x => p x && q x) l.
Proof.
  induction l as [|x l IH]; simpl; [reflexivity|].
  destruct (p x); simpl; [destruct (q x)|]; now rewrite IH.
Qed.

Lemma forEach_filter_total (this : t) (m : StrMap string) (records : list record) :
  (forall record variableUID value_,
     In record records -> In (variableUID, value_) m ->
     nullish (element record (variableIndex_of this variableUID)) = false) ->
  forEach (filter_pass this) m records
  = Ret (filter (fun record =>
                   forallb (fun '(variableUID, value_) =>
                              includes (cell_text this variableUID record)
                                       (toLowerCase value_)) m)
                records).
Proof.
  revert records. induction m as [|[key v] m IH]; intros records H; simpl.
  - f_equal. symmetry. apply forallb_filter_id.
    apply forallb_forall. reflexivity.
  - rewrite filter_pass_total
      by (intros record Hr; apply (H record key v Hr); now left).
    simpl. rewrite IH.
    + now rewrite filter_filter.
    + intros record uid value_ Hr Hm.
      apply filter_In in Hr. destruct Hr as [Hr _].
      apply (H record uid value_ Hr). now right.
Qed.

Lemma passes_spec (this : t) (record : record) :
  passes this record = true <->
  forall variableUID value_,
    In (variableUID, value_) (maps_filtering (maps this)) ->
    value_ <> "" ->
    substring_of (toLowerCase value_) (cell_text this variableUID record).
Proof.
  unfold passes. rewrite forallb_forall. split.
  - intros H uid v Hin _. apply includes_spec. apply (H (uid, v) Hin).
  - intros H [uid v] Hin.
    destruct (string_dec v "") as [->|N].
    + apply includes_empty.
    + apply includes_spec. now apply H.
Qed.

Lemma filterRecords_total (this : t) (records : list record) :
  defined_at this records ->
  filterRecords this records = Ret (filter (passes this) records).
Proof.
  intro D. unfold filterRecords. now rewrite forEach_filter_total.
Qed.

Lemma filterRecords_unfiltered (this : t) (records : list record) :
  defined_at this records ->
  Forall (fun e => snd e = "") (maps_filtering (maps this)) ->
  filterRecords this records = Ret records.
Proof.
  intros D H. rewrite filterRecords_total by exact D. f_equal.
  apply forallb_filter_id. apply forallb_forall. intros record _.
  apply passes_spec. intros uid v Hin Hv.
  rewrite Forall_forall in H. now apply H in Hin.
Qed.


End FilterFacts.

(** ** The registry built by [_createVariablesMaps] *)

Section RegistryFacts.
Import JS RegExp DataCollection Query.

Lemma constructor_new (dataModel : list variable) :
  constructor (Some dataModel) = Ret (new dataModel).
Proof. reflexivity. Qed.

Lemma list_includes_false (l : list variable) (s : string) :
  list_includes l s = false.
Proof. unfold list_includes. induction l; simpl; auto. Qed.

Lemma body_registers (this : t) (index : nat) (variable : variable) :
  nth_error (variables_list (variables this)) index = Some variable ->
  truthy_property (sourceField variable) = true ->
  createVariablesMaps_body index this
  = (Ret tt,
     with_maps (set_maps index variable (variableUID_of index variable)
                  (source_of variable)) this).
Proof.
  intros Hn Hs. unfold createVariablesMaps_body.
  rewrite Hn, list_includes_false, Hs. unfold source_of.
  destruct (sourceField variable); [reflexivity|discriminate].
Qed.

Lemma for_loop_registers (rest : list variable) :
  forall (done : list variable) (this : t),
    variables_list (variables this) = (done ++ rest)%list ->
    Forall (fun v => truthy_property (sourceField v) = true) rest ->
    for_loop createVariablesMaps_body (List.length done) (List.length rest) this
    = (Ret tt, with_maps (register (List.length done) rest) this).
Proof.
  induction rest as [|v rest IH]; intros done this E H.
  - destruct this as [[l sz m] d td]. reflexivity.
  - inversion H as [|? ? Hv Hrest]; subst.
    cbn [for_loop List.length]. unfold mbind.
    rewrite (body_registers this (List.length done) v).
    + specialize (IH (done ++ [v])%list
                     (with_maps (set_maps (List.length done) v
                                   (variableUID_of (List.length done) v)
                                   (source_of v)) this)).
      rewrite length_app, Nat.add_1_r in IH.
      rewrite IH; [reflexivity| |exact Hrest].
      simpl. rewrite E, <- app_assoc. reflexivity.
    + rewrite E, nth_error_app2, Nat.sub_diag by lia. reflexivity.
    + exact Hv.
Qed.

(** With a source field in every declaration, [_createVariablesMaps]
    returns normally and registers every declaration. *)
Lemma createVariablesMaps_registers (dataModel : list variable) :
  Forall (fun v => truthy_property (sourceField v) = true) dataModel ->
  _createVariablesMaps (new dataModel)
  = (Ret tt, with_maps (register 0 dataModel) (new dataModel)).
Proof.
  intro H. unfold _createVariablesMaps.
  apply (for_loop_registers dataModel [] (new dataModel) eq_refl H).
Qed.

Lemma get_set_same {V} (m : StrMap V) (k : string) (v : V) :
  get (set m k v) k = Some v.
Proof.
  unfold get, set. induction m as [|[k0 v0] m IH]; simpl.
  - now rewrite String.eqb_refl.
  - destruct (String.eqb k0 k) eqn:E; simpl; rewrite E; auto.
Qed.

Lemma get_set_other {V} (m : StrMap V) (k k' : string) (v : V) :
  k <> k' -> get (set m k v) k' = get m k'.
Proof.
  intro N. unfold get, set. induction m as [|[k0 v0] m IH]; simpl.
  - apply String.eqb_neq in N. now rewrite N.
  - destruct (String.eqb k0 k) eqn:E; simpl.
    + apply String.eqb_eq in E. subst k0.
      apply String.eqb_neq in N. now rewrite N.
    + destruct (String.eqb k0 k'); auto.
Qed.

Lemma set_fresh {V} (m : StrMap V) (k : string) (v : V) :
  ~ In k (map fst m) -> set m k v = (m ++ [(k, v)])%list.
Proof.
  unfold set. induction m as [|[k0 v0] m IH]; intro H; simpl.
  - reflexivity.
  - destruct (String.eqb k0 k) eqn:E.
    + apply String.eqb_eq in E. subst. exfalso. apply H. now left.
    + f_equal. apply IH. intro Hin. apply H. now right.
Qed.

(** The last declaration of a source field is the one the reverse map
    resolves it to. *)
Lemma register_reverseUids (before_ : list variable) :
  forall (index : nat) (v : variable) (after_ : list variable) (m : Maps),
    Forall (fun w => source_of w <> source_of v) after_ ->
    get (maps_reverseUids
           (register index (before_ ++ v :: after_)%list m))
        (source_of v)
    = Some (variableUID_of (index + List.length before_) v).
Proof.
  induction before_ as [|b before_ IH]; intros index v after_ m H.
  - simpl. rewrite Nat.add_0_r.
    set (m1 := set_maps index v _ _ m).
    assert (G : get (maps_reverseUids m1) (source_of v)
                = Some (variableUID_of index v))
      by apply get_set_same.
    clearbody m1. revert m1 G. generalize (S index).
    induction H as [|w after_ Hw _ IHa]; intros n m1 G; simpl.
    + exact G.
    + apply IHa. cbn [set_maps maps_reverseUids].
      now rewrite get_set_other.
  - simpl. rewrite IH by exact H. f_equal. f_equal. lia.
Qed.

Lemma register_sorting (dataModel : list variable) :
  forall (index : nat) (m : Maps),
    NoDup (map fst (maps_sorting m) ++ uids_from index dataModel) ->
    maps_sorting (register index dataModel m)
    = (maps_sorting m ++ map (fun u => (u, "none")) (uids_from index dataModel))%list.
Proof.
  induction dataModel as [|v rest IH]; intros index m N; simpl.
  - now rewrite app_nil_r.
  - rewrite IH; cbn [set_maps maps_sorting].
    + rewrite set_fresh.
      * now rewrite <- app_assoc.
      * simpl in N. apply NoDup_remove_2 in N.
        intro Hin. apply N. apply in_or_app. now left.
    + rewrite set_fresh.
      * rewrite map_app, <- app_assoc. exact N.
      * simpl in N. apply NoDup_remove_2 in N.
        intro Hin. apply N. apply in_or_app. now left.
Qed.

Lemma register_uids (dataModel : list variable) :
  forall (index : nat) (m : Maps),
    NoDup (map fst (maps_uids m) ++ uids_from index dataModel) ->
    maps_uids (register index dataModel m)
    = (maps_uids m
       ++ combine (uids_from index dataModel) (map source_of dataModel))%list.
Proof.
  induction dataModel as [|v rest IH]; intros index m N; simpl.
  - now rewrite app_nil_r.
  - rewrite IH; cbn [set_maps maps_uids].
    + rewrite set_fresh.
      * now rewrite <- app_assoc.
      * simpl in N. apply NoDup_remove_2 in N.
        intro Hin. apply N. apply in_or_app. now left.
    + rewrite set_fresh.
      * rewrite map_app, <- app_assoc. exact N.
      * simpl in N. apply NoDup_remove_2 in N.
        intro Hin. apply N. apply in_or_app. now left.
Qed.

Lemma register_index (dataModel : list variable) :
  forall (index : nat) (m : Maps),
    NoDup (map fst (maps_index m) ++ uids_from index dataModel) ->
    maps_index (register index dataModel m)
    = (maps_index m
       ++ combine (uids_from index dataModel)
                  (seq index (List.length dataModel)))%list.
Proof.
  induction dataModel as [|v rest IH]; intros index m N; simpl.
  - now rewrite app_nil_r.
  - rewrite IH; cbn [set_maps maps_index].
    + rewrite set_fresh.
      * now rewrite <- app_assoc.
      * simpl in N. apply NoDup_remove_2 in N.
        intro Hin. apply N. apply in_or_app. now left.
    + rewrite set_fresh.
      * rewrite map_app, <- app_assoc. exact N.
      * simpl in N. apply NoDup_remove_2 in N.
        intro Hin. apply N. apply in_or_app. now left.
Qed.
End RegistryFacts.

Section RegisteredFacts.
Import JS RegExp DataCollection Query.

Lemma to_uint_nonnil (n : nat) : Nat.to_uint n <> Decimal.Nil.
Proof.
  intro H.
  pose proof (DecimalNat.Unsigned.to_of (Nat.to_uint n)) as E.
  rewrite DecimalNat.Unsigned.of_to, H in E.
  discriminate.
Qed.

Lemma nat_to_string_inj (n n' : nat) :
  nat_to_string n = nat_to_string n' -> n = n'.
Proof.
  unfold nat_to_string. intro H.
  apply DecimalNat.Unsigned.to_uint_inj.
  pose proof (NilZero.usu _ (to_uint_nonnil n)) as E.
  pose proof (NilZero.usu _ (to_uint_nonnil n')) as E'.
  rewrite H in E. congruence.
Qed.

Lemma variableUID_truthy (index : nat) (v : variable) :
  truthy_string (variableUID_of index v) = true.
Proof.
  unfold variableUID_of.
  destruct (uid v) as [u|]; [destruct (truthy_string u) eqn:E|]; auto.
Qed.

Lemma uids_from_length (dataModel : list variable) (index : nat) :
  List.length (uids_from index dataModel) = List.length dataModel.
Proof.
  revert index. induction dataModel; intro index; simpl; auto.
Qed.

Lemma uids_from_generated (dataModel : list variable) (index : nat) :
  Forall (fun v => uid v = None) dataModel ->
  uids_from index dataModel
  = map (fun i => "var_uid_" ++ nat_to_string i) (seq index (List.length dataModel)).
Proof.
  intro H. revert index.
  induction H as [|v rest Hv _ IH]; intro index; simpl.
  - reflexivity.
  - rewrite IH. unfold variableUID_of. now rewrite Hv.
Qed.

(** The UIDs the registry generates are distinct. *)
Lemma uids_from_NoDup (dataModel : list variable) (index : nat) :
  Forall (fun v => uid v = None) dataModel ->
  NoDup (uids_from index dataModel).
Proof.
  intro H. rewrite uids_from_generated by exact H.
  apply NoDup_map_NoDup_ForallPairs; [|apply seq_NoDup].
  intros i j _ _ E. simpl in E.
  apply nat_to_string_inj. congruence.
Qed.

Lemma get_combine (keys : list string) :
  forall (values : list nat),
    NoDup keys -> List.length keys = List.length values ->
    map (get (combine keys values)) keys = map Some values.
Proof.
  induction keys as [|k keys IH]; intros [|v values] N L;
    try discriminate; [reflexivity|].
  inversion N as [|? ? Hk N']; subst.
  simpl. unfold get at 1. simpl. rewrite String.eqb_refl. f_equal.
  rewrite <- IH by (auto; simpl in L; lia).
  apply map_ext_in. intros k' Hk'.
  unfold get. simpl.
  destruct (String.eqb k k') eqn:E; [|reflexivity].
  apply String.eqb_eq in E. subst. contradiction.
Qed.

(** The registry [_createVariablesMaps] builds from declarations with
    distinct UIDs lists its columns by ordinal. *)
Lemma registered_register (dataModel : list variable) :
  NoDup (uids_from 0 dataModel) ->
  registered (with_maps (register 0 dataModel) (new dataModel)).
Proof.
  intro N. unfold registered.
  change (maps (with_maps (register 0 dataModel) (new dataModel)))
    with (register 0 dataModel empty_maps).
  rewrite register_sorting, register_index by exact N. simpl.
  rewrite length_map, uids_from_length, map_map. simpl. split.
  - rewrite Forall_map. clear N. generalize 0%nat.
    induction dataModel as [|v rest IH]; intro index; simpl; constructor.
    + apply variableUID_truthy.
    + apply IH.
  - apply get_combine; [exact N|].
    now rewrite uids_from_length, length_seq.
Qed.

Lemma set_keys {V} (m : StrMap V) (k : string) (v : V) :
  In k (map fst m) -> map fst (set m k v) = map fst m.
Proof.
  unfold set. induction m as [|[k0 v0] m IH]; intro H; simpl.
  - contradiction.
  - destruct (String.eqb k0 k) eqn:E; simpl; [reflexivity|].
    f_equal. apply IH. destruct H as [H|H]; [|exact H].
    simpl in H. subst. now rewrite String.eqb_refl in E.
Qed.

(** Setting the sort state of a registered column keeps the columns
    listed by ordinal. *)
Lemma registered_sorting_set (this : t) (variableUID order : string) :
  registered this ->
  In variableUID (map fst (maps_sorting (maps this))) ->
  registered (Table.sorting_set variableUID order this).
Proof.
  intros [Ht Hi] Hin. unfold registered.
  change (maps_sorting (maps (Table.sorting_set variableUID order this)))
    with (set (maps_sorting (maps this)) variableUID order).
  change (maps_index (maps (Table.sorting_set variableUID order this)))
    with (maps_index (maps this)).
  pose proof (set_keys (maps_sorting (maps this)) variableUID order Hin) as K.
  split.
  - rewrite <- Forall_map with (f := fst) (P := fun u => truthy_string u = true).
    rewrite K. now rewrite Forall_map.
  - rewrite <- (length_map fst), K, length_map.
    rewrite <- Hi.
    rewrite <- (map_map fst (get (maps_index (maps this)))), K.
    now rewrite map_map.
Qed.
End RegisteredFacts.

Section Registration.
Import JS RegExp DataCollection Query.

Lemma buildDataCollection_registers (dataModel : list variable)
  (rawData : option (list rawRecord)) :
  Forall (fun v => truthy_property (sourceField v) = true) dataModel ->
  exists this',
    buildDataCollection rawData (new dataModel) = (Ret tt, this')
    /\ maps this' = register 0 dataModel empty_maps
    /\ dataSet this' = _parseRecords this' rawData
    /\ temporaryDataSet this' = dataSet this'.
Proof.
  intro H. unfold buildDataCollection, mbind.
  rewrite (createVariablesMaps_registers dataModel H).
  unfold _createDataSet. eexists. split; [reflexivity|].
  repeat split.
  destruct rawData as [[|r rawData]|]; reflexivity.
Qed.

(** C5, as the code has it (registration of a duplicate source field).
    For every data model whose declarations all give a source field, two
    of them giving the same one or not, building the collection returns
    normally: no error is thrown.  When the UIDs are distinct, every
    declaration is registered under its own UID, in the order of the data
    model, next to its source field; and the map from source fields to
    UIDs resolves a source field to the last declaration that gives it. *)
Theorem C5_duplicate_sourceField_registers (dataModel : list variable)
  (rawData : option (list rawRecord)) :
  Forall (fun v => truthy_property (sourceField v) = true) dataModel ->
  exists this',
    buildDataCollection rawData (new dataModel) = (Ret tt, this')
    /\ (NoDup (uids_from 0 dataModel) ->
        maps_uids (maps this')
        = combine (uids_from 0 dataModel) (map source_of dataModel))
    /\ (forall before_ v after_,
          dataModel = (before_ ++ v :: after_)%list ->
          Forall (fun w => source_of w <> source_of v) after_ ->
          get (maps_reverseUids (maps this')) (source_of v)
          = Some (variableUID_of (List.length before_) v)).
Proof.
  intro H.
  destruct (buildDataCollection_registers dataModel rawData H)
    as [this' [E [Em _]]].
  exists this'. split; [exact E|]. rewrite Em. split.
  - intro N. now rewrite register_uids.
  - intros before_ v after_ -> Ha.
    now rewrite register_reverseUids.
Qed.

Lemma C5_duplicate_sourceField_registers_witness :
  exists this',
    buildDataCollection None (new Examples.email_twice) = (Ret tt, this')
    /\ (NoDup (uids_from 0 Examples.email_twice) ->
        maps_uids (maps this')
        = combine (uids_from 0 Examples.email_twice)
                  (map source_of Examples.email_twice))
    /\ (forall before_ v after_,
          Examples.email_twice = (before_ ++ v :: after_)%list ->
          Forall (fun w => source_of w <> source_of v) after_ ->
          get (maps_reverseUids (maps this')) (source_of v)
          = Some (variableUID_of (List.length before_) v)).
Proof.
  apply (C5_duplicate_sourceField_registers Examples.email_twice None).
  repeat constructor.
Defined.

(** C5, as the specification has it, fails on two declarations of the
    source field "email": the data model has a duplicate source field,
    and building the collection returns normally, with both declarations
    registered. *)
Lemma C5_duplicate_sourceField_counterexample :
  duplicate_sourceField Examples.email_twice
  /\ fst (buildDataCollection None (new Examples.email_twice)) = Ret tt
  /\ maps_uids (maps (snd (buildDataCollection None (new Examples.email_twice))))
     = [("var_uid_0", "email"); ("var_uid_1", "email")]
  /\ maps_reverseUids (maps (snd (buildDataCollection None (new Examples.email_twice))))
     = [("email", "var_uid_1")].
Proof.
  split; [|repeat split].
  exists 0%nat, 1%nat, (field "email"), (field "email").
  repeat split. discriminate.
Qed.
End Registration.

(** ** Normalisation of a data point *)

Section ParseFacts.
Import JS RegExp date_utilities DataCollection Query.

(** C6 (defensive defaults).  [_parseDataPoint] first turns a boolean into
    "true" or "false".  When what it then holds is missing or falsy, the
    result is the default of the type: 0 for 'number', the string "false"
    for 'boolean', the string "-" for every other type and for an omitted
    type.  When it is truthy and the type is not 'eu_date', the result is
    that value, unchanged. *)
Theorem C6_defensive_defaults (raw : value) (variableType : option string) :
  (truthy (stringified raw) = false ->
   _parseDataPoint raw variableType = default_of variableType)
  /\ (truthy (stringified raw) = true ->
      variableType <> Some "eu_date" ->
      _parseDataPoint raw variableType = stringified raw)
  /\ default_of (Some "number") = VNum (Fin 0)
  /\ default_of (Some "boolean") = VStr "false"
  /\ default_of None = VStr "-"
  /\ (forall ty, ty <> "number" -> ty <> "boolean" -> default_of (Some ty) = VStr "-").
Proof.
  repeat split.
  - intro F. unfold _parseDataPoint, default_of.
    destruct raw as [| |[|]|n|s]; simpl in F; try discriminate;
      cbn [ToString truthy]; rewrite ?F;
      destruct variableType as [ty|]; reflexivity.
  - intros T N. unfold _parseDataPoint.
    assert (E : String.eqb (match variableType with Some ty => ty | None => "text" end)
                  "eu_date" = false).
    { destruct variableType as [ty|]; [|reflexivity].
      apply String.eqb_neq. congruence. }
    rewrite E.
    destruct raw as [| |[|]|n|s]; simpl in T; try discriminate;
      cbn [ToString truthy stringified]; rewrite ?T; reflexivity.
  - intros ty N1 N2. unfold default_of.
    apply String.eqb_neq in N1, N2. now rewrite N1, N2.
Qed.

Lemma C6_defensive_defaults_witness :
  _parseDataPoint VUndefined (Some "number") = VNum (Fin 0)
  /\ _parseDataPoint VUndefined (Some "text") = VStr "-"
  /\ _parseDataPoint (VBool true) (Some "boolean") = VStr "true"
  /\ _parseDataPoint (VStr "Ada") None = VStr "Ada".
Proof.
  destruct (C6_defensive_defaults VUndefined (Some "number")) as [H1 _].
  destruct (C6_defensive_defaults VUndefined (Some "text")) as [H2 _].
  destruct (C6_defensive_defaults (VBool true) (Some "boolean")) as [_ [H3 _]].
  destruct (C6_defensive_defaults (VStr "Ada") None) as [_ [H4 _]].
  split; [|split; [|split]].
  - apply H1. reflexivity.
  - apply H2. reflexivity.
  - apply H3; [reflexivity|discriminate].
  - apply H4; [reflexivity|discriminate].
Defined.

(** A digit is none of the separators of the date patterns. *)
Lemma digit_not (c : ascii) :
  isDigit c = true ->
  Ascii.eqb c "/" = false /\ Ascii.eqb c "-" = false /\ Ascii.eqb c ":" = false
  /\ Ascii.eqb c "T" = false /\ Ascii.eqb c "s" = false /\ isSpace c = false.
Proof.
  destruct c as [[|] [|] [|] [|] [|] [|] [|] [|]]; vm_compute; intro H;
    try discriminate; repeat split.
Qed.

Lemma digits_1 (s : string) :
  digits 1 s = true -> exists a, s = String a "" /\ isDigit a = true.
Proof.
  destruct s as [|a [|b s]]; try discriminate.
  unfold digits. simpl. rewrite andb_true_r. eauto.
Qed.

Lemma digits_2 (s : string) :
  digits 2 s = true ->
  exists a b, s = String a (String b "") /\ isDigit a = true /\ isDigit b = true.
Proof.
  destruct s as [|a [|b [|c s]]]; try discriminate.
  unfold digits. simpl. rewrite andb_true_r. intro H.
  apply andb_prop in H. destruct H. eauto.
Qed.

Lemma digits_4 (s : string) :
  digits 4 s = true ->
  exists a b c d, s = String a (String b (String c (String d "")))
                  /\ isDigit a = true /\ isDigit b = true
                  /\ isDigit c = true /\ isDigit d = true.
Proof.
  destruct s as [|a [|b [|c [|d [|e s]]]]]; try discriminate.
  unfold digits. simpl. rewrite andb_true_r. intro H.
  apply andb_prop in H. destruct H as [Ha H].
  apply andb_prop in H. destruct H as [Hb H].
  apply andb_prop in H. destruct H as [Hc Hd].
  exists a, b, c, d. auto.
Qed.
End ParseFacts.

(** Takes a string of digits apart into its characters. *)
Ltac split_digits :=
  repeat match goal with
    | H : Query.digits_1_2 _ = true |- _ =>
        apply orb_prop in H; destruct H as [H | H]
    | H : Query.digits 1 _ = true |- _ =>
        apply digits_1 in H; destruct H as [? [-> ?]]
    | H : Query.digits 2 _ = true |- _ =>
        apply digits_2 in H; destruct H as [? [? [-> [? ?]]]]
    | H : Query.digits 4 _ = true |- _ =>
        apply digits_4 in H; destruct H as [? [? [? [? [-> [? [? [? ?]]]]]]]]
    end;
  repeat match goal with
    | H : JS.isDigit ?c = true |- _ =>
        destruct (digit_not c H) as [? [? [? [? [? ?]]]]]; revert H
    end;
  intros.

(** Runs the code on strings whose digits are variables: the character
    classes are computed on the characters that are known, and decided by
    the hypotheses on the others. *)
Ltac known_classes :=
  repeat match goal with
    | |- context [JS.isDigit (Ascii ?a ?b ?c ?d ?e ?f ?g ?h)] =>
        let v := eval vm_compute in (JS.isDigit (Ascii a b c d e f g h)) in
        change (JS.isDigit (Ascii a b c d e f g h)) with v
    | |- context [JS.isSpace (Ascii ?a ?b ?c ?d ?e ?f ?g ?h)] =>
        let v := eval vm_compute in (JS.isSpace (Ascii a b c d e f g h)) in
        change (JS.isSpace (Ascii a b c d e f g h)) with v
    end.

Ltac by_hypotheses :=
  repeat match goal with
    | H : _ = true |- _ => rewrite H
    | H : _ = false |- _ => rewrite H
    end.

Ltac run_patterns :=
  repeat (progress
            (try unfold RegExp.test;
             cbn [RegExp.exec RegExp.matchHere RegExp.repeat_atom
                    RegExp.atom_matches RegExp.test
                    RegExp.p_atom RegExp.p_min RegExp.p_max RegExp.between
                    RegExp.one RegExp.exactly RegExp.at_least Nat.pred
                    String.append String.length Ascii.eqb Bool.eqb];
             known_classes; by_hypotheses));
  repeat (progress (cbn; by_hypotheses)).

Section EuDates.
Import JS RegExp date_utilities DataCollection Query.

(** C7 (ISO dates under the type 'eu_date').  "2023-05-07" becomes
    "07/05/2023".  More generally an ISO date, a year of four digits, a
    month and a day of one or two digits, becomes day/month/year with the
    digits as they were; an ISO date and time becomes the same date, the
    mark "<br />" and the time; and a value already written
    day/month/year is returned as it is. *)
Theorem C7_iso_date_to_eu_date :
  _parseDataPoint (VStr "2023-05-07") (Some "eu_date") = VStr "07/05/2023"
  /\ (forall y m d,
        digits 4 y = true -> digits_1_2 m = true -> digits_1_2 d = true ->
        _parseDataPoint (VStr (y ++ "-" ++ m ++ "-" ++ d)) (Some "eu_date")
        = VStr (d ++ "/" ++ m ++ "/" ++ y))
  /\ (forall y m d hh mm ss,
        digits 4 y = true -> digits 2 m = true -> digits 2 d = true ->
        digits 2 hh = true -> digits 2 mm = true -> digits 2 ss = true ->
        _parseDataPoint
          (VStr (y ++ "-" ++ m ++ "-" ++ d ++ "T" ++ hh ++ ":" ++ mm ++ ":" ++ ss))
          (Some "eu_date")
        = VStr (d ++ "/" ++ m ++ "/" ++ y ++ "<br />" ++ hh ++ ":" ++ mm ++ ":" ++ ss))
  /\ (forall y m d,
        digits 4 y = true -> digits_1_2 m = true -> digits_1_2 d = true ->
        _parseDataPoint (VStr (d ++ "/" ++ m ++ "/" ++ y)) (Some "eu_date")
        = VStr (d ++ "/" ++ m ++ "/" ++ y)).
Proof.
  split; [reflexivity|split; [|split]].
  - intros y m d Hy Hm Hd. split_digits;
      unfold _parseDataPoint, convertIsoDateInEuDate, euDateTimeRegExp,
        isoDateFormatRegex, isoDateTimeFormatRegex, timeRegex;
      run_patterns; reflexivity.
  - intros y m d hh mm ss Hy Hm Hd Hhh Hmm Hss. split_digits;
      unfold _parseDataPoint, convertIsoDateInEuDate, euDateTimeRegExp,
        isoDateFormatRegex, isoDateTimeFormatRegex, timeRegex;
      run_patterns; reflexivity.
  - intros y m d Hy Hm Hd. split_digits;
      unfold _parseDataPoint, euDateTimeRegExp;
      run_patterns; reflexivity.
Qed.

Lemma C7_iso_date_to_eu_date_witness :
  _parseDataPoint (VStr "1999-1-31") (Some "eu_date") = VStr "31/1/1999"
  /\ _parseDataPoint (VStr "2023-05-07T10:20:30") (Some "eu_date")
     = VStr "07/05/2023<br />10:20:30"
  /\ _parseDataPoint (VStr "07/05/2023") (Some "eu_date") = VStr "07/05/2023".
Proof.
  destruct C7_iso_date_to_eu_date as [_ [H1 [H2 H3]]].
  split; [|split].
  - exact (H1 "1999" "1" "31" eq_refl eq_refl eq_refl).
  - exact (H2 "2023" "05" "07" "10" "20" "30"
              eq_refl eq_refl eq_refl eq_refl eq_refl eq_refl).
  - exact (H3 "2023" "05" "07" eq_refl eq_refl eq_refl).
Defined.
End EuDates.

(** ** The comparison semantics *)

Section ComparisonSemantics.
Import JS RegExp date_utilities DataCollection Query.



(** Dates are ordered as dates, not as strings. *)
Example compare_dates :
  compare Dates.Date_parse_utc (order_of "asc") (Some 0)
    [VStr "07/05/2023"] [VStr "01/06/2023"]
  = Fin (-2160000000)
  /\ String.ltb "07/05/2023" "01/06/2023" = false.
Proof. split; reflexivity. Qed.
End ComparisonSemantics.

(** ** Sorting and filtering leave their argument alone *)

Section NoMutation.
Import JS RegExp DataCollection Query.
Variable Date_parse : string -> number.

Lemma deref_alloc_old (h : Refs.heap) (a : list record) (p : nat) :
  (p < List.length h)%nat ->
  Refs.deref (snd (Refs.alloc a h)) p = Refs.deref h p.
Proof. intro L. unfold Refs.deref, Refs.alloc. simpl. now apply app_nth1. Qed.

Lemma deref_alloc_new (h : Refs.heap) (a : list record) :
  Refs.deref (snd (Refs.alloc a h)) (fst (Refs.alloc a h)) = a.
Proof.
  unfold Refs.deref, Refs.alloc. simpl.
  rewrite app_nth2, Nat.sub_diag by lia. reflexivity.
Qed.

Lemma length_alloc (h : Refs.heap) (a : list record) :
  List.length (snd (Refs.alloc a h)) = S (List.length h).
Proof. unfold Refs.alloc. simpl. rewrite length_app. simpl. lia. Qed.

Lemma length_assign (h : Refs.heap) (q : nat) (a : list record) :
  List.length (Refs.assign q a h) = List.length h.
Proof.
  unfold Refs.assign. destruct (q <? List.length h)%nat eqn:E; [|reflexivity].
  apply Nat.ltb_lt in E.
  rewrite length_app. cbn [List.length].
  rewrite length_firstn, length_skipn. lia.
Qed.

Lemma deref_assign_same (h : Refs.heap) (q : nat) (a : list record) :
  (q < List.length h)%nat -> Refs.deref (Refs.assign q a h) q = a.
Proof.
  intro L. unfold Refs.assign, Refs.deref.
  apply Nat.ltb_lt in L as E. rewrite E.
  rewrite app_nth2; rewrite length_firstn; [|lia].
  replace (q - Nat.min q (List.length h))%nat with 0%nat by lia.
  reflexivity.
Qed.

Lemma nth_middle_other {A} (l1 l2 : list A) (x y d : A) (p : nat) :
  p <> List.length l1 ->
  nth p (l1 ++ x :: l2) d = nth p (l1 ++ y :: l2) d.
Proof.
  revert p. induction l1 as [|z l1 IH]; intros [|p] N; simpl in *;
    try reflexivity; try contradiction.
  apply IH. congruence.
Qed.

Lemma split_at {A} (h : list A) (q : nat) (d : A) :
  (q < List.length h)%nat ->
  h = (firstn q h ++ nth q h d :: skipn (S q) h)%list.
Proof.
  revert q. induction h as [|x h IH]; intros [|q] L; simpl in *; try lia.
  - reflexivity.
  - f_equal. apply IH. lia.
Qed.

Lemma deref_assign_other (h : Refs.heap) (q p : nat) (a : list record) :
  p <> q -> Refs.deref (Refs.assign q a h) p = Refs.deref h p.
Proof.
  intro N. unfold Refs.assign, Refs.deref.
  destruct (q <? List.length h)%nat eqn:E; [|reflexivity].
  apply Nat.ltb_lt in E.
  transitivity (nth p (firstn q h ++ nth q h [] :: skipn (S q) h) []).
  - apply nth_middle_other. rewrite length_firstn. lia.
  - now rewrite <- split_at.
Qed.

(** The passes of [sortRecords] on the array at [q]: only that array
    changes, and it ends with what the passes compute. *)
Lemma sort_passes_in_place (this : t) (m : StrMap string) :
  forall (q : nat) (h : Refs.heap),
    (q < List.length h)%nat ->
    let '(r, h') :=
      Refs.forEach
        (fun ordering variableUID sortedRecords h =>
           match sort_pass Date_parse this ordering variableUID
                   (Refs.deref h sortedRecords) with
           | Ret sorted => (Ret sortedRecords, Refs.assign sortedRecords sorted h)
           | Throw e => (Throw e, h)
           end) m q h in
    List.length h' = List.length h
    /\ (forall p, p <> q -> Refs.deref h' p = Refs.deref h p)
    /\ match r with
       | Ret q' =>
           q' = q
           /\ forEach (sort_pass Date_parse this) m (Refs.deref h q)
              = Ret (Refs.deref h' q)
       | Throw e =>
           forEach (sort_pass Date_parse this) m (Refs.deref h q) = Throw e
       end.
Proof.
  induction m as [|[key v] m IH]; intros q h L; simpl.
  - repeat split; auto.
  - destruct (sort_pass Date_parse this v key (Refs.deref h q)) as [sorted|e] eqn:E;
      simpl.
    + specialize (IH q (Refs.assign q sorted h)).
      rewrite length_assign in IH. specialize (IH L).
      revert IH.
      match goal with
      | |- context [Refs.forEach ?f m q ?hh] =>
          destruct (Refs.forEach f m q hh) as [r h']
      end.
      intros [Hl [Ho Hr]].
      rewrite deref_assign_same in Hr by exact L.
      repeat split.
      * exact Hl.
      * intros p N. rewrite Ho by exact N. now apply deref_assign_other.
      * exact Hr.
    + repeat split; auto.
Qed.

(** The passes of [filterRecords] from the array at [cur]: the arrays
    there were do not change, and [filteredRecords] ends at an array that
    holds what the passes compute. *)
Lemma filter_passes_fresh (this : t) (m : StrMap string) :
  forall (cur : nat) (h : Refs.heap),
    (cur < List.length h)%nat ->
    let '(r, h') :=
      Refs.forEach
        (fun value_ variableUID filteredRecords h =>
           match filter_pass this value_ variableUID
                   (Refs.deref h filteredRecords) with
           | Ret kept => let '(p, h') := Refs.alloc kept h in (Ret p, h')
           | Throw e => (Throw e, h)
           end) m cur h in
    (forall p, (p < List.length h)%nat -> Refs.deref h' p = Refs.deref h p)
    /\ match r with
       | Ret q =>
           (q = cur \/ List.length h <= q)%nat
           /\ forEach (filter_pass this) m (Refs.deref h cur)
              = Ret (Refs.deref h' q)
       | Throw e =>
           forEach (filter_pass this) m (Refs.deref h cur) = Throw e
       end.
Proof.
  induction m as [|[key v] m IH]; intros cur h L; cbn [Refs.forEach forEach].
  - repeat split; auto.
  - destruct (filter_pass this v key (Refs.deref h cur)) as [kept|e] eqn:E;
      cbn [bind].
    + pose proof (deref_alloc_new h kept) as Dn.
      pose proof (length_alloc h kept) as Ln.
      pose proof (deref_alloc_old h kept) as Do.
      destruct (Refs.alloc kept h) as [p h1] eqn:Ea.
      assert (Ep : p = List.length h) by (unfold Refs.alloc in Ea; congruence).
      simpl in Dn, Ln, Do.
      specialize (IH p h1). rewrite Ln in IH.
      assert (Lp : (p < S (List.length h))%nat) by lia.
      specialize (IH Lp).
      revert IH.
      match goal with
      | |- context [Refs.forEach ?f m p h1] =>
          destruct (Refs.forEach f m p h1) as [r h']
      end.
      intros [Ho Hr]. rewrite Dn in Hr. split.
      * intros p0 L0. rewrite Ho by lia. now apply Do.
      * destruct r as [q|e]; [|exact Hr].
        destruct Hr as [Hq Hr]. split; [right; lia|exact Hr].
    + repeat split; auto.
Qed.

(** C9 (no mutation of the argument).  [sortRecords] and [filterRecords],
    given the array at [records], leave that array, and every array there
    was, with the same records in the same order; the array they return is
    a new one, and it holds the records the method computes from those of
    [records].  When the method throws, the arrays there were are
    unchanged as well. *)
Theorem C9_argument_not_mutated (this : t) (records : Refs.addr) (h : Refs.heap) :
  (records < List.length h)%nat ->
  (let '(r, h') := Refs.sortRecords Date_parse this records h in
   Refs.deref h' records = Refs.deref h records
   /\ (forall p, (p < List.length h)%nat -> Refs.deref h' p = Refs.deref h p)
   /\ match r with
      | Ret sortedRecords =>
          sortedRecords <> records
          /\ (List.length h <= sortedRecords)%nat
          /\ sortRecords Date_parse this (Refs.deref h records)
             = Ret (Refs.deref h' sortedRecords)
      | Throw e => sortRecords Date_parse this (Refs.deref h records) = Throw e
      end)
  /\ (let '(r, h') := Refs.filterRecords this records h in
      Refs.deref h' records = Refs.deref h records
      /\ (forall p, (p < List.length h)%nat -> Refs.deref h' p = Refs.deref h p)
      /\ match r with
         | Ret filteredRecords =>
             filteredRecords <> records
             /\ (List.length h <= filteredRecords)%nat
             /\ filterRecords this (Refs.deref h records)
                = Ret (Refs.deref h' filteredRecords)
         | Throw e => filterRecords this (Refs.deref h records) = Throw e
         end).
Proof.
  intro L.
  pose proof (deref_alloc_new h (Refs.deref h records)) as Dn.
  pose proof (length_alloc h (Refs.deref h records)) as Ln.
  pose proof (deref_alloc_old h (Refs.deref h records)) as Do.
  split.
  - unfold Refs.sortRecords.
    destruct (Refs.alloc (Refs.deref h records) h) as [q h1] eqn:Ea.
    assert (Eq : q = List.length h) by (unfold Refs.alloc in Ea; congruence).
    simpl in Dn, Ln, Do.
    pose proof (sort_passes_in_place this (maps_sorting (maps this)) q h1) as P.
    rewrite Ln in P. specialize (P ltac:(lia)).
    revert P.
    match goal with
    | |- context [Refs.forEach ?f ?m q h1] =>
        destruct (Refs.forEach f m q h1) as [r h']
    end.
    intros [Hl [Ho Hr]]. rewrite Dn in Hr.
    assert (Old : forall p, (p < List.length h)%nat -> Refs.deref h' p = Refs.deref h p).
    { intros p Lp. rewrite Ho by lia. now apply Do. }
    repeat split; auto.
    destruct r as [q'|e]; [|exact Hr].
    destruct Hr as [-> Hr]. repeat split; [lia|lia|exact Hr].
  - unfold Refs.filterRecords.
    destruct (Refs.alloc (Refs.deref h records) h) as [q h1] eqn:Ea.
    assert (Eq : q = List.length h) by (unfold Refs.alloc in Ea; congruence).
    simpl in Dn, Ln, Do.
    pose proof (filter_passes_fresh this (maps_filtering (maps this)) q h1) as P.
    rewrite Ln in P. specialize (P ltac:(lia)).
    revert P.
    match goal with
    | |- context [Refs.forEach ?f ?m q h1] =>
        destruct (Refs.forEach f m q h1) as [r h']
    end.
    intros [Ho Hr]. rewrite Dn in Hr.
    assert (Old : forall p, (p < List.length h)%nat -> Refs.deref h' p = Refs.deref h p).
    { intros p Lp. rewrite Ho by lia. now apply Do. }
    repeat split; auto.
    destruct r as [q'|e]; [|exact Hr].
    destruct Hr as [Hq Hr]. repeat split; [lia|lia|exact Hr].
Qed.
End NoMutation.

Lemma C9_argument_not_mutated_witness :
  let h := [DataCollection.dataSet Examples.AB] in
  (let '(r, h') := Refs.sortRecords Dates.Date_parse_utc Examples.AB 0%nat h in
   Refs.deref h' 0%nat = Refs.deref h 0%nat
   /\ (forall p, (p < List.length h)%nat -> Refs.deref h' p = Refs.deref h p)
   /\ match r with
      | JS.Ret sortedRecords =>
          sortedRecords <> 0%nat
          /\ (List.length h <= sortedRecords)%nat
          /\ DataCollection.sortRecords Dates.Date_parse_utc Examples.AB (Refs.deref h 0%nat)
             = JS.Ret (Refs.deref h' sortedRecords)
      | JS.Throw e =>
          DataCollection.sortRecords Dates.Date_parse_utc Examples.AB (Refs.deref h 0%nat)
          = JS.Throw e
      end)
  /\ (let '(r, h') := Refs.filterRecords Examples.AB 0%nat h in
      Refs.deref h' 0%nat = Refs.deref h 0%nat
      /\ (forall p, (p < List.length h)%nat -> Refs.deref h' p = Refs.deref h p)
      /\ match r with
         | JS.Ret filteredRecords =>
             filteredRecords <> 0%nat
             /\ (List.length h <= filteredRecords)%nat
             /\ DataCollection.filterRecords Examples.AB (Refs.deref h 0%nat)
                = JS.Ret (Refs.deref h' filteredRecords)
         | JS.Throw e =>
             DataCollection.filterRecords Examples.AB (Refs.deref h 0%nat) = JS.Throw e
         end).
Proof.
  apply (C9_argument_not_mutated Dates.Date_parse_utc Examples.AB 0%nat
           [DataCollection.dataSet Examples.AB]).
  simpl. lia.
Defined.

(** ** The operations that change the collection *)

Section Mutations.
Import JS RegExp DataCollection Query.

(** C4, on the code (removal of the rows 2 to 4).  On ten rows, with every
    sort state 'none' and every filter text empty, [removeDataPoints(2, 4)]
    returns normally and recomputes the view at once, but it removes the
    two rows 2 and 3 only: the count handed to [splice] is
    [lastRecordIndex - firstRecordIndex].  The data set and the view are
    left with the eight rows 0, 1, 4, 5, 6, 7, 8, 9. *)
Theorem C4_removeDataPoints_range (Date_parse : string -> number) (this : t)
  (r0 r1 r2 r3 r4 r5 r6 r7 r8 r9 : record) :
  dataSet this = [r0; r1; r2; r3; r4; r5; r6; r7; r8; r9] ->
  Forall (fun e => snd e = "none") (maps_sorting (maps this)) ->
  Forall (fun e => snd e = "") (maps_filtering (maps this)) ->
  defined_at this (dataSet this) ->
  exists this',
    removeDataPoints Date_parse 2 (Some 4) this = (Ret tt, this')
    /\ dataSet this' = [r0; r1; r4; r5; r6; r7; r8; r9]
    /\ temporaryDataSet this' = [r0; r1; r4; r5; r6; r7; r8; r9]
    /\ List.length (temporaryDataSet this') = 8%nat.
Proof.
  intros E Hs Hf D.
  unfold removeDataPoints, mbind, read, update. rewrite E.
  cbn [List.length Z.of_nat truthy negb Z.eqb].
  change (splice [r0; r1; r2; r3; r4; r5; r6; r7; r8; r9] 2 (4 - 2))
    with [r0; r1; r4; r5; r6; r7; r8; r9].
  set (this1 := with_dataSet [r0; r1; r4; r5; r6; r7; r8; r9] this).
  assert (S1 : sortRecords Date_parse this1 (dataSet this1)
               = Ret [r0; r1; r4; r5; r6; r7; r8; r9])
    by (apply forEach_sort_none; exact Hs).
  rewrite S1.
  set (this2 := with_temporaryDataSet [r0; r1; r4; r5; r6; r7; r8; r9] this1).
  assert (F2 : filterRecords this2 (temporaryDataSet this2)
               = Ret [r0; r1; r4; r5; r6; r7; r8; r9]).
  { apply filterRecords_unfiltered; [|exact Hf].
    intros record uid v Hr Hin. apply (D record uid v); [|exact Hin].
    rewrite E. simpl in Hr. simpl. tauto. }
  rewrite F2. eexists. repeat split.
Qed.

Lemma C4_removeDataPoints_range_witness :
  exists this',
    removeDataPoints Dates.Date_parse_utc 2 (Some 4) Examples.ten = (Ret tt, this')
    /\ dataSet this'
       = [[num 0; VStr "row"]; [num 1; VStr "row"]; [num 4; VStr "row"];
          [num 5; VStr "row"]; [num 6; VStr "row"]; [num 7; VStr "row"];
          [num 8; VStr "row"]; [num 9; VStr "row"]]
    /\ temporaryDataSet this'
       = [[num 0; VStr "row"]; [num 1; VStr "row"]; [num 4; VStr "row"];
          [num 5; VStr "row"]; [num 6; VStr "row"]; [num 7; VStr "row"];
          [num 8; VStr "row"]; [num 9; VStr "row"]]
    /\ List.length (temporaryDataSet this') = 8%nat.
Proof.
  apply (C4_removeDataPoints_range Dates.Date_parse_utc Examples.ten
           [num 0; VStr "row"] [num 1; VStr "row"] [num 2; VStr "row"]
           [num 3; VStr "row"] [num 4; VStr "row"] [num 5; VStr "row"]
           [num 6; VStr "row"] [num 7; VStr "row"] [num 8; VStr "row"]
           [num 9; VStr "row"]).
  - reflexivity.
  - repeat constructor.
  - repeat constructor.
  - intros record uid v Hr Hin. simpl in Hr, Hin.
    repeat match goal with H : _ \/ _ |- _ => destruct H end;
      try contradiction; subst;
      match goal with H : (_, _) = (_, _) |- _ => injection H as <- <- end;
      reflexivity.
Defined.

(** C8, on the code (removal of a column).  [removeVariable] throws at its
    second statement, whatever the collection and the UID:
    [this.variables] is the object of the three properties list, size and
    maps, and has no [splice].  Nothing is removed.  The two loops after
    that statement call [splice] on the data set itself: run on four rows
    for the column of index 1, they would take rows away (the second and
    the third), not the data point of the column in every row. *)
Theorem C8_removeVariable_throws (this : t) (variableUID : string) :
  removeVariable variableUID this
  = (Throw (TypeError "splice is not a function"), this)
  /\ (forall r0 r1 r2 r3 : record,
        splice_loop 4 0 1 [r0; r1; r2; r3] = [r0; r3]).
Proof.
  split; [|reflexivity].
  unfold removeVariable, mbind, read. simpl.
  destruct (get (maps_index (maps this)) variableUID); reflexivity.
Qed.

(** C10 (the wholesale load throws).  [loadDataSet] starts by calling
    [this._resetData()], and the class has no member of that name: for
    every argument the call is a [TypeError], nothing after it runs, and
    the collection is left as it was, data set and maps included.
    [buildDataCollection] is what fills a collection. *)
Theorem C10_loadDataSet_throws (this : t) (rawData : option (list rawRecord)) :
  loadDataSet rawData this
  = (Throw (TypeError "_resetData is not a function"), this)
  /\ existsb (String.eqb "_resetData") DataCollection_members = false
  /\ dataSet (snd (buildDataCollection (Some Examples.AB_raw)
                     (new [field "A"; field "B"])))
     = [[num 1; num 2]; [num 1; num 1]; [num 2; num 1]].
Proof. repeat split. Qed.
End Mutations.

(** ** The records the collection parses are fit for filtering *)

Section ParsedRecords.
Import JS RegExp date_utilities DataCollection Query.

(** [_parseDataPoint] leaves no data point undefined or null. *)
Lemma parseDataPoint_defined (dataPoint : value) (variableType : option string) :
  nullish (_parseDataPoint dataPoint variableType) = false.
Proof.
  unfold _parseDataPoint.
  set (d1 := match dataPoint with VUndefined => VStr "" | _ => dataPoint end).
  set (d2 := match d1 with VBool _ => VStr (ToString d1) | _ => d1 end).
  destruct (truthy d2) eqn:T.
  - assert (N : nullish d2 = false) by (destruct d2; simpl in *; congruence).
    destruct (String.eqb _ "eu_date"); [destruct (test _ _)|]; auto.
  - destruct (String.eqb _ "number"); [|destruct (String.eqb _ "boolean")];
      reflexivity.
Qed.

Lemma parseRecords_cells (this : t) (rawData : option (list rawRecord))
  (record : record) :
  In record (_parseRecords this rawData) ->
  List.length record = List.length (maps_uids (maps this))
  /\ Forall (fun v => nullish v = false) record.
Proof.
  unfold _parseRecords. destruct rawData as [[|r rawData]|]; try contradiction.
  intro H. apply in_map_iff in H. destruct H as [dataPoint [<- _]].
  split; [apply length_map|].
  apply Forall_map, Forall_forall. intros [uid source] _.
  apply parseDataPoint_defined.
Qed.

(** When the columns of the filtering map are columns of the registry, the
    records [_parseRecords] builds hold a data point in each of them. *)
Lemma parseRecords_defined (this : t) (rawData : option (list rawRecord)) :
  filterable this -> defined_at this (_parseRecords this rawData).
Proof.
  intros F record uid v Hr Hin.
  destruct (F uid v Hin) as [Hu [k [Hk Lk]]].
  destruct (parseRecords_cells this rawData record Hr) as [Hl Hc].
  unfold variableIndex_of. rewrite Hu, Hk. simpl.
  replace (Z.of_nat k <? 0) with false by (symmetry; apply Z.ltb_ge; lia).
  rewrite Nat2Z.id. unfold Array_get.
  rewrite Forall_forall in Hc. apply Hc, nth_In. lia.
Qed.



End ParsedRecords.

(** ** A declaration without a source field *)

Section MissingSourceField.
Import JS RegExp DataCollection Query.

Lemma with_maps_with_maps (f g : Maps -> Maps) (this : t) :
  with_maps f (with_maps g this) = with_maps (fun m => f (g m)) this.
Proof. destruct this as [[l sz m] d td]. reflexivity. Qed.

(** The turns of the loop for a run of declarations that give a source
    field, wherever the run stands in the data model. *)
Lemma for_loop_run (run : list variable) :
  forall (done rest : list variable) (this : t),
    variables_list (variables this) = (done ++ run ++ rest)%list ->
    Forall (fun v => truthy_property (sourceField v) = true) run ->
    for_loop createVariablesMaps_body (List.length done) (List.length run) this
    = (Ret tt, with_maps (register (List.length done) run) this).
Proof.
  induction run as [|v run IH]; intros done rest this E H.
  - destruct this as [[l sz m] d td]. reflexivity.
  - inversion H as [|? ? Hv Hrun]; subst.
    cbn [for_loop List.length]. unfold mbind.
    rewrite (body_registers this (List.length done) v).
    + specialize (IH (done ++ [v])%list rest
                     (with_maps (set_maps (List.length done) v
                                   (variableUID_of (List.length done) v)
                                   (source_of v)) this)).
      rewrite length_app, Nat.add_1_r in IH.
      rewrite IH; [now rewrite with_maps_with_maps| |exact Hrun].
      destruct this as [[l sz m] d td]. simpl in *.
      rewrite E, <- app_assoc. reflexivity.
    + rewrite E, nth_error_app2, Nat.sub_diag by lia. reflexivity.
    + exact Hv.
Qed.

Lemma for_loop_app (body : nat -> M unit) (n m start : nat) (this : t) :
  for_loop body start (n + m) this
  = (for_loop body start n ;; for_loop body (start + n) m) this.
Proof.
  revert start this. induction n as [|n IH]; intros start this.
  - simpl. unfold mbind, ret. now rewrite Nat.add_0_r.
  - cbn [Nat.add for_loop]. unfold mbind.
    destruct (body start this) as [[[]|e] this1]; [|reflexivity].
    rewrite IH. unfold mbind. now rewrite Nat.add_succ_r.
Qed.

Lemma body_missing (this : t) (index : nat) (variable : variable) :
  nth_error (variables_list (variables this)) index = Some variable ->
  truthy_property (sourceField variable) = false ->
  createVariablesMaps_body index this
  = (Throw (ThrownString "Data Collection Error: one or more variable names and/or source fields are missing."),
     this).
Proof.
  intros Hn Hs. unfold createVariablesMaps_body.
  now rewrite Hn, list_includes_false, Hs.
Qed.

Lemma map_fst_combine_eq {A B} (l : list A) :
  forall l' : list B,
    List.length l = List.length l' -> map fst (combine l l') = l.
Proof.
  induction l as [|a l IH]; intros [|b l'] L; try discriminate; simpl.
  - reflexivity.
  - f_equal. apply IH. simpl in L. lia.
Qed.

(** X1 (a declaration without a source field).  When a declaration of the
    data model gives no source field (none, or the empty string) and the
    declarations before it all give one, [buildDataCollection] throws the
    message about missing source fields; it has then registered the
    declarations that stand before the faulty one, none of those after
    it, and has loaded no record: the collection is left with a partial
    registry and empty data sets. *)
Theorem X1_missing_sourceField (done : list variable) (v : variable)
  (rest : list variable) (rawData : option (list rawRecord)) :
  Forall (fun w => truthy_property (sourceField w) = true) done ->
  truthy_property (sourceField v) = false ->
  let dataModel := (done ++ v :: rest)%list in
  buildDataCollection rawData (new dataModel)
  = (Throw (ThrownString "Data Collection Error: one or more variable names and/or source fields are missing."),
     with_maps (register 0 done) (new dataModel))
  /\ dataSet (snd (buildDataCollection rawData (new dataModel))) = []
  /\ (NoDup (uids_from 0 done) ->
      map fst (maps_uids (maps (snd (buildDataCollection rawData (new dataModel)))))
      = uids_from 0 done).
Proof.
  intros Hdone Hv dataModel. subst dataModel.
  set (dataModel := (done ++ v :: rest)%list).
  assert (E : buildDataCollection rawData (new dataModel)
              = (Throw (ThrownString "Data Collection Error: one or more variable names and/or source fields are missing."),
                 with_maps (register 0 done) (new dataModel))).
  { unfold buildDataCollection, mbind, _createVariablesMaps.
    change (variables_size (variables (new dataModel)))
      with (List.length dataModel).
    replace (List.length dataModel)
      with (List.length done + S (List.length rest))%nat
      by (unfold dataModel; rewrite length_app; reflexivity).
    rewrite for_loop_app. unfold mbind.
    pose proof (for_loop_run done [] (v :: rest) (new dataModel) eq_refl Hdone)
      as R.
    change (List.length (@nil variable)) with 0%nat in R. rewrite R.
    cbn [for_loop Nat.add List.length]. unfold mbind.
    rewrite (body_missing _ (List.length done) v); [reflexivity| |exact Hv].
    simpl. unfold dataModel.
    rewrite nth_error_app2, Nat.sub_diag by lia. reflexivity. }
  rewrite E. split; [reflexivity|]. split; [reflexivity|].
  intro N. cbn [snd].
  change (maps (with_maps (register 0 done) (new dataModel)))
    with (register 0 done empty_maps).
  rewrite register_uids by exact N. simpl.
  apply map_fst_combine_eq.
  now rewrite uids_from_length, length_map.
Qed.

Lemma X1_missing_sourceField_witness :
  let dataModel := [field "A"; Variable_ None (Some "") None None; field "B"] in
  buildDataCollection (Some Examples.AB_raw) (new dataModel)
  = (Throw (ThrownString "Data Collection Error: one or more variable names and/or source fields are missing."),
     with_maps (register 0 [field "A"]) (new dataModel))
  /\ dataSet (snd (buildDataCollection (Some Examples.AB_raw) (new dataModel))) = []
  /\ (NoDup (uids_from 0 [field "A"]) ->
      map fst (maps_uids (maps (snd (buildDataCollection (Some Examples.AB_raw)
                                       (new dataModel)))))
      = uids_from 0 [field "A"]).
Proof.
  apply (X1_missing_sourceField [field "A"] (Variable_ None (Some "") None None)
           [field "B"] (Some Examples.AB_raw)).
  - repeat constructor.
  - reflexivity.
Defined.
End MissingSourceField.

(** ** Maps that are set again *)

Section MapFacts.
Import JS Query.
Context {K V : Type}.
Variable eqb : K -> K -> bool.
Hypothesis eqb_spec : forall a b, eqb a b = true <-> a = b.

Lemma eqb_same (a : K) : eqb a a = true.
Proof. now apply eqb_spec. Qed.

Lemma eqb_other (a b : K) : a <> b -> eqb a b = false.
Proof.
  intro N. destruct (eqb a b) eqn:E; [|reflexivity].
  apply eqb_spec in E. contradiction.
Qed.

Lemma key_dec (a b : K) : {a = b} + {a <> b}.
Proof.
  destruct (eqb a b) eqn:E.
  - left. now apply eqb_spec.
  - right. intro H. apply eqb_spec in H. congruence.
Qed.

Lemma Map_get_set_same (m : list (K * V)) (k : K) (v : V) :
  Map_get eqb (Map_set eqb m k v) k = Some v.
Proof.
  induction m as [|[k0 v0] m IH]; simpl.
  - now rewrite eqb_same.
  - destruct (eqb k0 k) eqn:E; simpl; rewrite E; auto.
Qed.

Lemma Map_get_set_other (m : list (K * V)) (k k' : K) (v : V) :
  k <> k' -> Map_get eqb (Map_set eqb m k v) k' = Map_get eqb m k'.
Proof.
  intro N. induction m as [|[k0 v0] m IH]; simpl.
  - now rewrite eqb_other.
  - destruct (eqb k0 k) eqn:E; simpl.
    + apply eqb_spec in E. subst k0. now rewrite eqb_other.
    + destruct (eqb k0 k'); auto.
Qed.

(** [set] on a key of the map changes no key and moves none. *)
Lemma Map_set_keys (m : list (K * V)) (k : K) (v : V) :
  In k (keys m) -> keys (Map_set eqb m k v) = keys m.
Proof.
  unfold keys. induction m as [|[k0 v0] m IH]; intro H; simpl in *.
  - contradiction.
  - destruct (eqb k0 k) eqn:E; simpl; [reflexivity|].
    f_equal. apply IH. destruct H as [->|H]; [|exact H].
    now rewrite eqb_same in E.
Qed.

Lemma Map_set_keys_incl (m : list (K * V)) (k k' : K) (v : V) :
  In k' (keys (Map_set eqb m k v)) <-> k' = k \/ In k' (keys m).
Proof.
  unfold keys. induction m as [|[k0 v0] m IH]; simpl.
  - intuition.
  - destruct (eqb k0 k) eqn:E; simpl.
    + apply eqb_spec in E. subst. intuition.
    + rewrite IH. intuition.
Qed.

Lemma Map_set_NoDup (m : list (K * V)) (k : K) (v : V) :
  NoDup (keys m) -> NoDup (keys (Map_set eqb m k v)).
Proof.
  unfold keys. induction m as [|[k0 v0] m IH]; intro N; simpl in *.
  - constructor; [intros []|constructor].
  - inversion N as [|? ? Hk N']; subst.
    destruct (eqb k0 k) eqn:E; simpl.
    + constructor; assumption.
    + constructor; [|now apply IH].
      intro Hin. apply Map_set_keys_incl in Hin.
      destruct Hin as [->|Hin]; [now rewrite eqb_same in E|contradiction].
Qed.

(** Two maps that list the same keys, each once, and hold the same value
    at each of them are the same map. *)
Lemma Map_ext (m : list (K * V)) :
  forall m' : list (K * V),
    NoDup (keys m) -> keys m = keys m' ->
    (forall k, In k (keys m) -> Map_get eqb m k = Map_get eqb m' k) ->
    m = m'.
Proof.
  unfold keys.
  induction m as [|[k0 v0] m IH]; intros [|[k1 v1] m'] N E G;
    try discriminate; [reflexivity|].
  simpl in E. injection E as <- E.
  inversion N as [|? ? Hk N']; subst.
  pose proof (G k0 (or_introl eq_refl)) as G0.
  simpl in G0. rewrite eqb_same in G0. injection G0 as <-.
  f_equal. apply IH; auto.
  intros k Hin. specialize (G k (or_intror Hin)). simpl in G.
  rewrite eqb_other in G; [exact G|].
  intros ->. contradiction.
Qed.

Lemma set_all_cons (k : K) (v : V) (entries m : list (K * V)) :
  set_all eqb ((k, v) :: entries) m = set_all eqb entries (Map_set eqb m k v).
Proof. reflexivity. Qed.

Lemma set_all_keys (entries : list (K * V)) :
  forall m : list (K * V),
    incl (keys entries) (keys m) -> keys (set_all eqb entries m) = keys m.
Proof.
  induction entries as [|[k v] entries IH]; intros m I.
  - reflexivity.
  - rewrite set_all_cons.
    assert (Hk : In k (keys m)) by (apply I; now left).
    rewrite IH; [now apply Map_set_keys|].
    rewrite Map_set_keys by exact Hk.
    intros x Hx. apply I. now right.
Qed.

Lemma set_all_NoDup (entries : list (K * V)) :
  forall m : list (K * V),
    NoDup (keys m) -> NoDup (keys (set_all eqb entries m)).
Proof.
  induction entries as [|[k v] entries IH]; intros m N.
  - exact N.
  - rewrite set_all_cons. apply IH. now apply Map_set_NoDup.
Qed.

Lemma set_all_keys_incl (entries : list (K * V)) :
  forall (m : list (K * V)) (k : K),
    In k (keys (set_all eqb entries m)) <-> In k (keys entries) \/ In k (keys m).
Proof.
  induction entries as [|[k0 v0] entries IH]; intros m k.
  - simpl. intuition.
  - rewrite set_all_cons, IH, Map_set_keys_incl.
    unfold keys. simpl. intuition.
Qed.

Lemma set_all_get_other (entries : list (K * V)) :
  forall (m : list (K * V)) (k : K),
    ~ In k (keys entries) ->
    Map_get eqb (set_all eqb entries m) k = Map_get eqb m k.
Proof.
  induction entries as [|[k0 v0] entries IH]; intros m k H.
  - reflexivity.
  - rewrite set_all_cons, IH.
    + apply Map_get_set_other. intros ->. apply H. now left.
    + intro Hin. apply H. now right.
Qed.

(** The value a key is set to does not depend on the map the entries are
    set in. *)
Lemma set_all_get (entries : list (K * V)) :
  forall (m m' : list (K * V)) (k : K),
    In k (keys entries) ->
    Map_get eqb (set_all eqb entries m) k = Map_get eqb (set_all eqb entries m') k.
Proof.
  induction entries as [|[k0 v0] entries IH]; intros m m' k H.
  - contradiction.
  - rewrite !set_all_cons.
    destruct (in_dec key_dec k (keys entries)) as [Hin|Hout].
    + now apply IH.
    + rewrite !(set_all_get_other entries) by exact Hout.
      destruct H as [H|H]; [|contradiction]. simpl in H. subst k0.
      now rewrite !Map_get_set_same.
Qed.

(** Setting the entries again, in a map that already lists their keys in
    the order the first pass gave them, gives the map of the first
    pass. *)
Lemma set_all_again (entries m' : list (K * V)) :
  keys m' = keys (set_all eqb entries []) ->
  set_all eqb entries m' = set_all eqb entries [].
Proof.
  intro E. symmetry. apply Map_ext.
  - apply set_all_NoDup. constructor.
  - rewrite (set_all_keys entries m'); [now symmetry|].
    intros k Hk. rewrite E. apply set_all_keys_incl. now left.
  - intros k Hk. apply set_all_keys_incl in Hk.
    destruct Hk as [Hk|[]]. now apply set_all_get.
Qed.
End MapFacts.

(** ** Building a collection again *)

Section Rebuild.
Import JS RegExp DataCollection Query.

Lemma String_eqb_spec (a b : string) : String.eqb a b = true <-> a = b.
Proof. apply String.eqb_eq. Qed.

Lemma Nat_eqb_spec (a b : nat) : Nat.eqb a b = true <-> a = b.
Proof. apply Nat.eqb_eq. Qed.

(** Each map of the registry is the entries of the declarations, set one
    after the other. *)
Lemma register_set_all (dataModel : list variable) :
  forall (index : nat) (m : Maps),
    let uids := uids_from index dataModel in
    let ordinals := seq index (List.length dataModel) in
    register index dataModel m
    = Maps_
        (set_all String.eqb (combine uids (map source_of dataModel)) (maps_uids m))
        (set_all String.eqb (combine (map source_of dataModel) uids)
           (maps_reverseUids m))
        (set_all String.eqb (combine uids ordinals) (maps_index m))
        (set_all Nat.eqb (combine ordinals uids) (maps_reverseIndex m))
        (set_all String.eqb (combine uids (map declared_type dataModel))
           (maps_types m))
        (set_all String.eqb (map (fun u => (u, "none")) uids) (maps_sorting m))
        (set_all String.eqb (map (fun u => (u, "")) uids) (maps_filtering m))
        (set_all String.eqb (combine uids (map declared_order dataModel))
           (maps_defaultOrder m)).
Proof.
  induction dataModel as [|v rest IH]; intros index m; simpl.
  - destruct m; reflexivity.
  - rewrite IH. reflexivity.
Qed.

(** A map of the registry, set again. *)
Lemma register_again (dataModel : list variable) (m' : Maps) :
  let m := register 0 dataModel empty_maps in
  keys (maps_uids m') = keys (maps_uids m) ->
  keys (maps_reverseUids m') = keys (maps_reverseUids m) ->
  keys (maps_index m') = keys (maps_index m) ->
  keys (maps_reverseIndex m') = keys (maps_reverseIndex m) ->
  keys (maps_types m') = keys (maps_types m) ->
  keys (maps_sorting m') = keys (maps_sorting m) ->
  keys (maps_filtering m') = keys (maps_filtering m) ->
  keys (maps_defaultOrder m') = keys (maps_defaultOrder m) ->
  register 0 dataModel m' = m.
Proof.
  intro m. subst m. rewrite !register_set_all. cbn zeta.
  cbn [maps_uids maps_reverseUids maps_index maps_reverseIndex maps_types
       maps_sorting maps_filtering maps_defaultOrder empty_maps].
  intros E1 E2 E3 E4 E5 E6 E7 E8.
  f_equal.
  - apply (set_all_again String.eqb String_eqb_spec); exact E1.
  - apply (set_all_again String.eqb String_eqb_spec); exact E2.
  - apply (set_all_again String.eqb String_eqb_spec); exact E3.
  - apply (set_all_again Nat.eqb Nat_eqb_spec); exact E4.
  - apply (set_all_again String.eqb String_eqb_spec); exact E5.
  - apply (set_all_again String.eqb String_eqb_spec); exact E6.
  - apply (set_all_again String.eqb String_eqb_spec); exact E7.
  - apply (set_all_again String.eqb String_eqb_spec); exact E8.
Qed.

Lemma createVariablesMaps_again (dataModel : list variable) (s : t) :
  Forall (fun v => truthy_property (sourceField v) = true) dataModel ->
  same_columns (with_maps (register 0 dataModel) (new dataModel)) s ->
  _createVariablesMaps s
  = (Ret tt, DataCollection_
               (Variables_ dataModel (List.length dataModel)
                  (register 0 dataModel empty_maps))
               (dataSet s) (temporaryDataSet s)).
Proof.
  intros H [El [Es [E1 [E2 [E3 [E4 [E5 [E6 [E7 E8]]]]]]]]].
  unfold _createVariablesMaps.
  destruct s as [[l sz m'] d td]. simpl in El, Es. subst l sz.
  cbn [variables variables_size].
  pose proof (for_loop_run dataModel [] []
                (DataCollection_ (Variables_ dataModel (List.length dataModel) m') d td))
    as R.
  change (List.length (@nil variable)) with 0%nat in R.
  rewrite R; [|simpl; now rewrite List.app_nil_r|exact H].
  unfold with_maps. cbn [variables variables_list variables_size variables_maps
                           dataSet temporaryDataSet].
  now rewrite register_again.
Qed.

Lemma same_columns_built (dataModel : list variable)
  (rawData : option (list rawRecord)) (s : t) :
  Forall (fun v => truthy_property (sourceField v) = true) dataModel ->
  same_columns (snd (buildDataCollection rawData (new dataModel))) s ->
  same_columns (with_maps (register 0 dataModel) (new dataModel)) s.
Proof.
  intros H S. unfold buildDataCollection, mbind in S.
  now rewrite (createVariablesMaps_registers dataModel H) in S.
Qed.

Lemma buildDataCollection_again (dataModel : list variable)
  (rawData rawData' : option (list rawRecord)) (s : t) :
  Forall (fun v => truthy_property (sourceField v) = true) dataModel ->
  same_columns (snd (buildDataCollection rawData (new dataModel))) s ->
  buildDataCollection rawData' s = buildDataCollection rawData' (new dataModel).
Proof.
  intros H S. apply same_columns_built in S; [|exact H].
  unfold buildDataCollection, mbind.
  rewrite (createVariablesMaps_again dataModel s H S).
  rewrite (createVariablesMaps_registers dataModel H).
  reflexivity.
Qed.

Lemma set_all_constant (c : string) (us : list string) :
  forall m : StrMap string,
    Forall (fun e => snd e = c) m ->
    Forall (fun e => snd e = c)
           (set_all String.eqb (map (fun u => (u, c)) us) m).
Proof.
  induction us as [|u us IH]; intros m F; [exact F|].
  unfold set_all in *. simpl. apply IH.
  clear IH. induction F as [|[k v] m Hv F IHF]; simpl.
  - repeat constructor.
  - destruct (String.eqb k u); constructor; auto.
Qed.

(** X2 (building again).  Let [this] be the collection
    [buildDataCollection] leaves from a new collection over a data model
    whose declarations all give a source field, and let [s] be a
    collection over that data model whose maps list the same keys in the
    same order, whatever sort states, filter texts and records it holds
    (such is [this] after the table or [removeAllData(true, false)] have
    acted on it).  Then building [s] again returns normally and gives
    exactly what building a new collection gives: the registry is the
    same, every sort state is back to 'none' and every filter text to '',
    and the data sets are the parsed records of the new raw data. *)
Theorem X2_build_again (dataModel : list variable)
  (rawData rawData' : option (list rawRecord)) (s : t) :
  Forall (fun v => truthy_property (sourceField v) = true) dataModel ->
  same_columns (snd (buildDataCollection rawData (new dataModel))) s ->
  buildDataCollection rawData' s = buildDataCollection rawData' (new dataModel)
  /\ fst (buildDataCollection rawData' s) = Ret tt
  /\ Forall (fun e => snd e = "none")
            (maps_sorting (maps (snd (buildDataCollection rawData' s))))
  /\ Forall (fun e => snd e = "")
            (maps_filtering (maps (snd (buildDataCollection rawData' s)))).
Proof.
  intros H S.
  rewrite (buildDataCollection_again dataModel rawData rawData' s H S).
  split; [reflexivity|].
  destruct (buildDataCollection_registers dataModel rawData' H)
    as [this' [-> [Em _]]].
  cbn [fst snd]. rewrite Em, register_set_all. cbn zeta.
  cbn [maps_sorting maps_filtering empty_maps].
  split; [reflexivity|].
  split; apply set_all_constant; constructor.
Qed.

Lemma X2_build_again_witness :
  let s := snd (removeAllData (VBool true) (VBool false) Examples.AB) in
  let rawData' := Some [[("A", num 5); ("B", VStr "five")]] in
  buildDataCollection rawData' s
  = buildDataCollection rawData' (new [field "A"; field "B"])
  /\ fst (buildDataCollection rawData' s) = Ret tt
  /\ Forall (fun e => snd e = "none")
            (maps_sorting (maps (snd (buildDataCollection rawData' s))))
  /\ Forall (fun e => snd e = "")
            (maps_filtering (maps (snd (buildDataCollection rawData' s)))).
Proof.
  apply (X2_build_again [field "A"; field "B"] (Some Examples.AB_raw)).
  - repeat constructor.
  - repeat split.
Defined.
End Rebuild.

(** ** Records added page after page *)

Section AddRecords.
Import JS RegExp DataCollection Query.

(** Parsing goes record by record. *)
Lemma parseRecords_map (this : t) (rawData : list rawRecord) :
  _parseRecords this (Some rawData)
  = map (fun dataPoint =>
           map (fun '(variableUID, variable) =>
                  _parseDataPoint (property dataPoint variable)
                    (get (maps_types (maps this)) variableUID))
               (maps_uids (maps this)))
        rawData.
Proof. destruct rawData; reflexivity. Qed.

Lemma parseRecords_app (this : t) (page1 page2 : list rawRecord) :
  _parseRecords this (Some (page1 ++ page2)%list)
  = (_parseRecords this (Some page1) ++ _parseRecords this (Some page2))%list.
Proof. rewrite !parseRecords_map. apply map_app. Qed.

Lemma parseRecords_length (this : t) (rawData : list rawRecord) :
  List.length (_parseRecords this (Some rawData)) = List.length rawData.
Proof. rewrite parseRecords_map. apply length_map. Qed.

(** Parsing reads the maps of the collection only. *)
Lemma parseRecords_maps (this this' : t) (rawData : option (list rawRecord)) :
  maps this = maps this' -> _parseRecords this rawData = _parseRecords this' rawData.
Proof. intro E. unfold _parseRecords. now rewrite E. Qed.

Lemma addRecords_some (this : t) (rawData : list rawRecord) :
  addRecords (Some rawData) this
  = (Ret tt, with_dataSet (dataSet this ++ _parseRecords this (Some rawData)) this).
Proof.
  destruct rawData as [|r rawData].
  - destruct this as [v d td]. unfold addRecords, with_dataSet. simpl.
    now rewrite List.app_nil_r.
  - reflexivity.
Qed.

(** X3 (records added page after page).  [addRecords] returns normally
    and appends the parsed records to the data set: a collection built
    from a first page to which a second page is added holds, in [dataSet],
    exactly the records of the collection built from the two pages at
    once, and the same registry.  Every record holds a data point
    (neither undefined nor null) for each column.  The temporary data
    set is not touched: it still holds the records of the first page
    only, until the table is refreshed.  Without raw data (none, or an
    empty array) [addRecords] changes nothing. *)
Theorem X3_addRecords_appends (dataModel : list variable)
  (page1 page2 : list rawRecord) :
  Forall (fun v => truthy_property (sourceField v) = true) dataModel ->
  let this1 := snd (buildDataCollection (Some page1) (new dataModel)) in
  let this2 := snd (addRecords (Some page2) this1) in
  let whole := snd (buildDataCollection (Some (page1 ++ page2)%list) (new dataModel)) in
  fst (addRecords (Some page2) this1) = Ret tt
  /\ dataSet this2 = dataSet whole
  /\ variables this2 = variables whole
  /\ List.length (dataSet this2) = (List.length page1 + List.length page2)%nat
  /\ (forall record, In record (dataSet this2) ->
        List.length record = List.length (maps_uids (maps this2))
        /\ Forall (fun v => nullish v = false) record)
  /\ temporaryDataSet this2 = dataSet this1
  /\ (forall this, addRecords None this = (Ret tt, this))
  /\ (forall this, addRecords (Some []) this = (Ret tt, this)).
Proof.
  intros H this1 this2 whole.
  destruct (buildDataCollection_registers dataModel (Some page1) H)
    as [b1 [E1 [M1 [D1 T1]]]].
  destruct (buildDataCollection_registers dataModel (Some (page1 ++ page2)%list) H)
    as [b12 [E12 [M12 [D12 T12]]]].
  assert (V : variables b1 = variables b12).
  { unfold buildDataCollection, mbind in E1, E12.
    rewrite (createVariablesMaps_registers dataModel H) in E1, E12.
    unfold _createDataSet in E1, E12.
    injection E1 as <-. injection E12 as <-. reflexivity. }
  subst this1 this2 whole. rewrite E1, E12. cbn [snd].
  rewrite addRecords_some. cbn [fst snd].
  assert (D : dataSet (with_dataSet (dataSet b1 ++ _parseRecords b1 (Some page2)) b1)
              = dataSet b12).
  { cbn [with_dataSet dataSet]. rewrite D1, D12, parseRecords_app.
    f_equal; apply parseRecords_maps; unfold maps; now rewrite V. }
  split; [reflexivity|]. split; [exact D|]. split; [exact V|].
  split; [|split; [|split; [|split]]].
  - rewrite D, D12, parseRecords_length. apply length_app.
  - intros record Hin. rewrite D, D12 in Hin.
    apply parseRecords_cells in Hin.
    change (maps (with_dataSet (dataSet b1 ++ _parseRecords b1 (Some page2)) b1))
      with (maps b1).
    unfold maps in *. now rewrite V.
  - cbn [with_dataSet temporaryDataSet]. exact T1.
  - reflexivity.
  - reflexivity.
Qed.

Lemma X3_addRecords_appends_witness :
  let dataModel := [typed_field "n" "number"; field "label"] in
  let page1 := firstn 4 Examples.ten_raw in
  let page2 := skipn 4 Examples.ten_raw in
  let this1 := snd (buildDataCollection (Some page1) (new dataModel)) in
  let this2 := snd (addRecords (Some page2) this1) in
  let whole := snd (buildDataCollection (Some (page1 ++ page2)%list) (new dataModel)) in
  fst (addRecords (Some page2) this1) = Ret tt
  /\ dataSet this2 = dataSet whole
  /\ variables this2 = variables whole
  /\ List.length (dataSet this2) = (List.length page1 + List.length page2)%nat
  /\ (forall record, In record (dataSet this2) ->
        List.length record = List.length (maps_uids (maps this2))
        /\ Forall (fun v => nullish v = false) record)
  /\ temporaryDataSet this2 = dataSet this1
  /\ (forall this, addRecords None this = (Ret tt, this))
  /\ (forall this, addRecords (Some []) this = (Ret tt, this)).
Proof.
  apply (X3_addRecords_appends [typed_field "n" "number"; field "label"]
           (firstn 4 Examples.ten_raw) (skipn 4 Examples.ten_raw)).
  repeat constructor.
Defined.
End AddRecords.

(** ** The table built on a collection *)

Section MapKeys.
Import JS Query.
Context {K V : Type}.
Variable eqb : K -> K -> bool.
Hypothesis eqb_spec : forall a b, eqb a b = true <-> a = b.

Lemma Map_get_in (m : list (K * V)) (k : K) :
  In k (keys m) -> exists v, Map_get eqb m k = Some v.
Proof.
  unfold keys. induction m as [|[k0 v0] m IH]; intro H; simpl in *.
  - contradiction.
  - destruct (eqb k0 k) eqn:E; [now exists v0|].
    destruct H as [->|H]; [|now apply IH].
    now rewrite (eqb_same eqb eqb_spec) in E.
Qed.


(** The keys a map lists after a [set] depend on its keys alone. *)
Lemma Map_set_keys_ext {W} (m : list (K * V)) :
  forall (m' : list (K * W)) (k : K) (v : V) (w : W),
    keys m = keys m' -> keys (Map_set eqb m k v) = keys (Map_set eqb m' k w).
Proof.
  unfold keys.
  induction m as [|[k0 v0] m IH]; intros [|[k1 w1] m'] k v w E;
    try discriminate; [reflexivity|].
  simpl in E. injection E as <- E. simpl.
  destruct (eqb k0 k); simpl; f_equal; auto.
Qed.

Lemma set_all_keys_ext {W} (entries : list (K * V)) :
  forall (entries' : list (K * W)) (m : list (K * V)) (m' : list (K * W)),
    keys entries = keys entries' -> keys m = keys m' ->
    keys (set_all eqb entries m) = keys (set_all eqb entries' m').
Proof.
  induction entries as [|[k v] entries IH]; intros [|[k' w] entries'] m m' E Em;
    try discriminate; [exact Em|].
  unfold keys in E. simpl in E. injection E as <- E.
  rewrite !set_all_cons. apply IH; [exact E|].
  now apply Map_set_keys_ext.
Qed.

End MapKeys.

Section TableFacts.
Import JS RegExp DataCollection Query.
Variable Date_parse : string -> number.



Lemma In_uids_from (dataModel : list variable) :
  forall (index : nat) (u : string),
    In u (uids_from index dataModel) -> truthy_string u = true.
Proof.
  induction dataModel as [|d rest IH]; intros index u H; simpl in H.
  - contradiction.
  - destruct H as [<-|H]; [apply variableUID_truthy|now apply (IH (S index))].
Qed.

Lemma keys_combine {A B} (l : list A) (l' : list B) :
  List.length l = List.length l' -> keys (combine l l') = l.
Proof. apply map_fst_combine_eq. Qed.

Lemma keys_constant {A} (c : A) (us : list string) :
  keys (map (fun u => (u, c)) us) = us.
Proof.
  unfold keys. rewrite map_map. simpl. apply map_id.
Qed.

(** The keys of every map of a registry are UIDs of the data model, and
    every UID is a key of the index. *)
Lemma register_keys (dataModel : list variable) :
  let m := register 0 dataModel empty_maps in
  let uids := uids_from 0 dataModel in
  keys (maps_sorting m) = keys (maps_uids m)
  /\ keys (maps_filtering m) = keys (maps_uids m)
  /\ keys (maps_defaultOrder m) = keys (maps_uids m)
  /\ keys (maps_index m) = keys (maps_uids m)
  /\ keys (maps_types m) = keys (maps_uids m)
  /\ NoDup (keys (maps_uids m))
  /\ (forall u, In u (keys (maps_uids m)) <-> In u uids).
Proof.
  cbn zeta. rewrite register_set_all. cbn zeta.
  cbn [maps_uids maps_index maps_sorting maps_filtering maps_defaultOrder
       maps_types empty_maps].
  assert (L : forall {B} (f : variable -> B),
             List.length (uids_from 0 dataModel) = List.length (map f dataModel))
    by (intros; now rewrite uids_from_length, length_map).
  repeat split.
  - apply set_all_keys_ext; [|reflexivity].
    now rewrite keys_constant, keys_combine.
  - apply set_all_keys_ext; [|reflexivity].
    now rewrite keys_constant, keys_combine.
  - apply set_all_keys_ext; [|reflexivity].
    now rewrite !keys_combine.
  - apply set_all_keys_ext; [|reflexivity].
    rewrite !keys_combine; auto. now rewrite uids_from_length, length_seq.
  - apply set_all_keys_ext; [|reflexivity].
    now rewrite !keys_combine.
  - apply set_all_NoDup; [apply String_eqb_spec|constructor].
  - intro Hin. apply (set_all_keys_incl _ String_eqb_spec) in Hin.
    destruct Hin as [Hin|[]]. now rewrite keys_combine in Hin.
  - intro Hin. apply (set_all_keys_incl _ String_eqb_spec). left.
    now rewrite keys_combine.
Qed.






End TableFacts.


(** ** What the table shows *)

Section TableViews.
Import JS RegExp DataCollection Query.
Variable Date_parse : string -> number.





End TableViews.

Section TableViewsWitnesses.
Import JS RegExp DataCollection Query.


End TableViewsWitnesses.

(** ** Declarations that share a UID *)

Section DuplicateUids.
Import JS RegExp DataCollection Query.

Lemma register_app (pre post : list variable) :
  forall (index : nat) (m : Maps),
    register index (pre ++ post) m
    = register (index + List.length pre) post (register index pre m).
Proof.
  induction pre as [|v pre IH]; intros index m; simpl.
  - now rewrite Nat.add_0_r.
  - rewrite IH. f_equal. lia.
Qed.

(** The index of the UID of the last declaration is the last ordinal. *)
Lemma register_last_index (pre : list variable) (v : variable) :
  get (maps_index (register 0 (pre ++ [v]) empty_maps))
      (variableUID_of (List.length pre) v)
  = Some (List.length pre).
Proof.
  rewrite register_app. simpl. apply get_set_same.
Qed.

Lemma uids_from_last (pre : list variable) (v : variable) :
  forall a : nat,
    In (variableUID_of (a + List.length pre) v) (uids_from a (pre ++ [v])).
Proof.
  induction pre as [|p pre IH]; intro a; simpl.
  - rewrite Nat.add_0_r. now left.
  - right. replace (a + S (List.length pre))%nat
      with (S a + List.length pre)%nat by lia.
    apply IH.
Qed.

Lemma filter_all {A} (p : A -> bool) (l : list A) :
  (forall x, In x l -> p x = true) -> filter p l = l.
Proof.
  induction l as [|x l IH]; intro H; simpl.
  - reflexivity.
  - rewrite (H x (or_introl eq_refl)). f_equal. apply IH.
    intros y Hy. apply H. now right.
Qed.

(** With empty filter texts, the passes of [filterRecords] keep every
    record until they reach a column whose index is past the end of the
    records: there the first record has no cell, and reading its text
    throws. *)
Lemma forEach_filter_throws (this : t) (L : nat) (records : list record)
  (F : StrMap string) :
  records <> [] ->
  (forall r, In r records ->
     List.length r = L /\ Forall (fun v => nullish v = false) r) ->
  (forall e, In e F ->
     snd e = "" /\ truthy_string (fst e) = true
     /\ exists k, get (maps_index (maps this)) (fst e) = Some k) ->
  (exists e k, In e F /\ get (maps_index (maps this)) (fst e) = Some k
               /\ (L <= k)%nat) ->
  forEach (filter_pass this) F records
  = Throw (TypeError "Cannot read properties of undefined (reading 'toString')").
Proof.
  intros Hne Hc. induction F as [|[u v] F IH]; intros Hf [e [k [Hin [Hk Lk]]]].
  - contradiction.
  - destruct (Hf (u, v) (or_introl eq_refl)) as [Ev [Tu [k0 Hk0]]].
    simpl in Ev, Tu, Hk0. subst v.
    cbn [forEach].
    destruct (Nat.lt_ge_cases k0 L) as [Lt|Ge].
    + rewrite filter_pass_total.
      * cbn [bind]. rewrite filter_all.
        -- apply IH.
           ++ intros e' He'. apply Hf. now right.
           ++ destruct Hin as [<-|Hin].
              ** simpl in Hk. rewrite Hk0 in Hk. injection Hk as <-. lia.
              ** exists e, k. auto.
        -- intros r _. apply includes_empty.
      * intros r Hr. destruct (Hc r Hr) as [Hl Hd].
        unfold variableIndex_of. rewrite Tu, Hk0. simpl.
        replace (Z.of_nat k0 <? 0) with false by (symmetry; apply Z.ltb_ge; lia).
        rewrite Nat2Z.id. unfold Array_get.
        rewrite Forall_forall in Hd. apply Hd, nth_In. lia.
    + destruct records as [|r records]; [contradiction|].
      destruct (Hc r (or_introl eq_refl)) as [Hl _].
      unfold filter_pass, variableIndex_of. rewrite Tu, Hk0.
      cbn [Array_filter option_map element].
      replace (Z.of_nat k0 <? 0) with false by (symmetry; apply Z.ltb_ge; lia).
      rewrite Nat2Z.id. unfold Array_get.
      rewrite nth_overflow by lia. reflexivity.
Qed.

(** With a repeated UID the registry lists fewer columns than there are
    declarations. *)
Lemma register_fewer_columns (dataModel : list variable) :
  ~ NoDup (uids_from 0 dataModel) ->
  (List.length (maps_uids (register 0 dataModel empty_maps))
   < List.length dataModel)%nat.
Proof.
  intro D.
  destruct (register_keys dataModel) as [_ [_ [_ [_ [_ [N U]]]]]].
  cbn zeta in *.
  set (K := keys (maps_uids (register 0 dataModel empty_maps))) in *.
  assert (Lk : List.length K
               = List.length (maps_uids (register 0 dataModel empty_maps)))
    by apply length_map.
  rewrite <- Lk, <- (uids_from_length dataModel 0).
  assert (I : incl K (uids_from 0 dataModel)) by (intros u Hu; now apply U).
  pose proof (NoDup_incl_length N I) as Le.
  destruct (Nat.eq_dec (List.length K) (List.length (uids_from 0 dataModel)))
    as [Eq|Ne]; [|lia].
  exfalso. apply D.
  apply (NoDup_incl_NoDup N); [lia|].
  intros u Hu. now apply U.
Qed.

(** X7 (declarations that share a UID).  The check of
    [_createVariablesMaps] against repeated UIDs never fires, so a data
    model in which two declarations resolve to the same UID is built
    without an error.  The collection is then unfit for filtering: with
    at least one record loaded, [filterRecords] on the data set throws a
    TypeError although every filter text is empty, and so does
    [refreshTable]: the records hold one cell per distinct UID, fewer than
    the ordinal of the last declaration, which some column of the filter
    map is indexed by. *)
Theorem X7_duplicate_uid_breaks_filtering (dataModel : list variable)
  (rawData : list rawRecord) :
  Forall (fun v => truthy_property (sourceField v) = true) dataModel ->
  ~ NoDup (uids_from 0 dataModel) ->
  rawData <> [] ->
  let this' := snd (buildDataCollection (Some rawData) (new dataModel)) in
  fst (buildDataCollection (Some rawData) (new dataModel)) = Ret tt
  /\ filterRecords this' (dataSet this')
     = Throw (TypeError "Cannot read properties of undefined (reading 'toString')")
  /\ forall Date_parse : string -> number,
       fst (Table.refreshTable Date_parse this')
       = Throw (TypeError "Cannot read properties of undefined (reading 'toString')").
Proof.
  intros H D Hne this'.
  destruct (buildDataCollection_registers dataModel (Some rawData) H)
    as [b [E [M [Ds _]]]].
  subst this'. rewrite E. cbn [fst snd]. split; [reflexivity|].
  assert (Ef : filterRecords b (dataSet b)
               = Throw (TypeError "Cannot read properties of undefined (reading 'toString')")).
  { unfold filterRecords.
    apply (forEach_filter_throws b (List.length (maps_uids (maps b)))).
    - rewrite Ds. intro E0.
      apply (f_equal (@List.length record)) in E0.
      rewrite parseRecords_length in E0. destruct rawData; [congruence|discriminate].
    - intros r Hr. rewrite Ds in Hr. now apply parseRecords_cells in Hr.
    - intros [u v] Hin. rewrite M in *.
      destruct (register_keys dataModel) as [_ [Kf [_ [Ki [_ [_ U]]]]]].
      cbn zeta in *.
      assert (Hu : In u (keys (maps_uids (register 0 dataModel empty_maps)))).
      { rewrite <- Kf. unfold keys. now apply (in_map fst) in Hin. }
      split; [|split].
      + rewrite register_set_all in Hin. cbn zeta in Hin.
        cbn [maps_filtering empty_maps] in Hin.
        pose proof (set_all_constant "" (uids_from 0 dataModel) [] (Forall_nil _)) as Fc.
        rewrite Forall_forall in Fc. exact (Fc _ Hin).
      + apply U in Hu. now apply In_uids_from in Hu.
      + apply (Map_get_in String.eqb String_eqb_spec). now rewrite Ki.
    - rewrite M.
      destruct (register_keys dataModel) as [_ [Kf [_ [_ [_ [_ U]]]]]].
      cbn zeta in *.
      destruct (exists_last (l := dataModel)) as [pre [v Edm]].
      { intros ->. apply D. constructor. }
      pose proof (register_last_index pre v) as Li. rewrite <- Edm in Li.
      set (u := variableUID_of (List.length pre) v) in *.
      assert (Hu : In u (keys (maps_filtering (register 0 dataModel empty_maps)))).
      { rewrite Kf. apply U. rewrite Edm.
        apply (uids_from_last pre v 0). }
      unfold keys in Hu. apply in_map_iff in Hu. destruct Hu as [[u' v'] [Eu Hu]].
      simpl in Eu. subst u'.
      exists (u, v'), (List.length pre). split; [exact Hu|]. split; [exact Li|].
      pose proof (register_fewer_columns dataModel D) as Lt.
      rewrite Edm, length_app in Lt. simpl in Lt.
      rewrite Edm. lia. }
  split; [exact Ef|].
  intro Date_parse. unfold Table.refreshTable, mbind, read.
  unfold sortRecords. rewrite forEach_sort_none.
  - cbv beta iota. fold (filterRecords b (dataSet b)). rewrite Ef. reflexivity.
  - rewrite M, register_set_all. cbn zeta. cbn [maps_sorting empty_maps].
    apply set_all_constant. constructor.
Qed.

Lemma X7_duplicate_uid_breaks_filtering_witness :
  let dataModel := [Variable_ (Some "name") (Some "first") None None;
                    Variable_ (Some "name") (Some "last") None None] in
  let rawData := [[("first", VStr "Ada"); ("last", VStr "Lovelace")]] in
  let this' := snd (buildDataCollection (Some rawData) (new dataModel)) in
  fst (buildDataCollection (Some rawData) (new dataModel)) = Ret tt
  /\ filterRecords this' (dataSet this')
     = Throw (TypeError "Cannot read properties of undefined (reading 'toString')")
  /\ forall Date_parse : string -> number,
       fst (Table.refreshTable Date_parse this')
       = Throw (TypeError "Cannot read properties of undefined (reading 'toString')").
Proof.
  apply (X7_duplicate_uid_breaks_filtering
           [Variable_ (Some "name") (Some "first") None None;
            Variable_ (Some "name") (Some "last") None None]
           [[("first", VStr "Ada"); ("last", VStr "Lovelace")]]).
  - repeat constructor.
  - intro N. inversion N as [|? ? Hin _]. apply Hin. now left.
  - discriminate.
Defined.
End DuplicateUids.

(** ** Reading records with [getDataPoints] *)

Section GetDataPoints.
Import JS RegExp DataCollection Query.

Lemma indices_S (first : Z) (count : nat) :
  indices first (S count) = first :: indices (first + 1) count.
Proof.
  unfold indices. simpl. rewrite Z.add_0_r. f_equal.
  rewrite <- seq_shift, map_map. apply map_ext. intro k. lia.
Qed.

(** Without columns, the loop pushes what stands at each index, a record
    or undefined. *)
Lemma getDataPoints_loop_rows (this : t) (targetData : list record)
  (variableUIDs : option uids) (lastRecordIndex : Z) (fuel : nat) :
  truthy_uids variableUIDs = false ->
  forall a : Z,
    (fuel <> 0%nat -> a + Z.of_nat fuel - 1 <= lastRecordIndex) ->
    getDataPoints_loop this targetData variableUIDs lastRecordIndex fuel a
    = Ret (map (row_at targetData) (indices a fuel)).
Proof.
  intro T. induction fuel as [|fuel IH]; intros a L.
  - reflexivity.
  - cbn [getDataPoints_loop].
    replace (a <=? lastRecordIndex) with true by (symmetry; apply Z.leb_le; lia).
    unfold pushed_at. rewrite T.
    replace (match variableUIDs with
             | Some _ => Ret (row_at targetData a)
             | None => Ret (row_at targetData a)
             end) with (Ret (row_at targetData a))
      by (destruct variableUIDs; reflexivity).
    cbn [bind]. rewrite IH by lia. cbn [bind].
    now rewrite indices_S.
Qed.

Lemma skipn_nth_error {A} (l : list A) :
  forall (i : nat) (x : A),
    nth_error l i = Some x -> skipn i l = x :: skipn (S i) l.
Proof.
  induction l as [|y l IH]; intros [|i] x E; try discriminate.
  - injection E as ->. reflexivity.
  - simpl in E. rewrite (IH i x E) at 1. reflexivity.
Qed.

Lemma variablesData_of_row (this : t) (r : record) (variableUIDs : list string) :
  variablesData_of this (Some r) variableUIDs = Ret (cells this variableUIDs r).
Proof.
  induction variableUIDs as [|u us IH]; simpl.
  - reflexivity.
  - rewrite IH. reflexivity.
Qed.

(** With columns, the loop pushes the cells of each record. *)
Lemma getDataPoints_loop_cells (this : t) (targetData : list record)
  (u : uids) (lastRecordIndex : Z) (fuel : nat) :
  truthy_uids (Some u) = true ->
  forall a : Z,
    0 <= a ->
    (fuel <> 0%nat -> a + Z.of_nat fuel - 1 <= lastRecordIndex) ->
    (fuel <> 0%nat -> a + Z.of_nat fuel <= Z.of_nat (List.length targetData)) ->
    getDataPoints_loop this targetData (Some u) lastRecordIndex fuel a
    = Ret (map (fun r => Some (cells this (as_array u) r))
               (firstn fuel (skipn (Z.to_nat a) targetData))).
Proof.
  intro T. induction fuel as [|fuel IH]; intros a A L B.
  - reflexivity.
  - cbn [getDataPoints_loop].
    replace (a <=? lastRecordIndex) with true by (symmetry; apply Z.leb_le; lia).
    unfold pushed_at. rewrite T. unfold row_at.
    replace (a <? 0) with false by (symmetry; apply Z.ltb_ge; lia).
    destruct (nth_error targetData (Z.to_nat a)) as [r|] eqn:E.
    + rewrite variablesData_of_row. cbn [bind].
      rewrite IH by lia. cbn [bind].
      replace (Z.to_nat (a + 1)) with (S (Z.to_nat a)) by lia.
      rewrite (skipn_nth_error _ _ _ E). reflexivity.
    + apply nth_error_None in E. lia.
Qed.

Lemma map_row_at (targetData : list record) (fuel : nat) :
  forall a : Z,
    0 <= a ->
    (fuel <> 0%nat -> a + Z.of_nat fuel <= Z.of_nat (List.length targetData)) ->
    map (row_at targetData) (indices a fuel)
    = map Some (firstn fuel (skipn (Z.to_nat a) targetData)).
Proof.
  induction fuel as [|fuel IH]; intros a A B.
  - reflexivity.
  - rewrite indices_S. cbn [map]. rewrite IH by lia.
    unfold row_at.
    replace (a <? 0) with false by (symmetry; apply Z.ltb_ge; lia).
    destruct (nth_error targetData (Z.to_nat a)) as [r|] eqn:E.
    + replace (Z.to_nat (a + 1)) with (S (Z.to_nat a)) by lia.
      rewrite (skipn_nth_error _ _ _ E). reflexivity.
    + apply nth_error_None in E. lia.
Qed.

Lemma getDataPoints_reads (this : t) (type : option string)
  (targetData : list record) (first last : option Z) (u : option uids) :
  reads this type targetData ->
  getDataPoints this type first last u
  = let firstRecordIndex := match first with Some f => f | None => 0 end in
    let lastRecordIndex :=
      match last with
      | Some l => l
      | None => Z.of_nat (List.length targetData) - 1
      end in
    getDataPoints_loop this targetData u lastRecordIndex
      (Z.to_nat (lastRecordIndex - firstRecordIndex + 1)) firstRecordIndex.
Proof.
  intros [[H E]|[E1 E2]]; subst.
  - destruct H as [E|[E|E]]; subst; reflexivity.
  - reflexivity.
Qed.

(** X8 (reading a range of records).  For a type that names a data set
    ('initial', 'temporary', or none) and indices within that data set,
    [getDataPoints] returns the records at the positions
    [firstRecordIndex] to [lastRecordIndex], both included, in their
    order: [lastRecordIndex - firstRecordIndex + 1] of them when the range
    is not empty.  With UIDs (a string or an array, the empty string
    counting as none) it returns, for each of those records, its cells in
    the columns named, a UID that is not registered giving undefined.
    Without indices it returns the whole data set. *)
Theorem X8_getDataPoints_range (this : t) (type : option string)
  (targetData : list record) (first last : Z) :
  reads this type targetData ->
  0 <= first ->
  last < Z.of_nat (List.length targetData) ->
  getDataPoints this type (Some first) (Some last) None
  = Ret (map Some (rows_between first last targetData))
  /\ (forall u : uids,
        getDataPoints this type (Some first) (Some last) (Some u)
        = if truthy_uids (Some u)
          then Ret (map (fun r => Some (cells this (as_array u) r))
                        (rows_between first last targetData))
          else Ret (map Some (rows_between first last targetData)))
  /\ (first <= last + 1 ->
      List.length (rows_between first last targetData)
      = Z.to_nat (last - first + 1))
  /\ (forall i, first <= i <= last ->
        nth_error (rows_between first last targetData) (Z.to_nat (i - first))
        = nth_error targetData (Z.to_nat i))
  /\ getDataPoints this type None None None = Ret (map Some targetData).
Proof.
  intros R F L.
  assert (G : forall u, truthy_uids u = false ->
              getDataPoints this type (Some first) (Some last) u
              = Ret (map Some (rows_between first last targetData))).
  { intros u T. rewrite (getDataPoints_reads this type targetData _ _ _ R). cbn zeta.
    rewrite getDataPoints_loop_rows by (auto; lia).
    rewrite map_row_at by lia. reflexivity. }
  split; [apply G; reflexivity|]. split; [|split; [|split]].
  - intro u. destruct (truthy_uids (Some u)) eqn:T; [|now apply G].
    rewrite (getDataPoints_reads this type targetData _ _ _ R). cbn zeta.
    rewrite getDataPoints_loop_cells by (auto; lia). reflexivity.
  - intro Le. unfold rows_between.
    rewrite firstn_length_le; [reflexivity|]. rewrite length_skipn. lia.
  - intros i Hi. unfold rows_between.
    rewrite nth_error_firstn.
    replace (Z.to_nat (i - first) <? Z.to_nat (last - first + 1))%nat with true
      by (symmetry; apply Nat.ltb_lt; lia).
    rewrite nth_error_skipn. f_equal. lia.
  - rewrite (getDataPoints_reads this type targetData _ _ _ R). cbn zeta.
    rewrite getDataPoints_loop_rows by (auto; lia).
    rewrite map_row_at by lia.
    replace (Z.to_nat (Z.of_nat (List.length targetData) - 1 - 0 + 1))
      with (List.length targetData) by lia.
    simpl. now rewrite firstn_all.
Qed.

Lemma X8_getDataPoints_range_witness :
  getDataPoints Examples.ten None (Some 2) (Some 4) None
  = Ret (map Some (rows_between 2 4 (dataSet Examples.ten)))
  /\ (forall u : uids,
        getDataPoints Examples.ten None (Some 2) (Some 4) (Some u)
        = if truthy_uids (Some u)
          then Ret (map (fun r => Some (cells Examples.ten (as_array u) r))
                        (rows_between 2 4 (dataSet Examples.ten)))
          else Ret (map Some (rows_between 2 4 (dataSet Examples.ten))))
  /\ (2 <= 4 + 1 ->
      List.length (rows_between 2 4 (dataSet Examples.ten))
      = Z.to_nat (4 - 2 + 1))
  /\ (forall i, 2 <= i <= 4 ->
        nth_error (rows_between 2 4 (dataSet Examples.ten)) (Z.to_nat (i - 2))
        = nth_error (dataSet Examples.ten) (Z.to_nat i))
  /\ getDataPoints Examples.ten None None None None
     = Ret (map Some (dataSet Examples.ten)).
Proof.
  apply (X8_getDataPoints_range Examples.ten None (dataSet Examples.ten) 2 4).
  - left. split; [now left|reflexivity].
  - lia.
  - simpl. lia.
Defined.

(** With columns, the loop throws at the first index that holds no
    record. *)
Lemma getDataPoints_loop_throws (this : t) (targetData : list record)
  (u : uids) (lastRecordIndex : Z) (fuel : nat) :
  truthy_uids (Some u) = true ->
  as_array u <> [] ->
  Z.of_nat (List.length targetData) <= lastRecordIndex ->
  forall a : Z,
    0 <= a <= lastRecordIndex ->
    Z.of_nat fuel = lastRecordIndex - a + 1 ->
    getDataPoints_loop this targetData (Some u) lastRecordIndex fuel a
    = Throw (TypeError "Cannot read properties of undefined").
Proof.
  intros T Ne B. induction fuel as [|fuel IH]; intros a A Ef.
  - lia.
  - cbn [getDataPoints_loop].
    replace (a <=? lastRecordIndex) with true by (symmetry; apply Z.leb_le; lia).
    unfold pushed_at. rewrite T. unfold row_at.
    replace (a <? 0) with false by (symmetry; apply Z.ltb_ge; lia).
    destruct (nth_error targetData (Z.to_nat a)) as [r|] eqn:E.
    + rewrite variablesData_of_row. cbn [bind].
      assert (a < Z.of_nat (List.length targetData)).
      { assert (Z.to_nat a < List.length targetData)%nat
          by (apply nth_error_Some; congruence). lia. }
      rewrite IH by lia. reflexivity.
    + destruct (as_array u) as [|x xs]; [congruence|]. reflexivity.
Qed.

(** X9 (reading past the end).  When [lastRecordIndex] is not below the
    number of records, [getDataPoints] without columns still returns
    [lastRecordIndex - firstRecordIndex + 1] elements: undefined stands
    for each index that holds no record, the last one among them.  With
    at least one column named it throws a TypeError instead.  A type that
    names no data set reads an empty data set: without indices the result
    is empty, and the index 0 gives one undefined element. *)
Theorem X9_getDataPoints_past_the_end (this : t) (type : option string)
  (targetData : list record) (first last : Z) :
  reads this type targetData ->
  0 <= first <= last ->
  Z.of_nat (List.length targetData) <= last ->
  (exists records,
      getDataPoints this type (Some first) (Some last) None = Ret records
      /\ List.length records = Z.to_nat (last - first + 1)
      /\ (forall i, first <= i <= last ->
            nth_error records (Z.to_nat (i - first))
            = Some (nth_error targetData (Z.to_nat i)))
      /\ nth_error records (Z.to_nat (last - first)) = Some None)
  /\ (forall u : uids,
        truthy_uids (Some u) = true -> as_array u <> [] ->
        getDataPoints this type (Some first) (Some last) (Some u)
        = Throw (TypeError "Cannot read properties of undefined"))
  /\ (forall ty, ty <> "" -> ty <> "initial" -> ty <> "temporary" ->
        getDataPoints this (Some ty) None None None = Ret []
        /\ getDataPoints this (Some ty) None (Some 0) None = Ret [None]).
Proof.
  intros R F L. split; [|split].
  - exists (map (row_at targetData) (indices first (Z.to_nat (last - first + 1)))).
    rewrite (getDataPoints_reads this type targetData _ _ _ R). cbn zeta.
    rewrite getDataPoints_loop_rows by (auto; lia).
    split; [reflexivity|].
    assert (N : forall i, first <= i <= last ->
                nth_error (map (row_at targetData)
                             (indices first (Z.to_nat (last - first + 1))))
                          (Z.to_nat (i - first))
                = Some (nth_error targetData (Z.to_nat i))).
    { intros i Hi. rewrite nth_error_map. unfold indices.
      rewrite nth_error_map, nth_error_seq.
      replace (Z.to_nat (i - first) <? Z.to_nat (last - first + 1))%nat with true
        by (symmetry; apply Nat.ltb_lt; lia).
      simpl. unfold row_at.
      replace (first + Z.of_nat (Z.to_nat (i - first))) with i by lia.
      replace (i <? 0) with false by (symmetry; apply Z.ltb_ge; lia).
      reflexivity. }
    split; [|split; [exact N|]].
    + unfold indices. now rewrite !length_map, length_seq.
    + rewrite (N last) by lia. f_equal. apply nth_error_None. lia.
  - intros u T Ne. rewrite (getDataPoints_reads this type targetData _ _ _ R). cbn zeta.
    apply getDataPoints_loop_throws; auto; lia.
  - intros ty N1 N2 N3. unfold getDataPoints, truthy_string.
    apply String.eqb_neq in N1, N2, N3. rewrite N1. cbn [negb]. cbv zeta.
    rewrite N2, N3. split; reflexivity.
Qed.

Lemma X9_getDataPoints_past_the_end_witness :
  (exists records,
      getDataPoints Examples.ten None (Some 8) (Some 10) None = Ret records
      /\ List.length records = Z.to_nat (10 - 8 + 1)
      /\ (forall i, 8 <= i <= 10 ->
            nth_error records (Z.to_nat (i - 8))
            = Some (nth_error (dataSet Examples.ten) (Z.to_nat i)))
      /\ nth_error records (Z.to_nat (10 - 8)) = Some None)
  /\ (forall u : uids,
        truthy_uids (Some u) = true -> as_array u <> [] ->
        getDataPoints Examples.ten None (Some 8) (Some 10) (Some u)
        = Throw (TypeError "Cannot read properties of undefined"))
  /\ (forall ty, ty <> "" -> ty <> "initial" -> ty <> "temporary" ->
        getDataPoints Examples.ten (Some ty) None None None = Ret []
        /\ getDataPoints Examples.ten (Some ty) None (Some 0) None = Ret [None]).
Proof.
  apply (X9_getDataPoints_past_the_end Examples.ten None (dataSet Examples.ten) 8 10).
  - left. split; [now left|reflexivity].
  - lia.
  - simpl. lia.
Defined.
End GetDataPoints.

(** ** When sorting throws *)

Section SortErrors.
Import JS RegExp DataCollection Query.
Variable Date_parse : string -> number.

Lemma sort_pass_unusable (this : t) (ordering variableUID : string)
  (records : list record) :
  String.eqb ordering "none" = false ->
  ~ usable this (variableUID, ordering) ->
  sort_pass Date_parse this ordering variableUID records
  = Throw (ErrorObject "Error: variable NOT found.").
Proof.
  intros N U. unfold sort_pass, variableIndex_of, usable in *. rewrite N.
  simpl in *. destruct (truthy_string variableUID); [|reflexivity].
  destruct (get (maps_index (maps this)) variableUID) as [k|]; simpl.
  - exfalso. apply U. split; [reflexivity|now exists k].
  - reflexivity.
Qed.

Lemma usable_dec (this : t) (e : string * string) :
  {usable this e} + {~ usable this e}.
Proof.
  unfold usable. destruct (truthy_string (fst e)).
  - destruct (get (maps_index (maps this)) (fst e)) as [k|].
    + left. split; [reflexivity|now exists k].
    + right. intros [_ [k Hk]]. discriminate.
  - right. intros [H _]. discriminate.
Qed.

(** X10 (when sorting throws).  [sortRecords] throws exactly when the
    sorting map holds, for a state other than 'none', a column the code
    cannot sort by: one whose UID is empty or has no index.  It then
    throws [Error('Error: variable NOT found.')] whatever the records
    are, an empty array included.  In every other case it returns
    normally, and what it returns holds the records it was given, each as
    many times, in another order; a column that cannot be sorted by is
    harmless as long as its state is 'none'. *)
Theorem X10_sortRecords_throws_iff (this : t) (records : list record) :
  (Forall (fun e => snd e = "none" \/ usable this e) (maps_sorting (maps this)) ->
   exists out,
     sortRecords Date_parse this records = Ret out /\ Permutation records out)
  /\ (~ Forall (fun e => snd e = "none" \/ usable this e) (maps_sorting (maps this)) ->
      sortRecords Date_parse this records
      = Throw (ErrorObject "Error: variable NOT found.")).
Proof.
  unfold sortRecords. generalize (maps_sorting (maps this)) as m.
  intro m. revert records. induction m as [|[u o] m IH]; intro records.
  - split.
    + intros _. exists records. split; [reflexivity|apply Permutation_refl].
    + intro N. exfalso. apply N. constructor.
  - cbn [forEach]. split.
    + intro F. inversion F as [|? ? Hh Ht]; subst. simpl in Hh.
      destruct (String.eqb o "none") eqn:Eo.
      * apply String.eqb_eq in Eo. subst o. rewrite sort_pass_none. cbn [bind].
        now apply IH.
      * destruct Hh as [Hh|[Tu [k Hk]]];
          [subst o; now rewrite String.eqb_refl in Eo|].
        simpl in Tu, Hk.
        rewrite (sort_pass_sorts Date_parse this o u k records Eo Tu Hk).
        cbn [bind].
        destruct (proj1 (IH (Array_sort
                    (compare Date_parse (order_of o) (Some (Z.of_nat k))) records)) Ht)
          as [out [E P]].
        exists out. split; [exact E|].
        eapply perm_trans; [apply Array_sort_perm|exact P].
    + intro N.
      destruct (String.eqb o "none") eqn:Eo.
      * apply String.eqb_eq in Eo. subst o. rewrite sort_pass_none. cbn [bind].
        apply IH. intro F. apply N. constructor; [now left|exact F].
      * destruct (usable_dec this (u, o)) as [U|U].
        -- destruct U as [Tu [k Hk]]. simpl in Tu, Hk.
           rewrite (sort_pass_sorts Date_parse this o u k records Eo Tu Hk).
           cbn [bind]. apply IH. intro F. apply N. constructor; [|exact F].
           right. split; [exact Tu|now exists k].
        -- now rewrite sort_pass_unusable.
Qed.
End SortErrors.

(** ** Laws of filtering *)

Section FilterLaws.
Import JS RegExp DataCollection Query.





End FilterLaws.

(** ** Narrowing a filter *)

Section FilterNarrowing.
Import JS RegExp DataCollection Query.

Lemma toLowerCase_app (s u : string) :
  toLowerCase (s ++ u) = toLowerCase s ++ toLowerCase u.
Proof. induction s as [|c s IH]; simpl; [reflexivity|now rewrite IH]. Qed.

Lemma string_app_assoc (a b c : string) : (a ++ b) ++ c = a ++ (b ++ c).
Proof. induction a as [|x a IH]; simpl; [reflexivity|now rewrite IH]. Qed.










End FilterNarrowing.

(** ** Sorting and filtering, in either order *)

Section SortFilter.
Import JS RegExp DataCollection Query.
Variable Date_parse : string -> number.


Lemma StronglySorted_filter {A} (R : A -> A -> Prop) (p : A -> bool) (l : list A) :
  StronglySorted R l -> StronglySorted R (filter p l).
Proof.
  induction 1 as [|x l _ IH F]; simpl.
  - constructor.
  - destruct (p x); [|exact IH]. constructor; [exact IH|].
    rewrite Forall_forall in *. intros y Hy. apply F.
    apply filter_In in Hy. now destruct Hy.
Qed.




End SortFilter.

Section SortFilterWitness.
Import JS RegExp DataCollection Query.

End SortFilterWitness.

(** ** The patterns tell no digit from another *)

Section Templates.
Import JS RegExp date_utilities DataCollection Query.
Variable rho : ascii -> ascii -> Prop.
Hypothesis rho_class :
  forall c0 c, rho c0 c ->
    isDigit c0 = isDigit c /\ isSpace c0 = isSpace c
    /\ (isDigit c0 = false -> c = c0).
Hypothesis rho_refl : forall c, isDigit c = false -> rho c c.

Lemma related_length (s0 : string) :
  forall s, related rho s0 s -> String.length s0 = String.length s.
Proof.
  induction s0 as [|c0 s0 IH]; intros [|c s] R; simpl in *; try contradiction.
  - reflexivity.
  - f_equal. apply IH. tauto.
Qed.

Lemma related_empty (s0 s : string) :
  related rho s0 s -> String.eqb s0 "" = String.eqb s "".
Proof. destruct s0, s; simpl; tauto. Qed.

Lemma related_append (a0 : string) :
  forall a b0 b,
    related rho a0 a -> related rho b0 b -> related rho (a0 ++ b0) (a ++ b).
Proof.
  induction a0 as [|c0 a0 IH]; intros [|c a] b0 b Ra Rb; simpl in *;
    try contradiction; [exact Rb|].
  split; [tauto|]. apply IH; tauto.
Qed.

Lemma atom_matches_related (a : atom) (c0 c : ascii) :
  blind_atom a = true -> rho c0 c -> atom_matches a c0 = atom_matches a c.
Proof.
  intros B R. destruct (rho_class c0 c R) as [Hd [Hs Hn]].
  destruct a as [k| |]; simpl in *; auto.
  apply negb_true_iff in B.
  destruct (isDigit c0) eqn:D0.
  - destruct (Ascii.eqb c0 k) eqn:E0.
    + apply Ascii.eqb_eq in E0. congruence.
    + destruct (Ascii.eqb c k) eqn:E; [|reflexivity].
      apply Ascii.eqb_eq in E. congruence.
  - now rewrite (Hn eq_refl).
Qed.

Lemma repeat_atom_related (k0 k : string -> option string) (a : atom) :
  (forall s0 s, related rho s0 s -> related_option rho (k0 s0) (k s)) ->
  blind_atom a = true ->
  forall (fuel lo : nat) (s0 s : string),
    related rho s0 s ->
    related_option rho (repeat_atom k0 a fuel lo s0) (repeat_atom k a fuel lo s).
Proof.
  intros Hk B. induction fuel as [|fuel IH]; intros lo s0 s R.
  - simpl. destruct lo; [now apply Hk|exact I].
  - cbn [repeat_atom].
    assert (St : related_option rho
                   (match lo with O => k0 s0 | S _ => None end)
                   (match lo with O => k s | S _ => None end))
      by (destruct lo; [now apply Hk|exact I]).
    destruct s0 as [|c0 s0], s as [|c s]; simpl in R; try contradiction;
      [exact St|].
    destruct R as [Rc R].
    rewrite (atom_matches_related a c0 c B Rc).
    destruct (atom_matches a c); [|exact St].
    specialize (IH (Nat.pred lo) s0 s R).
    destruct (repeat_atom k0 a fuel (Nat.pred lo) s0),
             (repeat_atom k a fuel (Nat.pred lo) s); simpl in IH;
      try contradiction; [exact IH|exact St].
Qed.

Lemma matchHere_related (r : regex) :
  blind r = true ->
  forall s0 s, related rho s0 s ->
    related_option rho (matchHere r s0) (matchHere r s).
Proof.
  induction r as [|p r IH]; intros B s0 s R.
  - exact R.
  - simpl in B. apply andb_true_iff in B. destruct B as [Ba Br].
    cbn [matchHere]. rewrite (related_length s0 s R).
    apply repeat_atom_related; auto.
Qed.

Lemma take_related (n : nat) :
  forall s0 s, related rho s0 s -> related rho (take n s0) (take n s).
Proof.
  unfold take. induction n as [|n IH]; intros [|c0 s0] [|c s] R; simpl in *;
    try contradiction; auto.
  split; [tauto|]. apply IH. tauto.
Qed.

Lemma exec_related (r : regex) :
  blind r = true ->
  forall s0 s, related rho s0 s ->
    related_option rho (exec r s0) (exec r s).
Proof.
  intro B. induction s0 as [|c0 s0 IH]; intros [|c s] R; simpl in R;
    try contradiction.
  - cbn [exec]. pose proof (matchHere_related r B "" "" I) as M.
    destruct (matchHere r ""); simpl in M; [|exact I].
    simpl. exact I.
  - cbn [exec].
    pose proof (matchHere_related r B (String c0 s0) (String c s) R) as M.
    destruct (matchHere r (String c0 s0)) as [rest0|],
             (matchHere r (String c s)) as [rest|]; simpl in M;
      try contradiction.
    + simpl. rewrite (related_length _ _ M), (related_length s0 s (proj2 R)).
      now apply take_related.
    + apply IH. tauto.
Qed.

Lemma test_related (r : regex) (s0 s : string) :
  blind r = true -> related rho s0 s -> test r s0 = test r s.
Proof.
  intros B R. unfold test. pose proof (exec_related r B s0 s R) as E.
  destruct (exec r s0), (exec r s); simpl in E; tauto.
Qed.

Lemma rev_string_related (s0 : string) :
  forall s acc0 acc,
    related rho acc0 acc -> related rho s0 s ->
    related rho (rev_string acc0 s0) (rev_string acc s).
Proof.
  induction s0 as [|c0 s0 IH]; intros [|c s] acc0 acc Ra R; simpl in *;
    try contradiction; [exact Ra|].
  apply IH; [|tauto]. simpl. tauto.
Qed.

Lemma split_loop_related (r : regex) :
  blind r = true ->
  forall (fuel : nat) (chunk0 chunk s0 s : string),
    related rho chunk0 chunk -> related rho s0 s ->
    Forall2 (related rho) (split_loop fuel r chunk0 s0) (split_loop fuel r chunk s).
Proof.
  intro B. induction fuel as [|fuel IH]; intros chunk0 chunk s0 s Rc R.
  - simpl. constructor; [|constructor]. now apply rev_string_related.
  - cbn [split_loop].
    destruct s0 as [|c0 s0], s as [|c s]; simpl in R; try contradiction.
    + constructor; [|constructor]. now apply rev_string_related.
    + pose proof (matchHere_related r B (String c0 s0) (String c s) R) as M.
      assert (Rn : related rho (String c0 chunk0) (String c chunk))
        by (simpl; tauto).
      destruct (matchHere r (String c0 s0)) as [rest0|],
               (matchHere r (String c s)) as [rest|]; simpl in M;
        try contradiction.
      * rewrite (related_length _ _ M),
                (related_length (String c0 s0) (String c s) R).
        change (String.eqb chunk0 EmptyString) with (String.eqb chunk0 "").
        change (String.eqb chunk EmptyString) with (String.eqb chunk "").
        rewrite (related_empty _ _ Rc).
        destruct (_ && _).
        -- apply IH; tauto.
        -- constructor; [now apply rev_string_related|].
           apply IH; [exact I|exact M].
      * apply IH; tauto.
Qed.

Lemma split_related (r : regex) (s0 s : string) :
  blind r = true -> related rho s0 s ->
  Forall2 (related rho) (split r s0) (split r s).
Proof.
  intros B R. unfold split.
  destruct s0 as [|c0 s0], s as [|c s]; simpl in R; try contradiction.
  - pose proof (matchHere_related r B "" "" I) as M.
    destruct (matchHere r ""); repeat constructor.
  - rewrite (related_length (String c0 s0) (String c s) R).
    apply split_loop_related; auto. exact I.
Qed.

Lemma split_char_related (sep : ascii) (s0 : string) :
  isDigit sep = false ->
  forall s, related rho s0 s ->
    Forall2 (related rho) (split_char sep s0) (split_char sep s).
Proof.
  intro Hs.
  induction s0 as [|c0 s0 IH]; intros [|c s] R; simpl in R; try contradiction.
  - repeat constructor.
  - destruct R as [Rc R]. cbn [split_char].
    pose proof (atom_matches_related (Chr sep) c0 c) as E. simpl in E.
    rewrite E by (auto; now rewrite Hs).
    specialize (IH s R).
    destruct (Ascii.eqb c sep).
    + constructor; [exact I|exact IH].
    + inversion IH as [|w0 w ws0 ws Rw Rws]; subst.
      * repeat constructor. exact Rc.
      * constructor; [|exact Rws]. simpl. tauto.
Qed.

Lemma part_related (l0 l : list string) (i : nat) :
  Forall2 (related rho) l0 l -> related rho (part l0 i) (part l i).
Proof.
  intro F. revert i. unfold part.
  induction F as [|x0 x l0 l Rx _ IH]; intros [|i]; simpl; auto;
    repeat split; apply rho_refl; reflexivity.
Qed.

(** A text of the code, which holds no digit, stands for itself. *)
Ltac text_related :=
  simpl; repeat split; apply rho_refl; reflexivity.

Ltac pieces_related :=
  repeat first
    [ exact I
    | assumption
    | apply part_related; assumption
    | apply related_append
    | text_related ].

(** The converters give related strings on related strings. *)
Lemma convertIsoDateInEuDate_related (s0 s spaced : string) (lineBreak : bool) :
  related rho s0 s ->
  related rho (convertIsoDateInEuDate s0 spaced lineBreak)
              (convertIsoDateInEuDate s spaced lineBreak).
Proof.
  intro R. unfold convertIsoDateInEuDate. cbv zeta.
  rewrite (test_related isoDateFormatRegex s0 s eq_refl R).
  rewrite (test_related isoDateTimeFormatRegex s0 s eq_refl R).
  pose proof (exec_related isoDateFormatRegex eq_refl s0 s R) as E.
  pose proof (exec_related timeRegex eq_refl s0 s R) as E'.
  destruct (exec isoDateFormatRegex s0) as [m0|],
           (exec isoDateFormatRegex s) as [m|]; simpl in E; try contradiction;
  destruct (exec timeRegex s0) as [t0|], (exec timeRegex s) as [t1|];
    simpl in E'; try contradiction;
  unfold truthy_string;
  try rewrite (related_empty m0 m E);
  try rewrite (related_empty t0 t1 E');
  try (pose proof (split_char_related "-" m0 eq_refl m E));
  assert (Forall2 (related rho) ["-"; "-"; "-"] ["-"; "-"; "-"])
    by (repeat constructor; apply rho_refl; reflexivity);
  destruct (test isoDateFormatRegex s), (test isoDateTimeFormatRegex s),
           (String.eqb spaced "spaced"), lineBreak;
  try destruct (negb (String.eqb m "")); try destruct (negb (String.eqb t1 ""));
  pieces_related.
Qed.

Lemma convertEuDateInIsoDate_related (s0 s : string) :
  related rho s0 s ->
  related rho (convertEuDateInIsoDate s0) (convertEuDateInIsoDate s).
Proof.
  intro R. unfold convertEuDateInIsoDate. cbv zeta.
  rewrite (test_related euDateFormatRegex s0 s eq_refl R).
  rewrite (test_related euDateTimeFormatRegex s0 s eq_refl R).
  pose proof (exec_related euDateFormatRegex eq_refl s0 s R) as E.
  pose proof (exec_related timeRegex eq_refl s0 s R) as E'.
  destruct (exec euDateFormatRegex s0) as [m0|],
           (exec euDateFormatRegex s) as [m|]; simpl in E; try contradiction;
  destruct (exec timeRegex s0) as [t0|], (exec timeRegex s) as [t1|];
    simpl in E'; try contradiction;
  try (pose proof (split_related slashRegex m0 m eq_refl E));
  destruct (test euDateFormatRegex s), (test euDateTimeFormatRegex s);
  pieces_related.
Qed.
End Templates.

(** ** Instances of a template *)

Section Instances.
Import JS RegExp date_utilities DataCollection Query.

Lemma instance_char_class (digits_ : list ascii) (c0 c : ascii) :
  instance_char digits_ c0 c ->
  isDigit c0 = isDigit c /\ isSpace c0 = isSpace c
  /\ (isDigit c0 = false -> c = c0).
Proof.
  unfold instance_char. destruct (isDigit c0) eqn:D0.
  - intros [Dc _]. split; [now rewrite Dc|]. split; [|discriminate].
    destruct (digit_not c0 D0) as [_ [_ [_ [_ [_ S0]]]]].
    destruct (digit_not c Dc) as [_ [_ [_ [_ [_ Sc]]]]].
    congruence.
  - intros ->. rewrite D0. auto.
Qed.

Lemma instance_char_refl (digits_ : list ascii) (c : ascii) :
  isDigit c = false -> instance_char digits_ c c.
Proof. intro D. unfold instance_char. now rewrite D. Qed.

(** A template without the digit 9 has one instance. *)
Lemma instance_fill (digits_ : list ascii) (s0 : string) :
  forall s,
    instance digits_ s0 s -> count_char "9" s0 = 0%nat -> s = fill digits_ s0.
Proof.
  unfold instance.
  induction s0 as [|c0 s0 IH]; intros [|c s] R N; simpl in *; try contradiction.
  - reflexivity.
  - destruct R as [Rc R]. destruct (Ascii.eqb c0 "9") eqn:E9; [discriminate|].
    f_equal; [|now apply IH].
    unfold instance_char in Rc. destruct (isDigit c0); [|exact Rc].
    now apply Rc.
Qed.

Lemma convertIsoDateInEuDate_instance (digits_ : list ascii)
  (s0 s spaced : string) (lineBreak : bool) :
  instance digits_ s0 s ->
  instance digits_ (convertIsoDateInEuDate s0 spaced lineBreak)
                   (convertIsoDateInEuDate s spaced lineBreak).
Proof.
  apply convertIsoDateInEuDate_related.
  - apply instance_char_class.
  - apply instance_char_refl.
Qed.

Lemma convertEuDateInIsoDate_instance (digits_ : list ascii) (s0 s : string) :
  instance digits_ s0 s ->
  instance digits_ (convertEuDateInIsoDate s0) (convertEuDateInIsoDate s).
Proof.
  apply convertEuDateInIsoDate_related.
  - apply instance_char_class.
  - apply instance_char_refl.
Qed.

Lemma test_instance (digits_ : list ascii) (r : regex) (s0 s : string) :
  blind r = true -> instance digits_ s0 s -> test r s0 = test r s.
Proof.
  apply test_related. apply instance_char_class.
Qed.

(** Only whether [spaced] is the word 'spaced' matters. *)
Lemma convertIsoDateInEuDate_spaced (s spaced : string) (lineBreak : bool) :
  convertIsoDateInEuDate s spaced lineBreak
  = convertIsoDateInEuDate s
      (if String.eqb spaced "spaced" then "spaced" else "") lineBreak.
Proof.
  unfold convertIsoDateInEuDate.
  destruct (String.eqb spaced "spaced"); reflexivity.
Qed.
End Instances.

(** Proves [instance ds template s] for a string [s] whose characters are
    digits known by hypothesis and the characters of the template. *)
Ltac is_instance :=
  unfold Query.instance; cbn [Query.related String.append];
  repeat split;
  unfold Query.instance_char; cbn;
  repeat split; auto; try discriminate.

(** The template of a string whose digits are variables: the variables
    are numbered from the left, and those past the ninth become the
    digit 9. *)
Ltac template_of s n ds k :=
  lazymatch s with
  | String ?c ?s' =>
      tryif is_var c then
        let p := eval vm_compute in (Ascii.ascii_of_nat (48 + Nat.min n 9)) in
        template_of s' (S n) (ds ++ [c])%list
          ltac:(fun t0 ds' => k (String p t0) ds')
      else
        template_of s' n ds ltac:(fun t0 ds' => k (String c t0) ds')
  | EmptyString => k EmptyString ds
  end.

(** Settles [f s = result], where the digits of [s] are variables, by
    running [f] on the template of [s]. *)
Ltac by_template :=
  cbn [String.append];
  lazymatch goal with
  | |- ?lhs = _ =>
      lazymatch lhs with
      | context C [String ?c ?r] =>
          template_of (String c r) 0%nat (@nil Ascii.ascii)
            ltac:(fun t0 ds =>
              let ds := eval cbn [List.app] in ds in
              let lhs0 := context C [t0] in
              let v := eval vm_compute in lhs0 in
              let R := fresh "R" in
              assert (R : Query.instance ds lhs0 lhs)
                by (repeat first [ apply convertEuDateInIsoDate_instance
                                 | apply convertIsoDateInEuDate_instance ];
                    is_instance);
              let E := fresh "E" in
              assert (E : lhs0 = v) by (vm_compute; reflexivity);
              rewrite E in R; clear E;
              apply instance_fill in R; [|reflexivity];
              let w := eval vm_compute in (Query.fill ds v) in
              change (Query.fill ds v) with w in R;
              exact R)
      end
  end.

(** The same for a pattern test. *)
Ltac test_by_template :=
  cbn [String.append];
  lazymatch goal with
  | |- RegExp.test ?r (String ?c ?s) = _ =>
      template_of (String c s) 0%nat (@nil Ascii.ascii)
        ltac:(fun t0 ds =>
          let ds := eval cbn [List.app] in ds in
          rewrite <- (test_instance ds r t0 (String c s) eq_refl
                        ltac:(is_instance));
          vm_compute; reflexivity)
  end.

Section DateRoundTrips.
Import JS RegExp date_utilities DataCollection Query.

Lemma eu_to_iso (y m d : string) :
  digits 4 y = true -> digits_1_2 m = true -> digits_1_2 d = true ->
  convertEuDateInIsoDate (d ++ "/" ++ m ++ "/" ++ y) = y ++ "-" ++ m ++ "-" ++ d
  /\ convertEuDateInIsoDate (d ++ " / " ++ m ++ " / " ++ y)
     = y ++ "-" ++ m ++ "-" ++ d.
Proof.
  intros Hy Hm Hd. split_digits; split; by_template.
Qed.

Lemma iso_to_eu (y m d spaced : string) (lineBreak : bool) :
  digits 4 y = true -> digits_1_2 m = true -> digits_1_2 d = true ->
  convertIsoDateInEuDate (y ++ "-" ++ m ++ "-" ++ d) spaced lineBreak
  = if String.eqb spaced "spaced"
    then d ++ " / " ++ m ++ " / " ++ y
    else d ++ "/" ++ m ++ "/" ++ y.
Proof.
  intros Hy Hm Hd. rewrite convertIsoDateInEuDate_spaced.
  destruct (String.eqb spaced "spaced"), lineBreak; split_digits; by_template.
Qed.

(** X14 (from ISO to the European form and back).  For every ISO date,
    a year of four digits and a month and a day of one or two,
    [convertEuDateInIsoDate] gives back the date that
    [convertIsoDateInEuDate] was given, with its digits as they were,
    whether the European form was asked with spaces or without.  For an
    ISO date and time the way back gives the date alone: the time of day
    is lost. *)
Theorem X14_iso_eu_iso_round_trip (y m d spaced : string) (lineBreak : bool) :
  digits 4 y = true -> digits_1_2 m = true -> digits_1_2 d = true ->
  convertEuDateInIsoDate
    (convertIsoDateInEuDate (y ++ "-" ++ m ++ "-" ++ d) spaced lineBreak)
  = y ++ "-" ++ m ++ "-" ++ d
  /\ forall hh mm ss,
       digits 2 hh = true -> digits 2 mm = true -> digits 2 ss = true ->
       convertEuDateInIsoDate
         (convertIsoDateInEuDate
            (y ++ "-" ++ m ++ "-" ++ d ++ "T" ++ hh ++ ":" ++ mm ++ ":" ++ ss)
            spaced lineBreak)
       = y ++ "-" ++ m ++ "-" ++ d.
Proof.
  intros Hy Hm Hd. split.
  - rewrite iso_to_eu by assumption.
    destruct (eu_to_iso y m d Hy Hm Hd) as [E1 E2].
    now destruct (String.eqb spaced "spaced").
  - intros hh mm ss Hhh Hmm Hss. rewrite convertIsoDateInEuDate_spaced.
    destruct (String.eqb spaced "spaced"), lineBreak; split_digits; by_template.
Qed.

Lemma X14_iso_eu_iso_round_trip_witness :
  convertEuDateInIsoDate (convertIsoDateInEuDate "2023-5-07" "spaced" false)
  = "2023-5-07"
  /\ forall hh mm ss,
       digits 2 hh = true -> digits 2 mm = true -> digits 2 ss = true ->
       convertEuDateInIsoDate
         (convertIsoDateInEuDate
            ("2023" ++ "-" ++ "5" ++ "-" ++ "07" ++ "T" ++ hh ++ ":" ++ mm ++ ":" ++ ss)
            "spaced" false)
       = "2023-5-07".
Proof.
  exact (X14_iso_eu_iso_round_trip "2023" "5" "07" "spaced" false
           eq_refl eq_refl eq_refl).
Defined.

(** X15 (from the European form to ISO and back).  For every date
    written day/month/year, with or without a blank on each side of the
    slashes, [convertEuDateInIsoDate] gives year-month-day with the digits
    as they were, and [convertIsoDateInEuDate] brings it back to
    day/month/year, with the spacing that is asked then: the way there
    and back keeps the date and settles the spacing. *)
Theorem X15_eu_iso_eu_round_trip (y m d spaced : string) (lineBreak : bool) :
  digits 4 y = true -> digits_1_2 m = true -> digits_1_2 d = true ->
  let unspaced := d ++ "/" ++ m ++ "/" ++ y in
  let with_spaces := d ++ " / " ++ m ++ " / " ++ y in
  convertEuDateInIsoDate unspaced = y ++ "-" ++ m ++ "-" ++ d
  /\ convertEuDateInIsoDate with_spaces = y ++ "-" ++ m ++ "-" ++ d
  /\ convertIsoDateInEuDate (convertEuDateInIsoDate unspaced) spaced lineBreak
     = (if String.eqb spaced "spaced" then with_spaces else unspaced)
  /\ convertIsoDateInEuDate (convertEuDateInIsoDate with_spaces) spaced lineBreak
     = (if String.eqb spaced "spaced" then with_spaces else unspaced).
Proof.
  intros Hy Hm Hd unspaced with_spaces.
  destruct (eu_to_iso y m d Hy Hm Hd) as [E1 E2].
  pose proof (iso_to_eu y m d spaced lineBreak Hy Hm Hd) as E3.
  subst unspaced with_spaces. rewrite E1, E2. auto.
Qed.

Lemma X15_eu_iso_eu_round_trip_witness :
  let unspaced := "7" ++ "/" ++ "05" ++ "/" ++ "2023" in
  let with_spaces := "7" ++ " / " ++ "05" ++ " / " ++ "2023" in
  convertEuDateInIsoDate unspaced = "2023" ++ "-" ++ "05" ++ "-" ++ "7"
  /\ convertEuDateInIsoDate with_spaces = "2023" ++ "-" ++ "05" ++ "-" ++ "7"
  /\ convertIsoDateInEuDate (convertEuDateInIsoDate unspaced) "spaced" true
     = (if String.eqb "spaced" "spaced" then with_spaces else unspaced)
  /\ convertIsoDateInEuDate (convertEuDateInIsoDate with_spaces) "spaced" true
     = (if String.eqb "spaced" "spaced" then with_spaces else unspaced).
Proof.
  exact (X15_eu_iso_eu_round_trip "2023" "05" "7" "spaced" true
           eq_refl eq_refl eq_refl).
Defined.

(** A date followed by a time of day is a date for the comparator, and
    its ISO form is that of the date. *)
Lemma eu_time_to_iso (y m d t : string) :
  digits 4 y = true -> digits_1_2 m = true -> digits_1_2 d = true ->
  time_of_day t ->
  test euDateTimeRegExp (d ++ "/" ++ m ++ "/" ++ y ++ t) = true
  /\ convertEuDateInIsoDate (d ++ "/" ++ m ++ "/" ++ y ++ t)
     = y ++ "-" ++ m ++ "-" ++ d.
Proof.
  intros Hy Hm Hd Ht.
  destruct Ht as [Et|[sep [hh [mm [ss [Hsep [Hhh [Hmm [Hss Et]]]]]]]]]; subst t.
  - split_digits; (split; [test_by_template|by_template]).
  - destruct Hsep as [Es|Es]; subst sep; split_digits;
      (split; [test_by_template|by_template]).
Qed.
End DateRoundTrips.

(** ** Values that hold no date *)

Section NoDate.
Import JS RegExp date_utilities DataCollection Query.

Lemma convertIsoDateInEuDate_no_dash (s spaced : string) (lineBreak : bool) :
  (count_char "-" s < 2)%nat -> convertIsoDateInEuDate s spaced lineBreak = "".
Proof.
  intro H. unfold convertIsoDateInEuDate.
  rewrite (test_count "-" isoDateFormatRegex s) by exact H.
  rewrite (test_count "-" isoDateTimeFormatRegex s) by exact H.
  reflexivity.
Qed.

Lemma convertEuDateInIsoDate_no_slash (s : string) :
  (count_char "/" s < 2)%nat -> convertEuDateInIsoDate s = "".
Proof.
  intro H. unfold convertEuDateInIsoDate.
  rewrite (test_count "/" euDateFormatRegex s) by exact H.
  rewrite (test_count "/" euDateTimeFormatRegex s) by exact H.
  reflexivity.
Qed.

(** X16 (values that hold no date).  A string with fewer than two
    hyphens holds no ISO date and [convertIsoDateInEuDate] turns it into
    the empty string; a string with fewer than two slashes holds no
    European date and [convertEuDateInIsoDate] turns it into the empty
    string; so is the string form of every value that is not a string.
    As a consequence, under the type 'eu_date', [_parseDataPoint] replaces
    a value that is truthy and holds no date (a word, a number, a
    boolean) by the empty string, not by the default '-'. *)
Theorem X16_no_date_gives_empty :
  (forall s spaced lineBreak,
      (count_char "-" s < 2)%nat ->
      convertIsoDateInEuDate s spaced lineBreak = "")
  /\ (forall s, (count_char "/" s < 2)%nat -> convertEuDateInIsoDate s = "")
  /\ (forall v spaced lineBreak,
        (forall s, v <> VStr s) ->
        convertIsoDateInEuDate (ToString v) spaced lineBreak = ""
        /\ convertEuDateInIsoDate (ToString v) = "")
  /\ (forall s,
        s <> "" -> (count_char "-" s < 2)%nat -> (count_char "/" s < 2)%nat ->
        _parseDataPoint (VStr s) (Some "eu_date") = VStr "")
  /\ (forall v,
        (forall s, v <> VStr s) -> truthy v = true ->
        _parseDataPoint v (Some "eu_date") = VStr "").
Proof.
  split; [exact convertIsoDateInEuDate_no_dash|].
  split; [exact convertEuDateInIsoDate_no_slash|].
  split; [|split].
  - intros v spaced lineBreak N. destruct (count_non_string v N) as [Hs Hd].
    split.
    + apply convertIsoDateInEuDate_no_dash. lia.
    + apply convertEuDateInIsoDate_no_slash. lia.
  - intros s Ne Hd Hs. unfold _parseDataPoint.
    assert (T : truthy (VStr s) = true).
    { simpl. apply negb_true_iff. now apply String.eqb_neq. }
    rewrite T. cbn [String.eqb Ascii.eqb Bool.eqb ToString].
    rewrite (test_count "/" euDateTimeRegExp s) by exact Hs.
    now rewrite convertIsoDateInEuDate_no_dash.
  - intros v N T. destruct (count_non_string v N) as [Hs Hd].
    destruct (non_string_no_date v N) as [Hr _].
    unfold _parseDataPoint.
    destruct v as [| |b|n|s]; try discriminate.
    + destruct b; [|discriminate]. reflexivity.
    + rewrite T. cbn [String.eqb Ascii.eqb Bool.eqb].
      rewrite Hr. now rewrite convertIsoDateInEuDate_no_dash by lia.
    + exfalso. now apply (N s).
Qed.
End NoDate.

(** ** Dates of the same day *)

Section SameDay.
Import JS RegExp date_utilities DataCollection Query.
Variable Date_parse : string -> number.

Lemma num_mul_order_zero (ordering : string) :
  num_mul (order_of ordering) (Fin 0) = Fin 0.
Proof.
  destruct (order_of_cases ordering) as [-> | ->]; reflexivity.
Qed.

(** X17 (dates of the same day).  When the cells of two records in the
    sorted column hold the same date day/month/year, each followed by
    nothing or by a time of day, the comparator answers 0 whatever the
    two times are and whatever [Date.parse] answers: the date alone is
    handed to [Date.parse], since [convertEuDateInIsoDate] leaves the
    time out.  Sorting by a column of dates and times therefore orders
    the records by day and leaves the records of one day in the order
    they had. *)
Theorem X17_same_day_ties (ordering : string) (i : option Z) (a b : record)
  (y m d ta tb : string) :
  digits 4 y = true -> digits_1_2 m = true -> digits_1_2 d = true ->
  time_of_day ta -> time_of_day tb ->
  element a i = VStr (d ++ "/" ++ m ++ "/" ++ y ++ ta) ->
  element b i = VStr (d ++ "/" ++ m ++ "/" ++ y ++ tb) ->
  compare Date_parse (order_of ordering) i a b = Fin 0
  /\ tied (compare Date_parse (order_of ordering) i) a b = true
  /\ convertEuDateInIsoDate (d ++ "/" ++ m ++ "/" ++ y ++ ta)
     = y ++ "-" ++ m ++ "-" ++ d.
Proof.
  intros Hy Hm Hd Ta Tb Ea Eb.
  destruct (eu_time_to_iso y m d ta Hy Hm Hd Ta) as [Pa Ca].
  destruct (eu_time_to_iso y m d tb Hy Hm Hd Tb) as [Pb Cb].
  assert (C : forall a b ta tb,
             test euDateTimeRegExp (d ++ "/" ++ m ++ "/" ++ y ++ ta) = true ->
             test euDateTimeRegExp (d ++ "/" ++ m ++ "/" ++ y ++ tb) = true ->
             convertEuDateInIsoDate (d ++ "/" ++ m ++ "/" ++ y ++ ta)
             = y ++ "-" ++ m ++ "-" ++ d ->
             convertEuDateInIsoDate (d ++ "/" ++ m ++ "/" ++ y ++ tb)
             = y ++ "-" ++ m ++ "-" ++ d ->
             element a i = VStr (d ++ "/" ++ m ++ "/" ++ y ++ ta) ->
             element b i = VStr (d ++ "/" ++ m ++ "/" ++ y ++ tb) ->
             compare Date_parse (order_of ordering) i a b = Fin 0).
  { clear. intros a b ta tb Pa Pb Ca Cb Ea Eb.
    unfold compare. rewrite Ea, Eb. cbn [ToString].
    rewrite Pa, Pb, Ca, Cb. cbn [andb].
    rewrite !parseFloat_number. unfold isFinite. cbn [ToNumber].
    destruct (Date_parse (y ++ "-" ++ m ++ "-" ++ d)) as [|z|neg].
    - reflexivity.
    - cbn [num_isNaN num_isFinite negb andb num_sub].
      rewrite Z.sub_diag. apply num_mul_order_zero.
    - cbn [num_isNaN num_isFinite negb andb lt gt ToNumber num_ltb].
      destruct neg; reflexivity. }
  pose proof (C a b ta tb Pa Pb Ca Cb Ea Eb) as Cab.
  pose proof (C b a tb ta Pb Pa Cb Ca Eb Ea) as Cba.
  split; [exact Cab|]. split; [|exact Ca].
  unfold tied, after. now rewrite Cab, Cba.
Qed.
End SameDay.

Section SameDayWitness.
Import JS RegExp date_utilities DataCollection Query.

Lemma X17_same_day_ties_witness :
  compare Dates.Date_parse_utc (order_of "asc") (Some 0)
    [VStr "07/05/2023 10:20:30"] [VStr "07/05/2023<br />08:00:00"]
  = Fin 0
  /\ tied (compare Dates.Date_parse_utc (order_of "asc") (Some 0))
       [VStr "07/05/2023 10:20:30"] [VStr "07/05/2023<br />08:00:00"] = true
  /\ convertEuDateInIsoDate "07/05/2023 10:20:30" = "2023-05-07".
Proof.
  apply (X17_same_day_ties Dates.Date_parse_utc "asc" (Some 0)
           [VStr "07/05/2023 10:20:30"] [VStr "07/05/2023<br />08:00:00"]
           "2023" "05" "07" " 10:20:30" "<br />08:00:00");
    try reflexivity.
  - right. exists " ", "10", "20", "30". repeat split; auto.
  - right. exists "<br />", "08", "00", "00". repeat split; auto.
Defined.
End SameDayWitness.

(** ** Workloads spread over days and months *)

Section Workloads.
Import JS.

(** What the code divides is a multiple of the divisor. *)
Lemma rem_multiple (x y : Z) : y <> 0 -> Z.rem (x - Z.rem x y) y = 0.
Proof.
  intro N. pose proof (Z.quot_rem' x y) as E.
  replace (x - Z.rem x y) with (Z.quot x y * y) by lia.
  apply Z.rem_mul. exact N.
Qed.

Lemma forEach_increment_none {K} (workloads : list (K * number)) (r : Z) :
  r <= 0 ->
  Workload.forEach_increment workloads (Fin r) = (workloads, Fin r).
Proof.
  intro H. induction workloads as [|[k w] l IH]; simpl.
  - reflexivity.
  - replace (0 <? r) with false by (symmetry; apply Z.ltb_ge; lia).
    now rewrite IH.
Qed.

(** One turn of the loop over the entries: the first entries take one
    unit each, as many as the remainder allows. *)
Lemma forEach_increment_spec {K} (workloads : list (K * number)) :
  forall r : Z,
    0 <= r ->
    Workload.forEach_increment workloads (Fin r)
    = ((map (fun e => (fst e, num_add (snd e) (Fin 1)))
            (firstn (Z.to_nat r) workloads)
        ++ skipn (Z.to_nat r) workloads)%list,
       Fin (Z.max 0 (r - Z.of_nat (List.length workloads)))).
Proof.
  induction workloads as [|[k w] l IH]; intros r H.
  - simpl. rewrite firstn_nil, skipn_nil. simpl. f_equal. f_equal. lia.
  - cbn [Workload.forEach_increment num_ltb].
    destruct (0 <? r) eqn:E.
    + apply Z.ltb_lt in E. cbn [num_sub]. rewrite IH by lia.
      replace (Z.to_nat r) with (S (Z.to_nat (r - 1))) by lia.
      cbn [firstn skipn map List.app fst snd List.length]. f_equal. f_equal. lia.
    + apply Z.ltb_ge in E. assert (r = 0) by lia. subst r.
      rewrite forEach_increment_none by lia. simpl. reflexivity.
Qed.

Lemma total_app {K} (a b : list (K * number)) (x y : Z) :
  Workload.total a = Fin x -> Workload.total b = Fin y ->
  Workload.total (a ++ b) = Fin (x + y).
Proof.
  revert x. induction a as [|[k w] a IH]; intros x Ha Hb; simpl in *.
  - injection Ha as <-. exact Hb.
  - destruct w as [|z|sg], (Workload.total a) as [|t|sg'] eqn:Et; simpl in Ha;
      try discriminate; try (destruct sg, sg'; discriminate).
    injection Ha as <-. rewrite (IH t eq_refl Hb). simpl. f_equal. lia.
Qed.

(** The loads of a list are integers. *)
Lemma total_finite {K} (l : list (K * number)) :
  Forall (fun e => exists x, snd e = Fin x) l ->
  exists s, Workload.total l = Fin s.
Proof.
  induction 1 as [|[k w] l [x Hx] _ [s Hs]]; simpl.
  - now exists 0.
  - simpl in Hx. subst w. rewrite Hs. now exists (x + s).
Qed.

Lemma Forall_firstn {A} (P : A -> Prop) (n : nat) (l : list A) :
  Forall P l -> Forall P (firstn n l).
Proof.
  intro F. revert n. induction F as [|x l Hx _ IH]; intros [|n]; simpl;
    constructor; auto.
Qed.

Lemma Forall_skipn {A} (P : A -> Prop) (n : nat) (l : list A) :
  Forall P l -> Forall P (skipn n l).
Proof.
  intro F. revert n. induction F as [|x l Hx F IH]; intros [|n]; simpl; auto.
Qed.

Lemma total_increment {K} (l : list (K * number)) (s : Z) :
  Workload.total l = Fin s ->
  Forall (fun e => exists x, snd e = Fin x) l ->
  Workload.total (map (fun e => (fst e, num_add (snd e) (Fin 1))) l)
  = Fin (s + Z.of_nat (List.length l)).
Proof.
  intros T F. revert s T. induction F as [|[k w] l [x Hx] _ IH]; intros s T.
  - simpl in *. injection T as <-. reflexivity.
  - simpl in Hx. subst w. cbn [map fst snd Workload.total List.length] in *.
    destruct (Workload.total l) as [|t|b] eqn:Et; try discriminate.
    simpl in T. injection T as <-.
    rewrite (IH t eq_refl). simpl. f_equal. lia.
Qed.

Lemma total_firstn_skipn {K} (l : list (K * number)) (n : nat) :
  Forall (fun e => exists x, snd e = Fin x) l ->
  exists a b,
    Workload.total (firstn n l) = Fin a /\ Workload.total (skipn n l) = Fin b
    /\ Workload.total l = Fin (a + b).
Proof.
  intro F.
  assert (Fa : Forall (fun e => exists x, snd e = Fin x) (firstn n l))
    by now apply Forall_firstn.
  assert (Fb : Forall (fun e => exists x, snd e = Fin x) (skipn n l))
    by now apply Forall_skipn.
  destruct (total_finite _ Fa) as [a Ha], (total_finite _ Fb) as [b Hb].
  exists a, b. split; [exact Ha|]. split; [exact Hb|].
  rewrite <- (firstn_skipn n l) at 1. now apply total_app.
Qed.

(** The loop over a remainder that is a natural number, on loads that are
    integers: it ends within [remainder + 1] tests, keeps the keys, lowers
    no load and adds the remainder to the sum. *)
Lemma while_remainder_spec {K} (fuel : nat) :
  forall (workloads : list (K * number)) (r s : Z),
    0 <= r -> (Z.to_nat r < fuel)%nat ->
    (0 < r -> workloads <> []) ->
    Forall (fun e => exists x, snd e = Fin x) workloads ->
    Workload.total workloads = Fin s ->
    exists out,
      Workload.while_remainder fuel workloads (Fin r) = Some out
      /\ map fst out = map fst workloads
      /\ Workload.total out = Fin (s + r)
      /\ Forall2 (fun e e' => exists x x', snd e = Fin x /\ snd e' = Fin x' /\ x <= x')
                 workloads out.
Proof.
  induction fuel as [|fuel IH]; intros l r s Hr Hf Hne F T; [lia|].
  cbn [Workload.while_remainder num_ltb].
  destruct (0 <? r) eqn:E.
  - apply Z.ltb_lt in E. rewrite forEach_increment_spec by lia.
    set (n := Z.to_nat r).
    set (l' := (map (fun e => (fst e, num_add (snd e) (Fin 1))) (firstn n l)
                ++ skipn n l)%list).
    assert (Ll : (0 < List.length l)%nat).
    { destruct l; [now specialize (Hne E)|simpl; lia]. }
    assert (F' : Forall (fun e => exists x, snd e = Fin x) l').
    { unfold l'. apply Forall_app. split.
      - apply Forall_map. apply Forall_firstn.
        eapply Forall_impl; [|exact F]. intros [k w] [x Hx]. simpl in *.
        subst w. now exists (x + 1).
      - now apply Forall_skipn. }
    destruct (total_firstn_skipn l n F) as [a [b [Ha [Hb Hab]]]].
    assert (s = a + b) by congruence. subst s.
    assert (T' : Workload.total l'
                 = Fin (a + b + Z.of_nat (List.length (firstn n l)))).
    { unfold l'.
      rewrite (total_app _ _ (a + Z.of_nat (List.length (firstn n l))) b).
      - f_equal. lia.
      - apply total_increment; [exact Ha|now apply Forall_firstn].
      - exact Hb. }
    rewrite length_firstn in T'.
    destruct (IH l' (Z.max 0 (r - Z.of_nat (List.length l)))
                _ ltac:(lia) ltac:(lia)
                ltac:(intros _; unfold l'; destruct l; [simpl in Ll; lia|];
                      subst n; destruct (Z.to_nat r) eqn:En; [lia|];
                      simpl; discriminate)
                F' T')
      as [out [Eo [Ko [To Fo]]]].
    exists out. split; [exact Eo|]. split; [|split].
    + rewrite Ko. unfold l'. rewrite map_app, map_map. simpl.
      rewrite <- map_app, firstn_skipn. reflexivity.
    + rewrite To. f_equal. subst n. lia.
    + assert (G : Forall2 (fun e e' => exists x x',
                             snd e = Fin x /\ snd e' = Fin x' /\ x <= x') l l').
      { unfold l'. rewrite <- (firstn_skipn n l) at 1.
        apply Forall2_app.
        - assert (Ff : Forall (fun e => exists x, snd e = Fin x) (firstn n l))
            by now apply Forall_firstn.
          clear - Ff. induction Ff as [|[k w] q [x Hx] _ IHq]; simpl;
            constructor; auto.
          simpl in *. subst w. exists x, (x + 1). repeat split; simpl; auto. lia.
        - assert (Fs : Forall (fun e => exists x, snd e = Fin x) (skipn n l))
            by now apply Forall_skipn.
          clear - Fs. induction Fs as [|[k w] q [x Hx] _ IHq]; constructor; auto.
          simpl in *. exists x, x. repeat split; auto. lia. }
      clear - G Fo. revert out Fo.
      induction G as [|e e' l l' [x [x' [Hx [Hx' Le]]]] _ IHG]; intros out Fo;
        inversion Fo as [|? e'' ? out' [y [y' [Hy [Hy' Le']]]] Fo']; subst;
        constructor; auto.
      exists x, y'. repeat split; auto. rewrite Hx' in Hy. injection Hy as <-. lia.
  - apply Z.ltb_ge in E. assert (r = 0) by lia. subst r.
    exists l. split; [reflexivity|]. split; [reflexivity|]. split.
    + rewrite T. f_equal. lia.
    + clear - F. induction F as [|[k w] l [x Hx] _ IH]; constructor; auto.
      exists x, x. repeat split; auto. lia.
Qed.
End Workloads.

Section WorkloadMethods.
Import JS.

Lemma forEach_increment_first {K} (keys_ : list K) (q : Z) :
  forall r : nat,
    (r <= List.length keys_)%nat ->
    (map (fun e => (fst e, num_add (snd e) (Fin 1)))
         (firstn r (map (fun k => (k, Fin q)) keys_))
     ++ skipn r (map (fun k => (k, Fin q)) keys_))%list
    = combine keys_
        (map Fin (repeat (q + 1) r ++ repeat q (List.length keys_ - r))).
Proof.
  induction keys_ as [|k keys_ IH]; intros [|r] L; simpl in *; try lia.
  - reflexivity.
  - f_equal. specialize (IH 0%nat ltac:(lia)). simpl in IH.
    now rewrite Nat.sub_0_r in IH.
  - f_equal. apply IH. lia.
Qed.

Lemma total_constant {K} (keys_ : list K) (q : Z) :
  Workload.total (map (fun k => (k, Fin q)) keys_)
  = Fin (Z.of_nat (List.length keys_) * q).
Proof.
  induction keys_ as [|k keys_ IH].
  - reflexivity.
  - cbn [map Workload.total List.length]. rewrite IH. cbn [num_add].
    f_equal. rewrite Nat2Z.inj_succ. lia.
Qed.

Lemma total_combine {K} (keys_ : list K) :
  forall loads : list Z,
    List.length loads = List.length keys_ ->
    Workload.total (combine keys_ (map Fin loads))
    = Fin (fold_right Z.add 0 loads).
Proof.
  induction keys_ as [|k keys_ IH]; intros [|x loads] L; simpl in *;
    try discriminate.
  - reflexivity.
  - rewrite IH by lia. reflexivity.
Qed.

Lemma sum_repeat (a b : Z) (i j : nat) :
  fold_right Z.add 0 (repeat a i ++ repeat b j)%list
  = Z.of_nat i * a + Z.of_nat j * b.
Proof.
  induction i as [|i IH].
  - cbn [repeat List.app]. induction j as [|j IHj].
    + reflexivity.
    + cbn [repeat fold_right]. rewrite IHj, Nat2Z.inj_succ. simpl. lia.
  - cbn [repeat List.app fold_right]. rewrite IH, Nat2Z.inj_succ. lia.
Qed.

(** X18 (a workload spread over the business days of a month).  For a
    month with business days and a workload that is a natural number,
    [getDailyWorkload] (in its unitary form) returns, once the loop is
    allowed two tests of its condition, one pair per business day, in the
    order of the days: every day gets the quotient of the workload by the
    number of days, and the first days, as many as the remainder of that
    division, get one unit more.  The loads add up to the workload.  A
    month without business days gives no pair, and a month the map does
    not hold makes the call throw a TypeError. *)
Theorem X18_daily_workload (this : Workload.t) (month : Z)
  (businessDays : list Z) (workload : Z) (fuel : nat) :
  Map_get Z.eqb (Workload.maps_businessDaysPerMonth this) month = Some businessDays ->
  businessDays <> [] ->
  0 <= workload ->
  (2 <= fuel)%nat ->
  let n := Z.of_nat (List.length businessDays) in
  let q := workload / n in
  let r := workload mod n in
  let loads := (repeat (q + 1) (Z.to_nat r) ++ repeat q (Z.to_nat (n - r)))%list in
  Workload.getDailyWorkload fuel this month workload
  = Some (Ret (combine businessDays (map Fin loads)))
  /\ Workload.total (combine businessDays (map Fin loads)) = Fin workload
  /\ List.length loads = List.length businessDays
  /\ (forall this' month' workload',
        Map_get Z.eqb (Workload.maps_businessDaysPerMonth this') month' = Some [] ->
        Workload.getDailyWorkload fuel this' month' workload' = Some (Ret []))
  /\ (forall this' month' workload',
        Map_get Z.eqb (Workload.maps_businessDaysPerMonth this') month' = None ->
        Workload.getDailyWorkload fuel this' month' workload'
        = Some (Throw (TypeError "Cannot read properties of undefined (reading 'length')"))).
Proof.
  intros G Ne Hw Hf n q r loads.
  assert (Hn : 0 < n).
  { subst n. destruct businessDays; [congruence|simpl; lia]. }
  assert (Hr : 0 <= r < n) by (apply Z.mod_pos_bound; exact Hn).
  assert (Er : Z.rem workload n = r) by (apply Z.rem_mod_nonneg; lia).
  assert (Lr : r <= workload) by (apply Z.mod_le; lia).
  assert (Eq : Z.quot (workload - r) n = q).
  { rewrite Z.quot_div_nonneg by lia. subst q r.
    rewrite (Z.div_mod workload n) at 1 by lia.
    replace (n * (workload / n) + workload mod n - workload mod n)
      with ((workload / n) * n) by lia.
    apply Z.div_mul. lia. }
  assert (E : Workload.getDailyWorkload fuel this month workload
              = Some (Ret (combine businessDays (map Fin loads)))).
  { unfold Workload.getDailyWorkload. rewrite G.
    fold n. cbn [num_rem].
    replace (n =? 0) with false by (symmetry; apply Z.eqb_neq; lia).
    rewrite Er. cbn [num_sub quotient].
    replace (n =? 0) with false by (symmetry; apply Z.eqb_neq; lia).
    rewrite Eq.
    destruct fuel as [|[|fuel]]; try lia.
    cbn [Workload.while_remainder num_ltb].
    destruct (0 <? r) eqn:Pr.
    - rewrite forEach_increment_spec by lia.
      rewrite length_map. fold n.
      replace (Z.max 0 (r - n)) with 0 by lia.
      cbn [Z.ltb Z.compare option_map].
      rewrite forEach_increment_first by lia.
      unfold loads.
      replace (Z.to_nat (n - r))
        with (List.length businessDays - Z.to_nat r)%nat by (unfold n; lia).
      reflexivity.
    - apply Z.ltb_ge in Pr. assert (r = 0) by lia.
      cbn [option_map]. unfold loads.
      replace (Z.to_nat r) with 0%nat by lia.
      pose proof (forEach_increment_first businessDays q 0%nat ltac:(lia)) as F.
      cbn [firstn skipn map List.app] in F. rewrite F.
      replace (Z.to_nat (n - r))
        with (List.length businessDays - 0)%nat by (unfold n; lia).
      reflexivity. }
  split; [exact E|]. split; [|split; [|split]].
  - rewrite total_combine.
    + unfold loads. rewrite sum_repeat. f_equal.
      rewrite !Z2Nat.id by lia. unfold q, r.
      rewrite (Z.div_mod workload n) at 5 by lia. lia.
    + unfold loads. rewrite length_app, !repeat_length. unfold n. lia.
  - unfold loads. rewrite length_app, !repeat_length. unfold n. lia.
  - intros this' month' workload' G'. unfold Workload.getDailyWorkload.
    rewrite G'. destruct fuel; [lia|]. reflexivity.
  - intros this' month' workload' G'. unfold Workload.getDailyWorkload.
    now rewrite G'.
Qed.

Lemma X18_daily_workload_witness :
  let this := Workload.Workload_ 2023 [1; 2; 3; 4; 5] []
                [(0, [2; 3; 4; 5; 6]); (1, [])] in
  let n := Z.of_nat (List.length [2; 3; 4; 5; 6]) in
  let q := 12 / n in
  let r := 12 mod n in
  let loads := (repeat (q + 1) (Z.to_nat r) ++ repeat q (Z.to_nat (n - r)))%list in
  Workload.getDailyWorkload 2 this 0 12
  = Some (Ret (combine [2; 3; 4; 5; 6] (map Fin loads)))
  /\ Workload.total (combine [2; 3; 4; 5; 6] (map Fin loads)) = Fin 12
  /\ List.length loads = List.length [2; 3; 4; 5; 6]
  /\ (forall this' month' workload',
        Map_get Z.eqb (Workload.maps_businessDaysPerMonth this') month' = Some [] ->
        Workload.getDailyWorkload 2 this' month' workload' = Some (Ret []))
  /\ (forall this' month' workload',
        Map_get Z.eqb (Workload.maps_businessDaysPerMonth this') month' = None ->
        Workload.getDailyWorkload 2 this' month' workload'
        = Some (Throw (TypeError "Cannot read properties of undefined (reading 'length')"))).
Proof.
  apply (X18_daily_workload
           (Workload.Workload_ 2023 [1; 2; 3; 4; 5] []
              [(0, [2; 3; 4; 5; 6]); (1, [])])
           0 [2; 3; 4; 5; 6] 12 2).
  - reflexivity.
  - discriminate.
  - lia.
  - lia.
Defined.

Lemma fold_left_days (months : list (Z * list Z)) :
  forall a : Z,
    fold_left (fun businessDaysAccumulator currentMonth =>
                 businessDaysAccumulator + Z.of_nat (List.length (snd currentMonth)))
              months a
    = a + fold_left (fun businessDaysAccumulator currentMonth =>
                       businessDaysAccumulator
                       + Z.of_nat (List.length (snd currentMonth)))
                    months 0.
Proof.
  induction months as [|m months IH]; intro a; simpl.
  - lia.
  - rewrite IH, (IH (Z.of_nat _)). lia.
Qed.

Lemma total_months (months : list (Z * list Z)) (q : Z) :
  Workload.total
    (map (fun month =>
            ((fst month, Z.of_nat (List.length (snd month))),
             num_mul (Fin (Z.of_nat (List.length (snd month)))) (Fin q)))
         months)
  = Fin (fold_left (fun businessDaysAccumulator currentMonth =>
                      businessDaysAccumulator
                      + Z.of_nat (List.length (snd currentMonth)))
                   months 0 * q).
Proof.
  induction months as [|m months IH].
  - reflexivity.
  - cbn [map Workload.total fold_left fst snd].
    rewrite IH, (fold_left_days months (0 + _)).
    cbn [num_mul num_add]. f_equal. lia.
Qed.

(** X19 (a workload spread over the months of a year).  For a year with
    business days and a workload that is a natural number,
    [getMonthlyWorkload] (in its unitary form) returns, once the loop is
    allowed more tests than the remainder of the workload by the business
    days of the year, one triple per month of the map, in its order, with
    the number of business days of the month; the load of a month is at
    least its business days times the quotient, and the loads add up to
    the workload: the remainder is handed out one unit at a time, month
    after month, also to months without business days.  When the year has
    no business day at all every load is NaN. *)
Theorem X19_monthly_workload (this : Workload.t) (workload : Z) (fuel : nat) :
  let D := Workload.yearlyBusinessDays this in
  0 < D ->
  0 <= workload ->
  (Z.to_nat (workload mod D) < fuel)%nat ->
  (exists out,
      Workload.getMonthlyWorkload fuel this workload = Some (Ret out)
      /\ map fst out
         = map (fun month => (fst month, Z.of_nat (List.length (snd month))))
               (Workload.maps_businessDaysPerMonth this)
      /\ Workload.total out = Fin workload
      /\ Forall2 (fun month e =>
                    exists x, snd e = Fin x
                              /\ Z.of_nat (List.length (snd month)) * (workload / D) <= x)
                 (Workload.maps_businessDaysPerMonth this) out)
  /\ (forall this' workload',
        Workload.yearlyBusinessDays this' = 0 ->
        Workload.getMonthlyWorkload fuel this' workload'
        = Some (Ret (map (fun month =>
                            ((fst month, Z.of_nat (List.length (snd month))), NaN))
                         (Workload.maps_businessDaysPerMonth this')))).
Proof.
  intros D HD Hw Hf.
  assert (Hr : 0 <= workload mod D < D) by (apply Z.mod_pos_bound; exact HD).
  assert (Er : Z.rem workload D = workload mod D)
    by (apply Z.rem_mod_nonneg; lia).
  assert (Lr : workload mod D <= workload) by (apply Z.mod_le; lia).
  assert (Eq : Z.quot (workload - workload mod D) D = workload / D).
  { rewrite Z.quot_div_nonneg by lia.
    rewrite (Z.div_mod workload D) at 1 by lia.
    replace (D * (workload / D) + workload mod D - workload mod D)
      with ((workload / D) * D) by lia.
    apply Z.div_mul. lia. }
  split.
  - unfold Workload.getMonthlyWorkload. fold D. cbn [num_rem].
    replace (D =? 0) with false by (symmetry; apply Z.eqb_neq; lia).
    rewrite Er. cbn [num_sub quotient].
    replace (D =? 0) with false by (symmetry; apply Z.eqb_neq; lia).
    rewrite Eq.
    set (months := Workload.maps_businessDaysPerMonth this) in *.
    set (q := workload / D) in *.
    destruct (while_remainder_spec fuel
                (map (fun month =>
                        ((fst month, Z.of_nat (List.length (snd month))),
                         num_mul (Fin (Z.of_nat (List.length (snd month)))) (Fin q)))
                     months)
                (workload mod D) (D * q) ltac:(lia) Hf)
      as [out [Eo [Ko [To Fo]]]].
    + intros _ E0. apply map_eq_nil in E0.
      unfold D, Workload.yearlyBusinessDays in HD. fold months in HD.
      rewrite E0 in HD. simpl in HD. lia.
    + apply Forall_map, Forall_forall. intros m _. simpl. eauto.
    + rewrite total_months. reflexivity.
    + exists out. rewrite Eo. split; [reflexivity|]. split; [|split].
      * rewrite Ko, map_map. reflexivity.
      * rewrite To. f_equal. unfold q.
        rewrite (Z.div_mod workload D) at 3 by lia. lia.
      * clear - Fo. revert out Fo.
        induction months as [|m months IH]; intros out Fo.
        -- inversion Fo. constructor.
        -- cbn [map] in Fo.
           inversion Fo as [|? e ? out' [x [x' [Hx [Hx' Le]]]] Fo']; subst.
           constructor; [|now apply IH].
           cbn [snd num_mul] in Hx. injection Hx as <-.
           exists x'. split; [exact Hx'|exact Le].
  - intros this' workload' E0. unfold Workload.getMonthlyWorkload.
    rewrite E0. cbn [num_rem Z.eqb num_sub quotient].
    destruct fuel; [lia|]. cbn [Workload.while_remainder num_ltb option_map].
    reflexivity.
Qed.

Lemma X19_monthly_workload_witness :
  let this := Workload.Workload_ 2023 [1; 2; 3; 4; 5] []
                [(0, [2; 3; 4; 5; 6]); (1, []); (2, [1; 2; 3])] in
  (exists out,
      Workload.getMonthlyWorkload 5 this 100 = Some (Ret out)
      /\ map fst out
         = map (fun month => (fst month, Z.of_nat (List.length (snd month))))
               (Workload.maps_businessDaysPerMonth this)
      /\ Workload.total out = Fin 100
      /\ Forall2 (fun month e =>
                    exists x, snd e = Fin x
                              /\ Z.of_nat (List.length (snd month))
                                 * (100 / Workload.yearlyBusinessDays this) <= x)
                 (Workload.maps_businessDaysPerMonth this) out)
  /\ (forall this' workload',
        Workload.yearlyBusinessDays this' = 0 ->
        Workload.getMonthlyWorkload 5 this' workload'
        = Some (Ret (map (fun month =>
                            ((fst month, Z.of_nat (List.length (snd month))), NaN))
                         (Workload.maps_businessDaysPerMonth this')))).
Proof.
  apply (X19_monthly_workload
           (Workload.Workload_ 2023 [1; 2; 3; 4; 5] []
              [(0, [2; 3; 4; 5; 6]); (1, []); (2, [1; 2; 3])])
           100 5).
  - reflexivity.
  - lia.
  - vm_compute. lia.
Defined.
End WorkloadMethods.

Section DateFields.
Import JS DateObject.

Ltac floors :=
  repeat match goal with
         | |- context [?a / ?b] =>
             let q := fresh "q" in
             let E := fresh "E" in
             pose proof (Z.div_mod a b ltac:(lia));
             pose proof (Z.mod_pos_bound a b ltac:(lia));
             remember (a / b) as q eqn:E; clear E
         end.

Lemma Day_MakeDate (day time : Z) :
  0 <= time < msPerDay -> Day (MakeDate day time) = day.
Proof.
  intro H. unfold Day, MakeDate. unfold msPerDay in *.
  rewrite Z.add_comm, Z.div_add by lia.
  rewrite Z.div_small by lia. reflexivity.
Qed.

Lemma DaysInYear_leap (y : Z) :
  DaysInYear y = if Query.leap_year y then 366 else 365.
Proof.
  unfold DaysInYear, Query.leap_year.
  destruct (y mod 4 =? 0), (y mod 100 =? 0), (y mod 400 =? 0); reflexivity.
Qed.

(** A year starts when the year before it ends. *)
Lemma DayFromYear_next (y : Z) :
  DayFromYear (y + 1) = DayFromYear y + DaysInYear y.
Proof.
  unfold DayFromYear, DaysInYear.
  destruct (Z.eqb_spec (y mod 4) 0) as [A|A],
           (Z.eqb_spec (y mod 100) 0) as [B|B],
           (Z.eqb_spec (y mod 400) 0) as [C|C]; cbn [negb];
    revert A B C;
    pose proof (Z.div_mod y 4 ltac:(lia));
    pose proof (Z.mod_pos_bound y 4 ltac:(lia));
    pose proof (Z.div_mod y 100 ltac:(lia));
    pose proof (Z.mod_pos_bound y 100 ltac:(lia));
    pose proof (Z.div_mod y 400 ltac:(lia));
    pose proof (Z.mod_pos_bound y 400 ltac:(lia));
    floors; lia.
Qed.

Lemma DaysInYear_bounds (y : Z) : 365 <= DaysInYear y <= 366.
Proof.
  unfold DaysInYear.
  destruct (y mod 4 =? 0), (y mod 100 =? 0), (y mod 400 =? 0); cbn; lia.
Qed.

Lemma DayFromYear_mono (a b : Z) : a <= b -> DayFromYear a <= DayFromYear b.
Proof.
  intro H. replace b with (a + Z.of_nat (Z.to_nat (b - a))) by lia.
  induction (Z.to_nat (b - a)) as [|n IH].
  - rewrite Z.add_0_r. lia.
  - rewrite Nat2Z.inj_succ.
    replace (a + Z.succ (Z.of_nat n)) with (a + Z.of_nat n + 1) by lia.
    rewrite DayFromYear_next.
    pose proof (DaysInYear_bounds (a + Z.of_nat n)). lia.
Qed.

(** The year of a day is the largest year that starts on the day or
    before it. *)
Lemma YearFromDay_spec (day : Z) :
  DayFromYear (YearFromDay day) <= day < DayFromYear (YearFromDay day + 1).
Proof.
  unfold YearFromDay.
  pose proof (Z.div_mod (400 * day) 146097 ltac:(lia)) as E.
  pose proof (Z.mod_pos_bound (400 * day) 146097 ltac:(lia)) as B.
  set (e := 400 * day / 146097) in *.
  assert (L : DayFromYear (1970 + e - 1) <= day).
  { unfold DayFromYear. clearbody e. floors. lia. }
  assert (U : day < DayFromYear (1970 + e + 1 + 1)).
  { unfold DayFromYear. clearbody e. floors. lia. }
  destruct (Z.ltb_spec day (DayFromYear (1970 + e))) as [P|P].
  - replace (1970 + e - 1 + 1) with (1970 + e) by lia. lia.
  - destruct (Z.leb_spec (DayFromYear (1970 + e + 1)) day) as [Q|Q]; lia.
Qed.

Lemma YearFromDay_unique (y day : Z) :
  DayFromYear y <= day < DayFromYear (y + 1) -> YearFromDay day = y.
Proof.
  intro H. pose proof (YearFromDay_spec day) as S.
  destruct (Z.lt_trichotomy (YearFromDay day) y) as [L|[E|G]]; [|exact E|].
  - pose proof (DayFromYear_mono (YearFromDay day + 1) y ltac:(lia)). lia.
  - pose proof (DayFromYear_mono (y + 1) (YearFromDay day) ltac:(lia)). lia.
Qed.

Lemma MakeDay_date (year month date : Z) :
  MakeDay year month date = MakeDay year month 1 + (date - 1).
Proof. unfold MakeDay. lia. Qed.

(** A month outside 0..11 moves the year. *)
Lemma MakeDay_normal (year month date : Z) :
  MakeDay year month date = MakeDay (year + month / 12) (month mod 12) date.
Proof.
  unfold MakeDay.
  pose proof (Z.mod_pos_bound month 12 ltac:(lia)) as B.
  rewrite (Z.div_small (month mod 12) 12) by lia.
  rewrite Z.mod_mod by lia. rewrite Z.add_0_r. reflexivity.
Qed.

Lemma month_cases (mn : Z) :
  0 <= mn <= 11 ->
  mn = 0 \/ mn = 1 \/ mn = 2 \/ mn = 3 \/ mn = 4 \/ mn = 5 \/ mn = 6
  \/ mn = 7 \/ mn = 8 \/ mn = 9 \/ mn = 10 \/ mn = 11.
Proof. lia. Qed.

Ltac each_month H :=
  apply month_cases in H;
  destruct H as [H|[H|[H|[H|[H|[H|[H|[H|[H|[H|[H|H]]]]]]]]]]]; subst.

Lemma month_length_bounds (y mn : Z) : 28 <= Query.month_length y mn <= 31.
Proof.
  unfold Query.month_length.
  repeat match goal with
         | |- context [match ?x with _ => _ end] => destruct x
         end; lia.
Qed.

Lemma MakeDay_in_year (y mn date : Z) :
  0 <= mn <= 11 ->
  MakeDay y mn date
  = DayFromYear y
    + match mn with
      | 0 => 0
      | 1 => 31
      | 2 => 59 + (if Query.leap_year y then 1 else 0)
      | 3 => 90 + (if Query.leap_year y then 1 else 0)
      | 4 => 120 + (if Query.leap_year y then 1 else 0)
      | 5 => 151 + (if Query.leap_year y then 1 else 0)
      | 6 => 181 + (if Query.leap_year y then 1 else 0)
      | 7 => 212 + (if Query.leap_year y then 1 else 0)
      | 8 => 243 + (if Query.leap_year y then 1 else 0)
      | 9 => 273 + (if Query.leap_year y then 1 else 0)
      | 10 => 304 + (if Query.leap_year y then 1 else 0)
      | _ => 334 + (if Query.leap_year y then 1 else 0)
      end
    + date - 1.
Proof.
  intro H. unfold MakeDay.
  rewrite Z.div_small, Z.mod_small, Z.add_0_r, DaysInYear_leap by lia.
  destruct (Query.leap_year y); reflexivity.
Qed.

(** The fields of a day of a month, at any time of the day. *)
Lemma fields_of_MakeDay (y mn date time : Z) :
  0 <= mn <= 11 ->
  1 <= date <= Query.month_length y mn ->
  0 <= time < msPerDay ->
  let t := MakeDate (MakeDay y mn date) time in
  YearFromTime t = y /\ MonthFromTime t = mn /\ DateFromTime t = date.
Proof.
  intros Hm Hd Ht t.
  assert (D : Day t = MakeDay y mn date) by (apply Day_MakeDate; exact Ht).
  pose proof (DayFromYear_next y) as N. rewrite DaysInYear_leap in N.
  pose proof (MakeDay_in_year y mn date Hm) as K.
  assert (Y : YearFromTime t = y).
  { unfold YearFromTime. rewrite D. apply YearFromDay_unique.
    rewrite N, K. clear N D K t. unfold Query.month_length in Hd.
    each_month Hm; cbv beta iota in *; destruct (Query.leap_year y); lia. }
  assert (L : InLeapYear t = if Query.leap_year y then 1 else 0).
  { unfold InLeapYear. rewrite Y, DaysInYear_leap.
    now destruct (Query.leap_year y). }
  assert (W : DayWithinYear t = MakeDay y mn date - DayFromYear y).
  { unfold DayWithinYear. now rewrite Y, D. }
  assert (M : MonthFromTime t = mn).
  { unfold MonthFromTime. rewrite L, W, K. clear N D Y L W K t.
    unfold Query.month_length in Hd.
    each_month Hm; cbv beta iota zeta in *; destruct (Query.leap_year y);
      repeat match goal with
             | |- context [?a <? ?b] => destruct (Z.ltb_spec a b); try lia
             end. }
  split; [exact Y|]. split; [exact M|].
  unfold DateFromTime. rewrite M, L, W, K. clear N D Y L W M K t.
  unfold Query.month_length in Hd.
  each_month Hm; cbv beta iota zeta in *; destruct (Query.leap_year y); lia.
Qed.

(** The month after a month starts when the month ends. *)
Lemma MakeDay_next_month (y mn : Z) :
  0 <= mn <= 11 ->
  MakeDay y (mn + 1) 1 = MakeDay y mn 1 + Query.month_length y mn.
Proof.
  intro Hm. destruct (Z.eq_dec mn 11) as [->|N].
  - rewrite (MakeDay_normal y (11 + 1) 1).
    change ((11 + 1) / 12) with 1. change ((11 + 1) mod 12) with 0.
    rewrite !MakeDay_in_year by lia. cbv beta iota.
    rewrite DayFromYear_next, DaysInYear_leap. unfold Query.month_length.
    destruct (Query.leap_year y); lia.
  - rewrite !MakeDay_in_year by lia. unfold Query.month_length.
    each_month Hm; try lia; cbv beta iota;
      change (0 + 1) with 1; change (1 + 1) with 2; change (2 + 1) with 3;
      change (3 + 1) with 4; change (4 + 1) with 5; change (5 + 1) with 6;
      change (6 + 1) with 7; change (7 + 1) with 8; change (8 + 1) with 9;
      change (9 + 1) with 10; change (10 + 1) with 11; cbv beta iota;
      destruct (Query.leap_year y); lia.
Qed.

(** The dates the code builds fall in the range of the time values. *)
Lemma DayFromYear_bounds (y : Z) :
  -271820 <= y <= 275759 ->
  -99999800 <= DayFromYear y /\ DayFromYear (y + 1) <= 99999800.
Proof.
  intro H. unfold DayFromYear. floors. lia.
Qed.

End DateFields.

Section CalendarFacts.
Import JS DateObject Calendar.

Ltac each_month H :=
  apply month_cases in H;
  destruct H as [H|[H|[H|[H|[H|[H|[H|[H|[H|[H|[H|H]]]]]]]]]]]; subst.

Lemma MakeDay_bounds (y mn date : Z) :
  -271820 <= y <= 275759 ->
  0 <= mn <= 11 ->
  1 <= date <= 62 ->
  -99999800 <= MakeDay y mn date <= 99999900.
Proof.
  intros Hy Hm Hd. rewrite MakeDay_in_year by exact Hm.
  pose proof (DayFromYear_bounds y Hy) as [L U].
  rewrite DayFromYear_next in U. pose proof (DaysInYear_bounds y).
  each_month Hm; cbv beta iota; destruct (Query.leap_year y); lia.
Qed.

(** A date built in the range of the time values is a valid date. *)
Lemma new_Date_some (year month date hours minutes seconds : Z) :
  -271820 <= Query.full_year year + month / 12 <= 275759 ->
  1 <= date <= 62 ->
  0 <= MakeTime hours minutes seconds 0 < msPerDay ->
  new_Date year month date hours minutes seconds
  = Some (MakeDate (MakeDay (Query.full_year year + month / 12) (month mod 12) date)
                   (MakeTime hours minutes seconds 0)).
Proof.
  intros Hy Hd Ht. unfold new_Date.
  change (if (0 <=? year) && (year <=? 99) then 1900 + year else year)
    with (Query.full_year year).
  rewrite (MakeDay_normal (Query.full_year year)).
  pose proof (MakeDay_bounds _ (month mod 12) date Hy
                ltac:(pose proof (Z.mod_pos_bound month 12); lia) Hd) as B.
  unfold TimeClip, MakeDate. unfold msPerDay in *.
  destruct (Z.leb_spec
              (Z.abs (MakeDay (Query.full_year year + month / 12) (month mod 12) date
                      * 86400000 + MakeTime hours minutes seconds 0))
              8640000000000000); [reflexivity|lia].
Qed.

(** The fields of a date built on a day of the month. *)
Lemma new_Date_in_month (year month date hours minutes seconds : Z) :
  let y := Query.full_year year + month / 12 in
  let mn := month mod 12 in
  -271820 <= y <= 275759 ->
  1 <= date <= Query.month_length y mn ->
  0 <= MakeTime hours minutes seconds 0 < msPerDay ->
  exists tv,
    new_Date year month date hours minutes seconds = Some tv
    /\ YearFromTime tv = y /\ MonthFromTime tv = mn /\ DateFromTime tv = date
    /\ WeekDay tv = (MakeDay y mn 1 + 4 + (date - 1)) mod 7.
Proof.
  intros y mn Hy Hd Ht.
  pose proof (month_length_bounds y mn) as B.
  assert (Hm : 0 <= mn <= 11)
    by (unfold mn; pose proof (Z.mod_pos_bound month 12); lia).
  eexists. split; [apply new_Date_some; [exact Hy|lia|exact Ht]|].
  fold y mn.
  destruct (fields_of_MakeDay y mn date _ Hm Hd Ht) as [Y [M D]].
  split; [exact Y|]. split; [exact M|]. split; [exact D|].
  unfold WeekDay. rewrite Day_MakeDate by exact Ht.
  rewrite (MakeDay_date y mn date). f_equal. lia.
Qed.

(** The fields of a date built past the end of the month: it falls in the
    month after it. *)
Lemma new_Date_past_month (year month date : Z) :
  let y := Query.full_year year + month / 12 in
  let mn := month mod 12 in
  -271820 <= y <= 275759 ->
  Query.month_length y mn < date <= Query.month_length y mn + 28 ->
  exists tv,
    new_Date year month date 0 0 0 = Some tv
    /\ MonthFromTime tv = (mn + 1) mod 12
    /\ DateFromTime tv = date - Query.month_length y mn.
Proof.
  intros y mn Hy Hd.
  pose proof (month_length_bounds y mn) as B.
  assert (Hm : 0 <= mn <= 11)
    by (unfold mn; pose proof (Z.mod_pos_bound month 12); lia).
  assert (Ht : 0 <= MakeTime 0 0 0 0 < msPerDay) by (vm_compute; split; congruence).
  eexists. split; [apply new_Date_some; [exact Hy|lia|exact Ht]|].
  fold y mn.
  assert (E : MakeDay y mn date
              = MakeDay (y + (mn + 1) / 12) ((mn + 1) mod 12)
                        (date - Query.month_length y mn)).
  { rewrite <- MakeDay_normal.
    rewrite (MakeDay_date y mn date), (MakeDay_date y (mn + 1)).
    rewrite MakeDay_next_month by exact Hm. lia. }
  rewrite E.
  pose proof (month_length_bounds (y + (mn + 1) / 12) ((mn + 1) mod 12)) as B'.
  destruct (fields_of_MakeDay (y + (mn + 1) / 12) ((mn + 1) mod 12)
              (date - Query.month_length y mn) (MakeTime 0 0 0 0)
              ltac:(pose proof (Z.mod_pos_bound (mn + 1) 12); lia)
              ltac:(lia) Ht) as [_ [M D]].
  split; [exact M|exact D].
Qed.

Lemma getDaysInMonth_length (year month : Z) :
  -271820 <= Query.full_year year + month / 12 <= 275759 ->
  getDaysInMonth year month
  = Fin (Query.month_length (Query.full_year year + month / 12) (month mod 12)).
Proof.
  intro Hy.
  pose proof (month_length_bounds (Query.full_year year + month / 12) (month mod 12)) as B.
  destruct (new_Date_past_month year month 32 Hy ltac:(lia)) as [tv [E [_ D]]].
  unfold getDaysInMonth. rewrite E. cbn [getDate num_sub]. rewrite D.
  f_equal. lia.
Qed.

(** X20 (the length of a month).  [getDaysInMonth(year, month)] returns
    the number of days of the month in the Gregorian calendar, 28 to 31,
    with 29 days in February of the years that are multiples of 4 but not
    of 100, or multiples of 400.  A year from 0 to 99 is read as 1900 to
    1999, and a month outside 0..11 is counted into the years before or
    after: the month read is [month mod 12] of the year moved by
    [month / 12].  It holds for the years -271820 to 275759, whose days
    the dates of the language can all hold. *)
Theorem X20_getDaysInMonth (year month : Z) :
  -271820 <= Query.full_year year + month / 12 <= 275759 ->
  getDaysInMonth year month
  = Fin (Query.month_length (Query.full_year year + month / 12) (month mod 12))
  /\ 28 <= Query.month_length (Query.full_year year + month / 12) (month mod 12) <= 31.
Proof.
  intro Hy. split; [now apply getDaysInMonth_length|apply month_length_bounds].
Qed.

Lemma X20_getDaysInMonth_witness :
  getDaysInMonth 2024 1
  = Fin (Query.month_length (Query.full_year 2024 + 1 / 12) (1 mod 12))
  /\ 28 <= Query.month_length (Query.full_year 2024 + 1 / 12) (1 mod 12) <= 31.
Proof.
  apply (X20_getDaysInMonth 2024 1). vm_compute. split; congruence.
Defined.

Lemma getEndOfMonth_length (year month : Z) :
  -271820 <= Query.full_year year <= 275759 ->
  0 <= month <= 11 ->
  getEndOfMonth year month = Query.month_length (Query.full_year year) month.
Proof.
  intros Hy Hm.
  assert (Ed : month / 12 = 0) by (apply Z.div_small; lia).
  assert (Em : month mod 12 = month) by (apply Z.mod_small; lia).
  assert (Hy' : -271820 <= Query.full_year year + month / 12 <= 275759)
    by (rewrite Ed; lia).
  assert (K : forall i, 28 <= i <= 31 ->
              num_eqb (getMonth (new_Date year month i 0 0 0)) month
              = (i <=? Query.month_length (Query.full_year year) month)).
  { intros i Hi.
    pose proof (month_length_bounds (Query.full_year year) month) as B.
    destruct (Z.leb_spec i (Query.month_length (Query.full_year year) month)) as [Le|Gt].
    - destruct (new_Date_in_month year month i 0 0 0) as [tv [E [_ [M _]]]];
        rewrite ?Ed, ?Em, ?Z.add_0_r; try lia.
      { vm_compute. split; congruence. }
      rewrite E. cbn [getMonth num_eqb]. rewrite M, Em. apply Z.eqb_refl.
    - destruct (new_Date_past_month year month i) as [tv [E [M _]]];
        rewrite ?Ed, ?Em, ?Z.add_0_r; try lia.
      rewrite E. cbn [getMonth num_eqb]. rewrite M, Em.
      apply Z.eqb_neq. intro F.
      destruct (Z.eq_dec month 11) as [->|N]; [discriminate F|].
      rewrite Z.mod_small in F by lia. lia. }
  assert (G : getEndOfMonth year month
              = Query.month_length (Query.full_year year) month).
  { unfold getEndOfMonth. cbn [fold_left].
    rewrite !K by lia.
    pose proof (month_length_bounds (Query.full_year year) month) as B.
    repeat match goal with
           | |- context [?a <=? ?b] => destruct (Z.leb_spec a b); try lia
           end. }
  exact G.
Qed.

(** X21 (the last day of a month).  For a month from 0 to 11,
    [getEndOfMonth(year, month)] returns the number of days of the month,
    the value [getDaysInMonth] gives.  For any other month it returns 0,
    whatever the year: the dates it builds fall in a month from 0 to 11,
    which is never the month asked for; so it does for month 12, which a
    caller reaches with [getMonth() + 1] in December. *)
Theorem X21_getEndOfMonth (year month : Z) :
  -271820 <= Query.full_year year <= 275759 ->
  0 <= month <= 11 ->
  getEndOfMonth year month = Query.month_length (Query.full_year year) month
  /\ getDaysInMonth year month = Fin (getEndOfMonth year month)
  /\ (forall year' month',
        month' < 0 \/ 11 < month' -> getEndOfMonth year' month' = 0).
Proof.
  intros Hy Hm. split; [now apply getEndOfMonth_length|]. split.
  - rewrite getEndOfMonth_length by assumption.
    rewrite getDaysInMonth_length by (rewrite Z.div_small by lia; lia).
    now rewrite Z.div_small, Z.mod_small, Z.add_0_r by lia.
  - intros year' month' Hm'. unfold getEndOfMonth. cbn [fold_left].
    assert (K : forall i, num_eqb (getMonth (new_Date year' month' i 0 0 0)) month'
                          = false).
    { intro i. destruct (new_Date year' month' i 0 0 0) as [tv|]; [|reflexivity].
      cbn [getMonth num_eqb]. apply Z.eqb_neq.
      unfold MonthFromTime. cbv zeta.
      repeat match goal with
             | |- context [?a <? ?b] => destruct (Z.ltb_spec a b)
             end; lia. }
    now rewrite !K.
Qed.

Lemma X21_getEndOfMonth_witness :
  getEndOfMonth 2024 1 = Query.month_length (Query.full_year 2024) 1
  /\ getDaysInMonth 2024 1 = Fin (getEndOfMonth 2024 1)
  /\ (forall year' month',
        month' < 0 \/ 11 < month' -> getEndOfMonth year' month' = 0).
Proof.
  apply (X21_getEndOfMonth 2024 1).
  - vm_compute. split; congruence.
  - lia.
Defined.

Lemma isBusinessDay_in_month (year month day : Z)
  (businessDays holidays : option (list Z)) :
  let y := Query.full_year year in
  -271820 <= y <= 275759 ->
  0 <= month <= 11 ->
  1 <= day <= Query.month_length y month ->
  getDay (new_Date year month day 0 0 0)
  = Fin ((MakeDay y month 1 + 4 + (day - 1)) mod 7)
  /\ isBusinessDay year month day businessDays holidays
     = negb (existsb (Z.eqb day)
                     (match holidays with Some l => l | None => [] end))
       && existsb (Z.eqb ((MakeDay y month 1 + 4 + (day - 1)) mod 7))
                  (match businessDays with Some l => l | None => [1; 2; 3; 4; 5] end).
Proof.
  intros y Hy Hm Hd.
  assert (Ed : month / 12 = 0) by (apply Z.div_small; lia).
  assert (Em : month mod 12 = month) by (apply Z.mod_small; lia).
  destruct (new_Date_in_month year month day 0 0 0) as [tv [E [_ [_ [D W]]]]];
    rewrite ?Ed, ?Em, ?Z.add_0_r; try assumption.
  { vm_compute. split; congruence. }
  rewrite Ed, Em, Z.add_0_r in W. fold y in W.
  unfold isBusinessDay. rewrite E. cbn [getDate getDay includes].
  rewrite D, W. split; [reflexivity|].
  destruct holidays as [[|h hol]|], businessDays as [[|b bd]|];
    cbn [List.length Nat.ltb Nat.leb andb existsb negb]; try reflexivity;
    match goal with
    | |- context [if ?c then _ else _] => destruct c
    end; cbn [negb andb]; try reflexivity;
    match goal with
    | |- context [if ?c then _ else _] => destruct c
    end; reflexivity.
Qed.

Lemma StronglySorted_seq (n : nat) :
  forall a : nat, StronglySorted Z.lt (map Z.of_nat (seq a n)).
Proof.
  induction n as [|n IH]; intro a; cbn [seq map]; constructor.
  - apply IH.
  - apply Forall_forall. intros x Hx. apply in_map_iff in Hx.
    destruct Hx as [k [<- Hk]]. apply in_seq in Hk. lia.
Qed.

Lemma existsb_eqb_In (z : Z) (l : list Z) :
  existsb (Z.eqb z) l = true <-> In z l.
Proof.
  rewrite existsb_exists. split.
  - intros [x [Hx E]]. apply Z.eqb_eq in E. now subst.
  - intro H. exists z. split; [exact H|apply Z.eqb_refl].
Qed.

Lemma In_days_up_to (day n : Z) :
  In day (days_up_to (Fin n)) <-> 1 <= day <= n.
Proof.
  unfold days_up_to. rewrite in_map_iff. split.
  - intros [k [<- Hk]]. apply in_seq in Hk. lia.
  - intro H. exists (Z.to_nat day). split; [lia|]. apply in_seq. lia.
Qed.

(** The business days from Monday to Friday of a month of [len] days
    whose day before the first is of week day [w]. *)
Lemma weekdays_count (w len : Z) :
  0 <= w < 7 -> 28 <= len <= 31 ->
  20 <= Z.of_nat (List.length
                    (filter (fun day => existsb (Z.eqb ((w + day) mod 7)) [1; 2; 3; 4; 5])
                            (days_up_to (Fin len)))) <= 23.
Proof.
  intros Hw Hl.
  assert (W : w = 0 \/ w = 1 \/ w = 2 \/ w = 3 \/ w = 4 \/ w = 5 \/ w = 6) by lia.
  assert (L : len = 28 \/ len = 29 \/ len = 30 \/ len = 31) by lia.
  destruct W as [W|[W|[W|[W|[W|[W|W]]]]]], L as [L|[L|[L|L]]]; subst;
    vm_compute; split; congruence.
Qed.

(** X22 (the business days of a month).  For a month from 0 to 11,
    [getBusinessDays(year, month, businessDays, holidays)] lists, in
    increasing order, the days of the month whose day of the week is among
    the business days of the week (Monday to Friday when the argument is
    left out) and whose number is not among the holidays; an empty array
    of business days gives no day.  The days of the week follow one
    another through the month, 0 after 6.  With Monday to Friday and no
    holiday a month has 20 to 23 business days. *)
Theorem X22_getBusinessDays (year month : Z)
  (businessDays holidays : option (list Z)) :
  -271820 <= Query.full_year year <= 275759 ->
  0 <= month <= 11 ->
  let week := match businessDays with Some l => l | None => [1; 2; 3; 4; 5] end in
  let off := match holidays with Some l => l | None => [] end in
  let length_ := Query.month_length (Query.full_year year) month in
  StronglySorted Z.lt (getBusinessDays year month businessDays holidays)
  /\ (forall day,
        In day (getBusinessDays year month businessDays holidays) <->
        1 <= day <= length_
        /\ ~ In day off
        /\ exists w, getDay (new_Date year month day 0 0 0) = Fin w /\ In w week)
  /\ (forall day w,
        1 <= day < length_ ->
        getDay (new_Date year month day 0 0 0) = Fin w ->
        getDay (new_Date year month (day + 1) 0 0 0) = Fin ((w + 1) mod 7))
  /\ 20 <= Z.of_nat (List.length (getBusinessDays year month None None)) <= 23.
Proof.
  intros Hy Hm week off length_.
  assert (Ed : month / 12 = 0) by (apply Z.div_small; lia).
  assert (Em : month mod 12 = month) by (apply Z.mod_small; lia).
  assert (G : getDaysInMonth year month = Fin length_).
  { rewrite getDaysInMonth_length by (rewrite Ed; lia).
    now rewrite Ed, Em, Z.add_0_r. }
  split; [|split; [|split]].
  - unfold getBusinessDays. rewrite G. apply StronglySorted_filter.
    apply StronglySorted_seq.
  - intro day. unfold getBusinessDays. rewrite G, filter_In, In_days_up_to.
    split.
    + intros [Hd B].
      destruct (isBusinessDay_in_month year month day businessDays holidays
                  Hy Hm Hd) as [W E].
      rewrite E in B. apply andb_prop in B. destruct B as [B1 B2].
      split; [exact Hd|]. split.
      * intro Io. apply existsb_eqb_In in Io. fold off in B1.
        now rewrite Io in B1.
      * eexists. split; [exact W|]. now apply existsb_eqb_In.
    + intros [Hd [N [w [W Iw]]]]. split; [exact Hd|].
      destruct (isBusinessDay_in_month year month day businessDays holidays
                  Hy Hm Hd) as [W' E].
      rewrite E. rewrite W' in W. injection W as <-.
      apply andb_true_intro. split.
      * apply negb_true_iff. apply not_true_is_false. intro Io.
        apply existsb_eqb_In in Io. exact (N Io).
      * now apply existsb_eqb_In.
  - intros day w Hd W.
    destruct (isBusinessDay_in_month year month day None None Hy Hm
                ltac:(fold length_; lia)) as [W1 _].
    destruct (isBusinessDay_in_month year month (day + 1) None None Hy Hm
                ltac:(fold length_; lia)) as [W2 _].
    rewrite W1 in W. injection W as <-. rewrite W2. f_equal.
    rewrite Zplus_mod_idemp_l. f_equal. lia.
  - unfold getBusinessDays. rewrite G.
    set (w := (MakeDay (Query.full_year year) month 1 + 3) mod 7).
    rewrite (filter_ext_in _
               (fun day => existsb (Z.eqb ((w + day) mod 7)) [1; 2; 3; 4; 5])).
    + apply weekdays_count.
      * apply Z.mod_pos_bound. lia.
      * apply month_length_bounds.
    + intros day Id. apply In_days_up_to in Id.
      destruct (isBusinessDay_in_month year month day None None Hy Hm Id)
        as [_ E].
      rewrite E. cbn [existsb negb andb]. unfold w.
      rewrite Zplus_mod_idemp_l.
      replace (MakeDay (Query.full_year year) month 1 + 4 + (day - 1))
        with (MakeDay (Query.full_year year) month 1 + 3 + day) by lia.
      reflexivity.
Qed.

Lemma X22_getBusinessDays_witness :
  let week := [1; 2; 3; 4; 5] in
  let off := [2; 3] in
  let length_ := Query.month_length (Query.full_year 2023) 0 in
  StronglySorted Z.lt (getBusinessDays 2023 0 (Some week) (Some off))
  /\ (forall day,
        In day (getBusinessDays 2023 0 (Some week) (Some off)) <->
        1 <= day <= length_
        /\ ~ In day off
        /\ exists w, getDay (new_Date 2023 0 day 0 0 0) = Fin w /\ In w week)
  /\ (forall day w,
        1 <= day < length_ ->
        getDay (new_Date 2023 0 day 0 0 0) = Fin w ->
        getDay (new_Date 2023 0 (day + 1) 0 0 0) = Fin ((w + 1) mod 7))
  /\ 20 <= Z.of_nat (List.length (getBusinessDays 2023 0 None None)) <= 23.
Proof.
  apply (X22_getBusinessDays 2023 0 (Some [1; 2; 3; 4; 5]) (Some [2; 3])).
  - vm_compute. split; congruence.
  - lia.
Defined.
End CalendarFacts.

Section DateRanges.
Import JS DateObject Calendar.

Lemma new_Date_at (year month date hours minutes seconds : Z) :
  -271820 <= Query.full_year year + month / 12 <= 275759 ->
  1 <= date <= 62 ->
  0 <= MakeTime hours minutes seconds 0 < msPerDay ->
  new_Date year month date hours minutes seconds
  = Some (MakeDay (Query.full_year year) month date * msPerDay
          + MakeTime hours minutes seconds 0).
Proof.
  intros Hy Hd Ht. rewrite new_Date_some by assumption.
  now rewrite <- MakeDay_normal.
Qed.

Lemma truthy_or_undefined_some (z : Z) :
  z <> 0 -> truthy_or_undefined (Some z) = Some z.
Proof.
  intro H. unfold truthy_or_undefined.
  now destruct (Z.eqb_spec z 0).
Qed.

Lemma truthy_or_some (z d : Z) : z <> 0 -> truthy_or (Some z) d = z.
Proof. intro H. unfold truthy_or. now destruct (Z.eqb_spec z 0). Qed.

Lemma truthy_field_some (z : Z) : z <> 0 -> truthy_field (Some z) = true.
Proof. intro H. unfold truthy_field. now destruct (Z.eqb_spec z 0). Qed.

(** X23 (the first and the last instant of a range).  A [DateRange] of a
    year and a month from 1 to 11 starts at the first instant of the month
    and ends one second before the month after it starts; with a day in
    addition it starts at the first instant of the day and ends at
    23:59:59 of it.  January cannot be asked for: month 0 is kept as no
    month, and the range of a year and month 0, as the range of a year
    alone, runs from the first instant of the year to one second before
    the year after it starts.  Without a year, or with year 0, both ends
    are the empty string.  Today's date plays no part in any of them. *)
Theorem X23_DateRange (today_year year month day : Z) :
  -271820 <= Query.full_year year <= 275758 ->
  year <> 0 ->
  1 <= month <= 11 ->
  1 <= day <= 31 ->
  exists first next_month first_of_year next_year first_of_day,
    new_Date year month 1 0 0 0 = Some first
    /\ new_Date year (month + 1) 1 0 0 0 = Some next_month
    /\ new_Date year 0 1 0 0 0 = Some first_of_year
    /\ new_Date year 12 1 0 0 0 = Some next_year
    /\ new_Date year month day 0 0 0 = Some first_of_day
    /\ calcStartEndDates today_year
         (constructor (Some year) (Some month) None None None None)
       = (ADate (Some first), ADate (Some (next_month - 1000)))
    /\ calcStartEndDates today_year
         (constructor (Some year) (Some month) (Some day) None None None)
       = (ADate (Some first_of_day), ADate (Some (first_of_day + 86399000)))
    /\ calcStartEndDates today_year
         (constructor (Some year) (Some 0) None None None None)
       = (ADate (Some first_of_year), ADate (Some (next_year - 1000)))
    /\ calcStartEndDates today_year
         (constructor (Some year) None None None None None)
       = (ADate (Some first_of_year), ADate (Some (next_year - 1000)))
    /\ calcStartEndDates today_year
         (constructor None (Some month) (Some day) None None None)
       = (Empty, Empty)
    /\ calcStartEndDates today_year
         (constructor (Some 0) (Some month) (Some day) None None None)
       = (Empty, Empty).
Proof.
  intros Hy Ny Hm Hd.
  assert (T0 : 0 <= MakeTime 0 0 0 0 < msPerDay) by (vm_compute; split; congruence).
  assert (T1 : 0 <= MakeTime 23 59 59 0 < msPerDay) by (vm_compute; split; congruence).
  assert (D0 : forall m, 0 <= m <= 11 -> m / 12 = 0)
    by (intros; apply Z.div_small; lia).
  assert (D1 : (month + 1) / 12 = 0 \/ (month + 1) / 12 = 1).
  { destruct (Z.eq_dec month 11) as [->|N]; [now right|].
    left. apply Z.div_small. lia. }
  pose proof (month_length_bounds (Query.full_year year) month) as B.
  pose proof (month_length_bounds (Query.full_year year) 11) as B'.
  eexists _, _, _, _, _.
  split; [apply new_Date_at; rewrite ?D0 by lia; lia|].
  split; [apply new_Date_at; [destruct D1 as [-> | ->]|..]; lia|].
  split; [apply new_Date_at; rewrite ?D0 by lia; lia|].
  split; [apply new_Date_at; [change (12 / 12) with 1|..]; lia|].
  split; [apply new_Date_at; rewrite ?D0 by lia; lia|].
  unfold calcStartEndDates, constructor.
  cbn [Calendar.year Calendar.month Calendar.day Calendar.hours
       Calendar.minutes Calendar.seconds].
  rewrite !truthy_or_undefined_some by lia.
  cbn [truthy_or_undefined present_or Z.eqb].
  rewrite !truthy_or_some, !truthy_field_some by lia.
  cbn [truthy_or truthy_field].
  rewrite !getEndOfMonth_length by lia.
  rewrite !new_Date_at by (rewrite ?D0 by lia; lia).
  change (MakeTime 0 0 0 0) with 0. change (MakeTime 23 59 59 0) with 86399000.
  pose proof (MakeDay_next_month (Query.full_year year) month ltac:(lia)) as N1.
  pose proof (MakeDay_next_month (Query.full_year year) 11 ltac:(lia)) as N2.
  change (11 + 1) with 12 in N2. rewrite N1, N2.
  rewrite (MakeDay_date _ month (Query.month_length _ _)).
  rewrite (MakeDay_date _ 11 (Query.month_length _ _)).
  unfold msPerDay.
  repeat split; f_equal; do 2 f_equal; lia.
Qed.

Lemma X23_DateRange_witness :
  exists first next_month first_of_year next_year first_of_day,
    new_Date 2021 1 1 0 0 0 = Some first
    /\ new_Date 2021 (1 + 1) 1 0 0 0 = Some next_month
    /\ new_Date 2021 0 1 0 0 0 = Some first_of_year
    /\ new_Date 2021 12 1 0 0 0 = Some next_year
    /\ new_Date 2021 1 15 0 0 0 = Some first_of_day
    /\ calcStartEndDates 2026
         (constructor (Some 2021) (Some 1) None None None None)
       = (ADate (Some first), ADate (Some (next_month - 1000)))
    /\ calcStartEndDates 2026
         (constructor (Some 2021) (Some 1) (Some 15) None None None)
       = (ADate (Some first_of_day), ADate (Some (first_of_day + 86399000)))
    /\ calcStartEndDates 2026
         (constructor (Some 2021) (Some 0) None None None None)
       = (ADate (Some first_of_year), ADate (Some (next_year - 1000)))
    /\ calcStartEndDates 2026
         (constructor (Some 2021) None None None None None)
       = (ADate (Some first_of_year), ADate (Some (next_year - 1000)))
    /\ calcStartEndDates 2026
         (constructor None (Some 1) (Some 15) None None None)
       = (Empty, Empty)
    /\ calcStartEndDates 2026
         (constructor (Some 0) (Some 1) (Some 15) None None None)
       = (Empty, Empty).
Proof.
  apply (X23_DateRange 2026 2021 1 15).
  - vm_compute. split; congruence.
  - discriminate.
  - lia.
  - lia.
Defined.
End DateRanges.

Section Formatting.
Import JS RegExp date_utilities Query.

Lemma seq_forall (f : Z -> bool) (a n : nat) :
  forallb f (map Z.of_nat (seq a n)) = true ->
  forall z, Z.of_nat a <= z < Z.of_nat (a + n) -> f z = true.
Proof.
  intros H z Hz. rewrite forallb_forall in H. apply H.
  apply in_map_iff. exists (Z.to_nat z). split; [lia|].
  apply in_seq. lia.
Qed.

Lemma replace_slash_cons (by_ : string) (x : ascii) (s : string) :
  replace everySlashRegex by_ (String x s)
  = (if Ascii.eqb x "/" then by_ else String x "")
    ++ replace everySlashRegex by_ s.
Proof.
  unfold replace, everySlashRegex.
  cbn [String.length replace_loop matchHere one p_atom p_max p_min
       repeat_atom atom_matches Nat.pred].
  destruct (Ascii.eqb x "/").
  - replace (String.length s =? S (String.length s))%nat with false
      by (symmetry; apply Nat.eqb_neq; lia).
    reflexivity.
  - reflexivity.
Qed.

Lemma replace_slash_digits (by_ : string) (a t : string) :
  all_digits a = true ->
  replace everySlashRegex by_ (a ++ t) = a ++ replace everySlashRegex by_ t.
Proof.
  induction a as [|x a IH]; intro H; [reflexivity|].
  cbn [all_digits] in H. apply andb_prop in H. destruct H as [Hx Ha].
  cbn [String.append]. rewrite replace_slash_cons, IH by exact Ha.
  destruct (digit_not x Hx) as [-> _]. reflexivity.
Qed.

Lemma digits_all (n : nat) (s : string) :
  digits n s = true -> all_digits s = true.
Proof. unfold digits. intro H. apply andb_prop in H. tauto. Qed.

Lemma digits_truthy (n : nat) (s t : string) :
  digits (S n) s = true -> truthy_string (s ++ t) = true.
Proof. destruct s; [discriminate|reflexivity]. Qed.

Lemma two_digits_checked :
  forallb (fun z => digits 2 (two_digits z)
                    && String.eqb (zero_before z) (two_digits z))
          (map Z.of_nat (seq 1 99)) = true.
Proof. vm_compute. reflexivity. Qed.

Lemma two_digits_ok (z : Z) :
  1 <= z <= 99 ->
  digits 2 (two_digits z) = true /\ zero_before z = two_digits z.
Proof.
  intro H. pose proof (seq_forall _ _ _ two_digits_checked z ltac:(lia)) as C.
  cbv beta in C. apply andb_prop in C. destruct C as [C1 C2].
  apply String.eqb_eq in C2. now split.
Qed.

Lemma year_digits_checked :
  forallb (fun z => digits 4 (Z_to_string z)) (map Z.of_nat (seq (Z.to_nat 1000) (Z.to_nat 9000))) = true.
Proof. vm_compute. reflexivity. Qed.

Lemma year_digits_ok (z : Z) :
  1000 <= z <= 9999 -> digits 4 (Z_to_string z) = true.
Proof.
  intro H. exact (seq_forall _ _ _ year_digits_checked z ltac:(lia)).
Qed.

Lemma string_app_nil_r (s : string) : s ++ "" = s.
Proof. induction s as [|c s IH]; simpl; [reflexivity|now rewrite IH]. Qed.

(** The date part of the result, before the spaces are put in. *)
Lemma getDateTimeInEuFormat_date (year month day : Z)
  (spaced lineBreak showDate : bool) :
  1000 <= year <= 9999 -> 1 <= month <= 12 -> 1 <= day <= 31 ->
  getDateTimeInEuFormat (Some year) (Some month) (Some day) None None None
                        spaced lineBreak showDate false
  = let dateTime :=
      two_digits day ++ "/" ++ two_digits month ++ "/" ++ Z_to_string year
      ++ (if lineBreak then "<br />" else "") in
    if spaced then replace everySlashRegex " / " dateTime else dateTime.
Proof.
  intros Hy Hm Hd. unfold getDateTimeInEuFormat.
  replace (if showDate then showDate else true) with true
    by (now destruct showDate).
  cbv zeta. unfold truthy_number.
  replace (day =? 0) with false by (symmetry; apply Z.eqb_neq; lia).
  replace (month =? 0) with false by (symmetry; apply Z.eqb_neq; lia).
  replace (year =? 0) with false by (symmetry; apply Z.eqb_neq; lia).
  cbn [negb].
  destruct (two_digits_ok day ltac:(lia)) as [_ ->].
  destruct (two_digits_ok month ltac:(lia)) as [_ ->].
  cbn [truthy_string String.eqb andb negb].
  rewrite andb_false_r. rewrite !string_app_nil_r, !string_app_assoc.
  rewrite ?string_app_nil_r. reflexivity.
Qed.

(** X24 (a date in the European form).  For a year of four digits, a
    month from 1 to 12 and a day from 1 to 31, [getDateTimeInEuFormat]
    without a time returns the day and the month with two digits each and
    the year, joined by slashes; [spaced] puts a blank on each side of the
    slashes, also of the one in the line break tag, which [lineBreak]
    appends as it is; and [convertEuDateInIsoDate] turns the result,
    spaced or not, into year-month-day with the same digits.  [showDate]
    has no effect: the date is shown also when it is false.  With a time
    the hours from 10 on come after two blanks and those before after one
    blank and a zero. *)
Theorem X24_getDateTimeInEuFormat (year month day : Z) (showDate : bool) :
  1000 <= year <= 9999 -> 1 <= month <= 12 -> 1 <= day <= 31 ->
  let dd := two_digits day in
  let mm := two_digits month in
  let yyyy := Z_to_string year in
  let date spaced lineBreak :=
    getDateTimeInEuFormat (Some year) (Some month) (Some day) None None None
                          spaced lineBreak showDate false in
  digits 2 dd = true /\ digits 2 mm = true /\ digits 4 yyyy = true
  /\ date false false = dd ++ "/" ++ mm ++ "/" ++ yyyy
  /\ date true false = dd ++ " / " ++ mm ++ " / " ++ yyyy
  /\ date false true = dd ++ "/" ++ mm ++ "/" ++ yyyy ++ "<br />"
  /\ date true true = dd ++ " / " ++ mm ++ " / " ++ yyyy ++ "<br  / >"
  /\ convertEuDateInIsoDate (date false false) = yyyy ++ "-" ++ mm ++ "-" ++ dd
  /\ convertEuDateInIsoDate (date true false) = yyyy ++ "-" ++ mm ++ "-" ++ dd
  /\ (forall hours minutes seconds,
        0 <= hours <= 23 -> 0 <= minutes <= 59 -> 0 <= seconds <= 59 ->
        getDateTimeInEuFormat (Some year) (Some month) (Some day)
          (Some hours) (Some minutes) (Some seconds) false false showDate true
        = dd ++ "/" ++ mm ++ "/" ++ yyyy ++ " "
          ++ (if hours <? 10 then "0" else " ") ++ Z_to_string hours
          ++ ":" ++ two_digits minutes ++ ":" ++ two_digits seconds).
Proof.
  intros Hy Hm Hd dd mm yyyy date.
  destruct (two_digits_ok day ltac:(lia)) as [Dd Zd].
  destruct (two_digits_ok month ltac:(lia)) as [Dm Zm].
  pose proof (year_digits_ok year Hy) as Dy.
  fold dd in Dd. fold mm in Dm. fold yyyy in Dy.
  assert (S0 : forall t,
             replace everySlashRegex " / " (dd ++ "/" ++ mm ++ "/" ++ yyyy ++ t)
             = dd ++ " / " ++ mm ++ " / " ++ yyyy
               ++ replace everySlashRegex " / " t).
  { intro t.
    rewrite replace_slash_digits by (eapply digits_all; exact Dd).
    cbn [String.append]. rewrite replace_slash_cons. cbn [Ascii.eqb Bool.eqb].
    rewrite replace_slash_digits by (eapply digits_all; exact Dm).
    cbn [String.append]. rewrite replace_slash_cons. cbn [Ascii.eqb Bool.eqb].
    rewrite replace_slash_digits by (eapply digits_all; exact Dy).
    reflexivity. }
  assert (E : forall spaced lineBreak,
             date spaced lineBreak
             = if spaced
               then dd ++ " / " ++ mm ++ " / " ++ yyyy
                    ++ (if lineBreak then "<br  / >" else "")
               else dd ++ "/" ++ mm ++ "/" ++ yyyy
                    ++ (if lineBreak then "<br />" else "")).
  { intros spaced lineBreak. unfold date.
    rewrite getDateTimeInEuFormat_date by assumption. cbv zeta.
    fold dd mm yyyy. destruct spaced; [|reflexivity].
    rewrite S0. now destruct lineBreak. }
  destruct (eu_to_iso yyyy mm dd Dy
              ltac:(unfold digits_1_2; rewrite Dm; apply orb_true_r)
              ltac:(unfold digits_1_2; rewrite Dd; apply orb_true_r))
    as [C1 C2].
  rewrite !E. cbv beta iota. rewrite !string_app_nil_r.
  split; [exact Dd|]. split; [exact Dm|]. split; [exact Dy|].
  split; [reflexivity|]. split; [reflexivity|]. split; [reflexivity|].
  split; [reflexivity|]. split; [exact C1|]. split; [exact C2|].
  intros hours minutes seconds Hh Hmi Hs.
  unfold getDateTimeInEuFormat.
  replace (if showDate then showDate else true) with true
    by (now destruct showDate).
  cbv zeta. unfold truthy_number.
  replace (day =? 0) with false by (symmetry; apply Z.eqb_neq; lia).
  replace (month =? 0) with false by (symmetry; apply Z.eqb_neq; lia).
  replace (year =? 0) with false by (symmetry; apply Z.eqb_neq; lia).
  cbn [negb]. rewrite Zd, Zm. fold dd mm yyyy.
  rewrite !string_app_assoc.
  rewrite (digits_truthy 1 dd _ Dd).
  assert (T : forall a b, truthy_string
                            ((if hours <? 10 then "0" ++ a else " " ++ a) ++ b)
                          = true) by (intros; now destruct (hours <? 10)).
  rewrite T. cbn [andb String.append].
  unfold two_digits.
  destruct (hours <? 10), (minutes <? 10), (seconds <? 10);
    cbn [String.append]; rewrite ?string_app_assoc; cbn [String.append];
    rewrite ?string_app_nil_r; reflexivity.
Qed.

Lemma X24_getDateTimeInEuFormat_witness :
  let dd := two_digits 7 in
  let mm := two_digits 5 in
  let yyyy := Z_to_string 2023 in
  let date spaced lineBreak :=
    getDateTimeInEuFormat (Some 2023) (Some 5) (Some 7) None None None
                          spaced lineBreak false false in
  digits 2 dd = true /\ digits 2 mm = true /\ digits 4 yyyy = true
  /\ date false false = dd ++ "/" ++ mm ++ "/" ++ yyyy
  /\ date true false = dd ++ " / " ++ mm ++ " / " ++ yyyy
  /\ date false true = dd ++ "/" ++ mm ++ "/" ++ yyyy ++ "<br />"
  /\ date true true = dd ++ " / " ++ mm ++ " / " ++ yyyy ++ "<br  / >"
  /\ convertEuDateInIsoDate (date false false) = yyyy ++ "-" ++ mm ++ "-" ++ dd
  /\ convertEuDateInIsoDate (date true false) = yyyy ++ "-" ++ mm ++ "-" ++ dd
  /\ (forall hours minutes seconds,
        0 <= hours <= 23 -> 0 <= minutes <= 59 -> 0 <= seconds <= 59 ->
        getDateTimeInEuFormat (Some 2023) (Some 5) (Some 7)
          (Some hours) (Some minutes) (Some seconds) false false false true
        = dd ++ "/" ++ mm ++ "/" ++ yyyy ++ " "
          ++ (if hours <? 10 then "0" else " ") ++ Z_to_string hours
          ++ ":" ++ two_digits minutes ++ ":" ++ two_digits seconds).
Proof.
  apply (X24_getDateTimeInEuFormat 2023 5 7 false); lia.
Defined.
End Formatting.
